(** * snapshot/mount_option.go: the Kata virtual-volume codec and the
      nydus-overlayfs mount option assembler

    A shallow embedding of [src/snapshot/mount_option.go] and of the parts
    of the Go standard library it calls ([strings], [encoding/hex],
    [encoding/base64], [unicode/utf8], [strconv], [encoding/json]).  Go
    strings are byte sequences and are modelled by [string] (a sequence of
    8-bit [ascii]); a [[]byte] is a [list ascii]; [uint64] is modelled by
    [N] with the wrap-around of its arithmetic written out; a nilable
    pointer, map or slice is an [option]; a [map[string]string] is a
    [gmap string string]; an error is a value of an inductive type with
    one constructor per place the source makes one. *)

From Stdlib Require Import Ascii String NArith List Bool Lia ZArith.
From Stdlib Require Import DecimalString DecimalN.
From Stdlib Require DecimalPos DecimalFacts.
From stdpp Require Import base option list gmap strings sorting.

Local Open Scope N_scope.

(** ** Package [strings] and [encoding/hex] *)

Module Strings.

(** [strings.ToLower].  An upper-case ASCII letter becomes the lower-case
    one and every other byte is kept.  Go lowers the runes of a string that
    is not pure ASCII through the Unicode tables; the only runes outside
    ASCII whose lower case is an ASCII letter are U+0130 ([i]) and U+212A
    ([k]), and neither letter occurs in the two names this result is
    compared with, so the comparisons of [validateHashType] are the same. *)
Definition lower_byte (c : ascii) : ascii :=
  let n := N_of_ascii c in
  if (65 <=? n) && (n <=? 90) then ascii_of_N (n + 32) else c.

Fixpoint ToLower (s : string) : string :=
  match s with
  | EmptyString => EmptyString
  | String c r => String (lower_byte c) (ToLower r)
  end.

End Strings.

Module Hex.

(** [encoding/hex]: the value of a hexadecimal digit, either case. *)
Definition fromHexChar (c : ascii) : option N :=
  let n := N_of_ascii c in
  if (48 <=? n) && (n <=? 57) then Some (n - 48)
  else if (97 <=? n) && (n <=? 102) then Some (n - 97 + 10)
  else if (65 <=? n) && (n <=? 70) then Some (n - 65 + 10)
  else None.

(** [hex.DecodeString]: pairs of digits give bytes; a character that is
    not a digit, or an odd number of digits, is an error ([None]). *)
Fixpoint DecodeString (s : string) : option (list N) :=
  match s with
  | EmptyString => Some []
  | String _ EmptyString => None
  | String a (String b r) =>
      match fromHexChar a, fromHexChar b with
      | Some x, Some y =>
          match DecodeString r with
          | Some l => Some ((x * 16 + y) :: l)
          | None => None
          end
      | _, _ => None
      end
  end.

End Hex.

(** ** Bytes

    A Go [[]byte] is a [list ascii]; [string(b)] and [[]byte(s)] are the
    conversions [string_of_list_ascii] and [list_ascii_of_string]. *)

(** [byte(n)]: conversion of an unsigned integer to a byte keeps the low
    eight bits. *)
Definition byte_of_N (n : N) : ascii := ascii_of_N (n mod 256).

(** ** Package [encoding/base64], [StdEncoding] *)

Module Base64.

Definition encodeStd : list ascii :=
  list_ascii_of_string
    "ABCDEFGHIJKLMNOPQRSTUVWXYZabcdefghijklmnopqrstuvwxyz0123456789+/".

Definition padChar : ascii := "="%char.

(** [enc.encode[i]] *)
Definition encode (i : N) : ascii := nth (N.to_nat i) encodeStd padChar.

Fixpoint index_of (c : ascii) (l : list ascii) (i : N) : option N :=
  match l with
  | [] => None
  | x :: r => if Ascii.eqb c x then Some i else index_of c r (i + 1)
  end.

(** [enc.decodeMap[c]]; [None] stands for the table's [0xff]. *)
Definition decodeMap (c : ascii) : option N := index_of c encodeStd 0.

(** [Encode]: three bytes give four characters; a last group of one or
    two bytes is padded. *)
Fixpoint Encode (src : list ascii) : list ascii :=
  match src with
  | [] => []
  | [b0] =>
      let val := N.shiftl (N_of_ascii b0) 16 in
      [encode (N.land (N.shiftr val 18) 63); encode (N.land (N.shiftr val 12) 63);
       padChar; padChar]
  | [b0; b1] =>
      let val := N.lor (N.shiftl (N_of_ascii b0) 16) (N.shiftl (N_of_ascii b1) 8) in
      [encode (N.land (N.shiftr val 18) 63); encode (N.land (N.shiftr val 12) 63);
       encode (N.land (N.shiftr val 6) 63); padChar]
  | b0 :: b1 :: b2 :: r =>
      let val := N.lor (N.lor (N.shiftl (N_of_ascii b0) 16) (N.shiftl (N_of_ascii b1) 8))
                       (N_of_ascii b2) in
      encode (N.land (N.shiftr val 18) 63) :: encode (N.land (N.shiftr val 12) 63)
      :: encode (N.land (N.shiftr val 6) 63) :: encode (N.land val 63) :: Encode r
  end.

Definition EncodeToString (src : list ascii) : string :=
  string_of_list_ascii (Encode src).

(** [CorruptInputError]; the offset it reports is left out. *)
Inductive error : Type := CorruptInputError.

(** The bytes of a quantum of [n] decoded characters ([dbuf], missing ones
    zero): [val] is assembled from the four six-bit values and its three
    bytes are taken from the top. *)
Definition quantum (d0 d1 d2 d3 : N) (n : nat) : list ascii :=
  let val := N.lor (N.lor (N.lor (N.shiftl d0 18) (N.shiftl d1 12)) (N.shiftl d2 6)) d3 in
  firstn n [byte_of_N (N.shiftr val 16); byte_of_N (N.shiftr val 8); byte_of_N val].

(** The decoder's loop over quanta, on input without line breaks: quanta
    of four alphabet characters, of which the last may be padded to
    [xx==] or [xxx=]; anything else, or anything after a padded quantum,
    is corrupt input. *)
Fixpoint decodeQuanta (src : list ascii) : option (list ascii) :=
  match src with
  | [] => Some []
  | c0 :: c1 :: c2 :: c3 :: r =>
      match decodeMap c0, decodeMap c1 with
      | Some d0, Some d1 =>
          match decodeMap c2, decodeMap c3 with
          | Some d2, Some d3 =>
              match decodeQuanta r with
              | Some out => Some (quantum d0 d1 d2 d3 3 ++ out)
              | None => None
              end
          | Some d2, None =>
              if Ascii.eqb c3 padChar && bool_decide (r = [])
              then Some (quantum d0 d1 d2 0 2) else None
          | None, _ =>
              if Ascii.eqb c2 padChar && Ascii.eqb c3 padChar && bool_decide (r = [])
              then Some (quantum d0 d1 0 0 1) else None
          end
      | _, _ => None
      end
  | _ => None
  end.

Definition isNewline (c : ascii) : bool :=
  Ascii.eqb c "010"%char || Ascii.eqb c "013"%char.

(** [DecodeString]: carriage returns and line feeds are skipped wherever
    they stand, the rest is decoded quantum by quantum. *)
Definition DecodeString (s : string) : list ascii + error :=
  match decodeQuanta (filter (fun c => isNewline c = false) (list_ascii_of_string s)) with
  | Some out => inl out
  | None => inr CorruptInputError
  end.

End Base64.

(** ** Package [unicode/utf8] *)

Module Utf8.

Definition RuneError : N := 65533.
Definition MaxRune : N := 1114111.

Definition isCont (c : ascii) : bool :=
  (128 <=? N_of_ascii c) && (N_of_ascii c <=? 191).

(** [DecodeRune]: the rune at the head of [p] and the number of bytes of
    its encoding; [(RuneError, 0)] on empty input and [(RuneError, 1)]
    where no well-formed encoding starts (a stray continuation byte, an
    over-long form, a surrogate, a value above [MaxRune], a truncated
    sequence). *)
Definition DecodeRune (p : list ascii) : N * nat :=
  match p with
  | [] => (RuneError, 0%nat)
  | c0 :: p1 =>
      let b0 := N_of_ascii c0 in
      if b0 <? 128 then (b0, 1%nat)
      else if (194 <=? b0) && (b0 <=? 223) then
        match p1 with
        | c1 :: _ =>
            if isCont c1
            then (N.lor (N.shiftl (N.land b0 31) 6) (N.land (N_of_ascii c1) 63), 2%nat)
            else (RuneError, 1%nat)
        | _ => (RuneError, 1%nat)
        end
      else if (224 <=? b0) && (b0 <=? 239) then
        match p1 with
        | c1 :: c2 :: _ =>
            let b1 := N_of_ascii c1 in
            let lo := if b0 =? 224 then 160 else 128 in
            let hi := if b0 =? 237 then 159 else 191 in
            if (lo <=? b1) && (b1 <=? hi) && isCont c2
            then (N.lor (N.lor (N.shiftl (N.land b0 15) 12) (N.shiftl (N.land b1 63) 6))
                        (N.land (N_of_ascii c2) 63), 3%nat)
            else (RuneError, 1%nat)
        | _ => (RuneError, 1%nat)
        end
      else if (240 <=? b0) && (b0 <=? 244) then
        match p1 with
        | c1 :: c2 :: c3 :: _ =>
            let b1 := N_of_ascii c1 in
            let lo := if b0 =? 240 then 144 else 128 in
            let hi := if b0 =? 244 then 143 else 191 in
            if (lo <=? b1) && (b1 <=? hi) && isCont c2 && isCont c3
            then (N.lor (N.lor (N.lor (N.shiftl (N.land b0 7) 18)
                                      (N.shiftl (N.land b1 63) 12))
                               (N.shiftl (N.land (N_of_ascii c2) 63) 6))
                        (N.land (N_of_ascii c3) 63), 4%nat)
            else (RuneError, 1%nat)
        | _ => (RuneError, 1%nat)
        end
      else (RuneError, 1%nat)
  end.

(** [EncodeRune] / [AppendRune]: a surrogate or a value above [MaxRune]
    is written as [RuneError]. *)
Definition EncodeRune (r : N) : list ascii :=
  if r <=? 127 then [byte_of_N r]
  else if r <=? 2047 then
    [byte_of_N (N.lor 192 (N.shiftr r 6)); byte_of_N (N.lor 128 (N.land r 63))]
  else if (MaxRune <? r) || ((55296 <=? r) && (r <=? 57343)) then
    [byte_of_N 239; byte_of_N 191; byte_of_N 189]
  else if r <=? 65535 then
    [byte_of_N (N.lor 224 (N.shiftr r 12));
     byte_of_N (N.lor 128 (N.land (N.shiftr r 6) 63));
     byte_of_N (N.lor 128 (N.land r 63))]
  else
    [byte_of_N (N.lor 240 (N.shiftr r 18));
     byte_of_N (N.lor 128 (N.land (N.shiftr r 12) 63));
     byte_of_N (N.lor 128 (N.land (N.shiftr r 6) 63));
     byte_of_N (N.lor 128 (N.land r 63))].

(** [utf8.Valid]: every byte belongs to a well-formed encoding. *)
Fixpoint Valid (p : list ascii) : bool :=
  match p with
  | [] => true
  | c0 :: p1 =>
      match snd (DecodeRune p), p1 with
      | 1%nat, _ => (N_of_ascii c0 <? 128) && Valid p1
      | 2%nat, _ :: p2 => Valid p2
      | 3%nat, _ :: _ :: p3 => Valid p3
      | 4%nat, _ :: _ :: _ :: p4 => Valid p4
      | _, _ => false
      end
  end.

Definition ValidString (s : string) : bool := Valid (list_ascii_of_string s).

End Utf8.

(** ** Package [strconv]: unsigned decimal numbers *)

Module Strconv.

(** [strconv.FormatUint(n, 10)] *)
Definition FormatUint (n : N) : string := NilZero.string_of_uint (N.to_uint n).

(** [strconv.ParseUint(s, 10, 64)]: decimal digits only, and a value that
    fits 64 bits. *)
Definition ParseUint (s : string) : option N :=
  match NilZero.uint_of_string s with
  | Some u => let n := N.of_uint u in if n <? 2 ^ 64 then Some n else None
  | None => None
  end.

End Strconv.

(** ** Package [encoding/json] *)

Module Json.

(** A JSON text as a tree.  A number keeps its literal, as the decoder
    does until it knows the type it is stored into; a string is held
    decoded; an object keeps its members in the order of the text,
    duplicates included. *)
#[local] Unset Elimination Schemes.
Inductive value : Type :=
| JNull
| JBool (b : bool)
| JNumber (lit : string)
| JString (s : string)
| JArray (l : list value)
| JObject (m : list (string * value)).
#[local] Set Elimination Schemes.

Definition dquote : ascii := "034"%char.
Definition backslash : ascii := "092"%char.

(** *** Writing *)

Definition hex : list ascii := list_ascii_of_string "0123456789abcdef".
Definition hexDigit (n : N) : ascii := nth (N.to_nat n) hex "0"%char.

(** [htmlSafeSet]: the ASCII characters written as they are, all from the
    space on but the quote, the backslash and [<], [>], [&]. *)
Definition htmlSafeSet (c : ascii) : bool :=
  let b := N_of_ascii c in
  (32 <=? b) && (b <? 128)
  && negb (Ascii.eqb c dquote || Ascii.eqb c backslash || Ascii.eqb c "<"%char
           || Ascii.eqb c ">"%char || Ascii.eqb c "&"%char).

(** The escape of an ASCII character outside [htmlSafeSet].  (Go 1.22 and
    later write backspace and form feed in short form too; the decoder
    reads both forms alike.) *)
Definition escapeByte (c : ascii) : list ascii :=
  if Ascii.eqb c backslash || Ascii.eqb c dquote then [backslash; c]
  else if Ascii.eqb c "010"%char then [backslash; "n"%char]
  else if Ascii.eqb c "013"%char then [backslash; "r"%char]
  else if Ascii.eqb c "009"%char then [backslash; "t"%char]
  else [backslash; "u"%char; "0"%char; "0"%char;
        hexDigit (N.shiftr (N_of_ascii c) 4); hexDigit (N.land (N_of_ascii c) 15)].

(** The body of [appendString] with [escapeHTML] set, as [Marshal] sets
    it: the loop over [src], advancing by one byte or by one rune.  A byte
    that starts no well-formed rune is written as the escape of U+FFFD;
    U+2028 and U+2029 are escaped; any other rune is copied. *)
Fixpoint appendString (src : list ascii) : list ascii :=
  match src with
  | [] => []
  | c0 :: p1 =>
      if N_of_ascii c0 <? 128 then
        (if htmlSafeSet c0 then [c0] else escapeByte c0) ++ appendString p1
      else
        let '(c, size) := Utf8.DecodeRune src in
        if (c =? Utf8.RuneError) && (size =? 1)%nat then
          [backslash; "u"%char; "f"%char; "f"%char; "f"%char; "d"%char] ++ appendString p1
        else
          (if (c =? 8232) || (c =? 8233)
           then [backslash; "u"%char; "2"%char; "0"%char; "2"%char; hexDigit (N.land c 15)]
           else firstn size src)
          ++ match size, p1 with
             | 2%nat, _ :: p2 => appendString p2
             | 3%nat, _ :: _ :: p3 => appendString p3
             | 4%nat, _ :: _ :: _ :: p4 => appendString p4
             | _, _ => []
             end
  end.

Definition quote (s : string) : list ascii :=
  dquote :: appendString (list_ascii_of_string s) ++ [dquote].

(** [ls] put one after the other with [sep] between them. *)
Fixpoint join {A : Type} (sep : list A) (ls : list (list A)) : list A :=
  match ls with
  | [] => []
  | [x] => x
  | x :: r => x ++ sep ++ join sep r
  end.

(** The compact text of a tree, as the encoder writes it: no white space,
    members and elements separated by commas. *)
Fixpoint print (v : value) : list ascii :=
  match v with
  | JNull => list_ascii_of_string "null"
  | JBool true => list_ascii_of_string "true"
  | JBool false => list_ascii_of_string "false"
  | JNumber lit => list_ascii_of_string lit
  | JString s => quote s
  | JArray l => "["%char :: join [","%char] (map print l) ++ ["]"%char]
  | JObject m =>
      "{"%char ::
      join [","%char] (map (fun kv => quote (fst kv) ++ ":"%char :: print (snd kv)) m)
      ++ ["}"%char]
  end.

(** A Go string as it is after a passage through [appendString] and back:
    the bytes of every well-formed rune are kept and every other byte is
    replaced by the encoding of U+FFFD. *)
Fixpoint toValidUTF8 (p : list ascii) : list ascii :=
  match p with
  | [] => []
  | c0 :: p1 =>
      match snd (Utf8.DecodeRune p), p1 with
      | 2%nat, c1 :: p2 => c0 :: c1 :: toValidUTF8 p2
      | 3%nat, c1 :: c2 :: p3 => c0 :: c1 :: c2 :: toValidUTF8 p3
      | 4%nat, c1 :: c2 :: c3 :: p4 => c0 :: c1 :: c2 :: c3 :: toValidUTF8 p4
      | _, _ =>
          (if N_of_ascii c0 <? 128 then [c0] else Utf8.EncodeRune Utf8.RuneError)
          ++ toValidUTF8 p1
      end
  end.

Definition coerce (s : string) : string :=
  string_of_list_ascii (toValidUTF8 (list_ascii_of_string s)).

(** *** Reading: strings *)

Definition hexValue (c : ascii) : option N :=
  let n := N_of_ascii c in
  if (48 <=? n) && (n <=? 57) then Some (n - 48)
  else if (97 <=? n) && (n <=? 102) then Some (n - 97 + 10)
  else if (65 <=? n) && (n <=? 70) then Some (n - 65 + 10)
  else None.

(** [getu4]: the code unit of the four hexadecimal digits after a
    backslash and [u]. *)
Definition getu4 (h1 h2 h3 h4 : ascii) : option N :=
  match hexValue h1, hexValue h2, hexValue h3, hexValue h4 with
  | Some a, Some b, Some c, Some d => Some (((a * 16 + b) * 16 + c) * 16 + d)
  | _, _, _, _ => None
  end.

Definition isSurrogate (r : N) : bool := (55296 <=? r) && (r <? 57344).

(** [utf16.DecodeRune] *)
Definition utf16DecodeRune (r1 r2 : N) : N :=
  if (55296 <=? r1) && (r1 <? 56320) && (56320 <=? r2) && (r2 <? 57344)
  then N.lor (N.shiftl (r1 - 55296) 10) (r2 - 56320) + 65536
  else Utf8.RuneError.

Definition consBytes (pre : list ascii) (r : option (list ascii * list ascii))
  : option (list ascii * list ascii) :=
  match r with
  | Some (s, rest) => Some (pre ++ s, rest)
  | None => None
  end.

(** An escape from behind its backslash: the bytes it stands for and the
    number of characters it takes, 1 for a short escape, 5 for [uXXXX]
    and 11 for a surrogate pair.  A surrogate that is not the first half
    of a pair stands for U+FFFD. *)
Definition unescape (r : list ascii) : option (list ascii * nat) :=
  match r with
  | [] => None
  | e :: r1 =>
      if Ascii.eqb e dquote || Ascii.eqb e backslash || Ascii.eqb e "/"%char
      then Some ([e], 1%nat)
      else if Ascii.eqb e "b"%char then Some (["008"%char], 1%nat)
      else if Ascii.eqb e "f"%char then Some (["012"%char], 1%nat)
      else if Ascii.eqb e "n"%char then Some (["010"%char], 1%nat)
      else if Ascii.eqb e "r"%char then Some (["013"%char], 1%nat)
      else if Ascii.eqb e "t"%char then Some (["009"%char], 1%nat)
      else if Ascii.eqb e "u"%char then
        match r1 with
        | h1 :: h2 :: h3 :: h4 :: r5 =>
            match getu4 h1 h2 h3 h4 with
            | None => None
            | Some rr =>
                if isSurrogate rr then
                  match r5 with
                  | b1 :: u1 :: g1 :: g2 :: g3 :: g4 :: _ =>
                      match (if Ascii.eqb b1 backslash && Ascii.eqb u1 "u"%char
                             then getu4 g1 g2 g3 g4 else None) with
                      | Some rr1 =>
                          let dec := utf16DecodeRune rr rr1 in
                          if dec =? Utf8.RuneError
                          then Some (Utf8.EncodeRune Utf8.RuneError, 5%nat)
                          else Some (Utf8.EncodeRune dec, 11%nat)
                      | None => Some (Utf8.EncodeRune Utf8.RuneError, 5%nat)
                      end
                  | _ => Some (Utf8.EncodeRune Utf8.RuneError, 5%nat)
                  end
                else Some (Utf8.EncodeRune rr, 5%nat)
            end
        | _ => None
        end
      else None
  end.

(** A string literal from behind its opening quote: the decoded string and
    the text after the closing quote.  This is the scanner's check of the
    literal (no raw control character, only the escapes of the grammar,
    four hexadecimal digits after [\u]) together with [unquote]: escapes
    are replaced, and bytes outside ASCII are read rune by rune and
    written back, a byte that starts no well-formed rune as U+FFFD. *)
Fixpoint unquote (s : list ascii) : option (list ascii * list ascii) :=
  match s with
  | [] => None
  | c :: r =>
      if Ascii.eqb c dquote then Some ([], r)
      else if Ascii.eqb c backslash then
        match unescape r with
        | None => None
        | Some (bytes, n) =>
            consBytes bytes
              match n, r with
              | 1%nat, _ :: r1 => unquote r1
              | 5%nat, _ :: _ :: _ :: _ :: _ :: r5 => unquote r5
              | 11%nat, _ :: _ :: _ :: _ :: _ :: _ :: _ :: _ :: _ :: _ :: _ :: r11 =>
                  unquote r11
              | _, _ => None
              end
        end
      else if N_of_ascii c <? 32 then None
      else if N_of_ascii c <? 128 then consBytes [c] (unquote r)
      else
        let '(rr, size) := Utf8.DecodeRune s in
        consBytes (Utf8.EncodeRune rr)
          match size, r with
          | 2%nat, _ :: p2 => unquote p2
          | 3%nat, _ :: _ :: p3 => unquote p3
          | 4%nat, _ :: _ :: _ :: p4 => unquote p4
          | _, _ => unquote r
          end
  end.

(** *** Reading: numbers and tokens *)

Definition isDigit (c : ascii) : bool := (48 <=? N_of_ascii c) && (N_of_ascii c <=? 57).

Definition isNumberChar (c : ascii) : bool :=
  isDigit c || Ascii.eqb c "-"%char || Ascii.eqb c "+"%char || Ascii.eqb c "."%char
  || Ascii.eqb c "e"%char || Ascii.eqb c "E"%char.

Definition isLetter (c : ascii) : bool := (97 <=? N_of_ascii c) && (N_of_ascii c <=? 122).

(** White space of the grammar: space, tab, carriage return, line feed. *)
Definition isSpace (c : ascii) : bool :=
  Ascii.eqb c " "%char || Ascii.eqb c "009"%char || Ascii.eqb c "013"%char
  || Ascii.eqb c "010"%char.

Fixpoint span (p : ascii -> bool) (s : list ascii) : list ascii * list ascii :=
  match s with
  | [] => ([], [])
  | c :: r => if p c then let '(a, b) := span p r in (c :: a, b) else ([], s)
  end.

(** The grammar of a number: an optional minus, an integer part without
    leading zero, an optional fraction, an optional exponent. *)
Definition digits1 (s : list ascii) : option (list ascii) :=
  match span isDigit s with
  | ([], _) => None
  | (_, rest) => Some rest
  end.

Definition validExp (s : list ascii) : bool :=
  match s with
  | [] => true
  | e :: r =>
      if Ascii.eqb e "e"%char || Ascii.eqb e "E"%char then
        let r' := match r with
                  | sg :: r2 => if Ascii.eqb sg "+"%char || Ascii.eqb sg "-"%char then r2 else r
                  | [] => r
                  end in
        match digits1 r' with Some [] => true | _ => false end
      else false
  end.

Definition validFrac (s : list ascii) : bool :=
  match s with
  | d :: r =>
      if Ascii.eqb d "."%char
      then match digits1 r with Some rest => validExp rest | None => false end
      else validExp s
  | [] => true
  end.

Definition validInt (s : list ascii) : bool :=
  match s with
  | [] => false
  | d :: r =>
      if Ascii.eqb d "0"%char then validFrac r
      else if isDigit d then validFrac (snd (span isDigit r))
      else false
  end.

Definition validNumber (s : list ascii) : bool :=
  match s with
  | m :: r => if Ascii.eqb m "-"%char then validInt r else validInt s
  | [] => false
  end.

Inductive token : Type :=
| TLBrace | TRBrace | TLBracket | TRBracket | TColon | TComma
| TString (s : string) | TNumber (lit : string) | TTrue | TFalse | TNull.

(** A result of the reader; [OutOfFuel] is no result of the Go code but
    of the bound on the recursion here ([lex_fuel] and [parse_fuel] show
    that the bound given by [parse] is never reached). *)
Inductive outcome (A : Type) : Type :=
| Ok (a : A)
| SyntaxError
| OutOfFuel.
Arguments Ok {A} a.
Arguments SyntaxError {A}.
Arguments OutOfFuel {A}.

Definition omap {A B : Type} (f : A -> B) (o : outcome A) : outcome B :=
  match o with
  | Ok a => Ok (f a)
  | SyntaxError => SyntaxError
  | OutOfFuel => OutOfFuel
  end.

Definition word (w : list ascii) : option token :=
  let s := string_of_list_ascii w in
  if String.eqb s "true" then Some TTrue
  else if String.eqb s "false" then Some TFalse
  else if String.eqb s "null" then Some TNull
  else None.

(** The token at the head of the text [c :: r], if it is not white space,
    and the text after it; [None] where no token starts. *)
Definition scanToken (c : ascii) (r : list ascii) : option (option token * list ascii) :=
  if isSpace c then Some (None, r)
  else if Ascii.eqb c "{"%char then Some (Some TLBrace, r)
  else if Ascii.eqb c "}"%char then Some (Some TRBrace, r)
  else if Ascii.eqb c "["%char then Some (Some TLBracket, r)
  else if Ascii.eqb c "]"%char then Some (Some TRBracket, r)
  else if Ascii.eqb c ":"%char then Some (Some TColon, r)
  else if Ascii.eqb c ","%char then Some (Some TComma, r)
  else if Ascii.eqb c dquote then
    match unquote r with
    | Some (str, rest) => Some (Some (TString (string_of_list_ascii str)), rest)
    | None => None
    end
  else if isDigit c || Ascii.eqb c "-"%char then
    let '(lit, rest) := span isNumberChar (c :: r) in
    if validNumber lit then Some (Some (TNumber (string_of_list_ascii lit)), rest) else None
  else if isLetter c then
    let '(w, rest) := span isLetter (c :: r) in
    match word w with
    | Some t => Some (Some t, rest)
    | None => None
    end
  else None.

Fixpoint lex (fuel : nat) (s : list ascii) : outcome (list token) :=
  match s with
  | [] => Ok []
  | c :: r =>
      match fuel with
      | O => OutOfFuel
      | S fuel' =>
          match scanToken c r with
          | None => SyntaxError
          | Some (None, rest) => lex fuel' rest
          | Some (Some t, rest) => omap (cons t) (lex fuel' rest)
          end
      end
  end.

(** *** Reading: values *)

(** The scanner refuses a text that nests arrays and objects deeper. *)
Definition maxNestingDepth : N := 10000.

Fixpoint parse_value (fuel : nat) (depth : N) (ts : list token)
  : outcome (value * list token) :=
  match fuel with
  | O => OutOfFuel
  | S fuel' =>
      match ts with
      | TNull :: r => Ok (JNull, r)
      | TTrue :: r => Ok (JBool true, r)
      | TFalse :: r => Ok (JBool false, r)
      | TNumber lit :: r => Ok (JNumber lit, r)
      | TString s :: r => Ok (JString s, r)
      | TLBracket :: r =>
          if maxNestingDepth <=? depth then SyntaxError
          else match r with
               | TRBracket :: r' => Ok (JArray [], r')
               | _ => omap (fun '(l, r') => (JArray l, r')) (parse_elements fuel' (N.succ depth) r)
               end
      | TLBrace :: r =>
          if maxNestingDepth <=? depth then SyntaxError
          else match r with
               | TRBrace :: r' => Ok (JObject [], r')
               | _ => omap (fun '(m, r') => (JObject m, r')) (parse_members fuel' (N.succ depth) r)
               end
      | _ => SyntaxError
      end
  end
with parse_elements (fuel : nat) (depth : N) (ts : list token)
  : outcome (list value * list token) :=
  match fuel with
  | O => OutOfFuel
  | S fuel' =>
      match parse_value fuel' depth ts with
      | Ok (v, TComma :: r) =>
          omap (fun '(l, r') => (v :: l, r')) (parse_elements fuel' depth r)
      | Ok (v, TRBracket :: r) => Ok ([v], r)
      | Ok _ => SyntaxError
      | SyntaxError => SyntaxError
      | OutOfFuel => OutOfFuel
      end
  end
with parse_members (fuel : nat) (depth : N) (ts : list token)
  : outcome (list (string * value) * list token) :=
  match fuel with
  | O => OutOfFuel
  | S fuel' =>
      match ts with
      | TString k :: TColon :: r =>
          match parse_value fuel' depth r with
          | Ok (v, TComma :: r') =>
              omap (fun '(m, r'') => ((k, v) :: m, r'')) (parse_members fuel' depth r')
          | Ok (v, TRBrace :: r') => Ok ([(k, v)], r')
          | Ok _ => SyntaxError
          | SyntaxError => SyntaxError
          | OutOfFuel => OutOfFuel
          end
      | _ => SyntaxError
      end
  end.

(** The tree of a text: one value, white space around it, nothing else.
    The fuel is the length of the text for the tokens and twice the number
    of tokens for the values. *)
Definition parse_outcome (data : list ascii) : outcome value :=
  match lex (length data) data with
  | Ok ts =>
      match parse_value (2 * length ts + 1)%nat 0 ts with
      | Ok (v, []) => Ok v
      | Ok (_, _ :: _) => SyntaxError
      | SyntaxError => SyntaxError
      | OutOfFuel => OutOfFuel
      end
  | SyntaxError => SyntaxError
  | OutOfFuel => OutOfFuel
  end.

(** [None] is the decoder's [SyntaxError]. *)
Definition parse (data : list ascii) : option value :=
  match parse_outcome data with
  | Ok v => Some v
  | _ => None
  end.

(** *** The text of a tree read back *)

(** The tokens of the text [print v], strings as the reader decodes them. *)
Fixpoint tokens (v : value) : list token :=
  match v with
  | JNull => [TNull]
  | JBool true => [TTrue]
  | JBool false => [TFalse]
  | JNumber lit => [TNumber lit]
  | JString s => [TString (coerce s)]
  | JArray l => TLBracket :: join [TComma] (map tokens l) ++ [TRBracket]
  | JObject m =>
      TLBrace ::
      join [TComma] (map (fun kv => TString (coerce (fst kv)) :: TColon :: tokens (snd kv)) m)
      ++ [TRBrace]
  end.

(** The tree the reader builds from the text [print v]: that of [v] with
    every string and key passed through [coerce]. *)
Fixpoint coerceValue (v : value) : value :=
  match v with
  | JNull => JNull
  | JBool b => JBool b
  | JNumber lit => JNumber lit
  | JString s => JString (coerce s)
  | JArray l => JArray (map coerceValue l)
  | JObject m => JObject (map (fun kv => (coerce (fst kv), coerceValue (snd kv))) m)
  end.

(** Every string and key of the tree is well-formed UTF-8. *)
Fixpoint validUTF8 (v : value) : bool :=
  match v with
  | JNull | JBool _ | JNumber _ => true
  | JString s => Utf8.ValidString s
  | JArray l => forallb validUTF8 l
  | JObject m => forallb (fun kv => Utf8.ValidString (fst kv) && validUTF8 (snd kv)) m
  end.

(** A tree whose text the reader accepts: its numbers are literals of the
    grammar and it nests arrays and objects at most [budget] deep. *)
Fixpoint readable (budget : N) (v : value) : bool :=
  match v with
  | JNull | JBool _ | JString _ => true
  | JNumber lit =>
      validNumber (list_ascii_of_string lit)
      && forallb isNumberChar (list_ascii_of_string lit)
  | JArray l => (0 <? budget) && forallb (readable (budget - 1)) l
  | JObject m => (0 <? budget) && forallb (fun kv => readable (budget - 1) (snd kv)) m
  end.

(** *** Matching the members of an object with the fields of a struct *)

(** [foldName]: the key of a member up to case.  ASCII letters are put in
    upper case, and so are the two runes outside ASCII that fold to an
    ASCII letter, U+017F (long s) and U+212A (Kelvin sign); other bytes
    are kept (the fold of another rune is again outside ASCII, and the
    names compared with are ASCII). *)
Fixpoint foldName (s : list ascii) : list ascii :=
  match s with
  | [] => []
  | c :: r =>
      let n := N_of_ascii c in
      if (97 <=? n) && (n <=? 122) then ascii_of_N (n - 32) :: foldName r
      else match r with
           | c1 :: r1 =>
               if (n =? 197) && (N_of_ascii c1 =? 191) then "S"%char :: foldName r1
               else match r1 with
                    | c2 :: r2 =>
                        if (n =? 226) && (N_of_ascii c1 =? 132) && (N_of_ascii c2 =? 170)
                        then "K"%char :: foldName r2
                        else c :: foldName r
                    | [] => c :: foldName r
                    end
           | [] => c :: foldName r
           end
  end.

Definition equalFold (a b : string) : bool :=
  bool_decide (foldName (list_ascii_of_string a) = foldName (list_ascii_of_string b)).

(** The field a key selects among the names of a struct: the one that is
    equal to the key, else the first one equal to it up to case. *)
Definition findField (names : list string) (key : string) : option string :=
  match find (String.eqb key) names with
  | Some f => Some f
  | None => find (equalFold key) names
  end.

(** *** Storing values *)

(** [SyntaxError]: the text is no JSON value.  [UnmarshalTypeError]: a
    value does not fit the Go type it is stored into. *)
Inductive error : Type := ErrSyntax | UnmarshalTypeError.

(** A string field: [null] leaves it, a string sets it. *)
Definition storeString (v : value) (old : string) : string + error :=
  match v with
  | JNull => inl old
  | JString s => inl s
  | _ => inr UnmarshalTypeError
  end.

(** A [uint64] field: [null] leaves it, a number sets it when its literal
    is that of an unsigned integer of 64 bits. *)
Definition storeUint64 (v : value) (old : N) : N + error :=
  match v with
  | JNull => inl old
  | JNumber lit =>
      match Strconv.ParseUint lit with
      | Some n => inl n
      | None => inr UnmarshalTypeError
      end
  | _ => inr UnmarshalTypeError
  end.

(** A [[]string] field: [null] sets it to nil; an array sets it to the
    strings of its elements, where a [null] element leaves what the slice
    held at its index, and the empty string past its length.  (The
    decoder writes into the array behind the slice.  When an object has
    three or more members for the same slice field, a [null] element past
    the length of the slice can bring back a string that an earlier,
    longer array left behind it, where this function has the empty
    string; a text with at most two members for the field, and so every
    text [Marshal] writes, is read as here.) *)
Fixpoint storeElements (l : list value) (old : list string) : list string + error :=
  match l with
  | [] => inl []
  | v :: r =>
      match storeString v (hd EmptyString old), storeElements r (tl old) with
      | inl s, inl rest => inl (s :: rest)
      | inr e, _ => inr e
      | _, inr e => inr e
      end
  end.

Definition storeStringSlice (v : value) (old : option (list string))
  : option (list string) + error :=
  match v with
  | JNull => inl None
  | JArray l =>
      match storeElements l (default [] old) with
      | inl s => inl (Some s)
      | inr e => inr e
      end
  | _ => inr UnmarshalTypeError
  end.

(** A [map[string]string] field: [null] sets it to nil; an object adds its
    members, in their order, to the map (a new one if it was nil), where a
    [null] member stores the empty string. *)
Fixpoint storeMembers (m : list (string * value)) (acc : gmap string string)
  : gmap string string + error :=
  match m with
  | [] => inl acc
  | (k, v) :: r =>
      match storeString v EmptyString with
      | inl s => storeMembers r (<[k:=s]> acc)
      | inr e => inr e
      end
  end.

Definition storeStringMap (v : value) (old : option (gmap string string))
  : option (gmap string string) + error :=
  match v with
  | JNull => inl None
  | JObject m =>
      match storeMembers m (default ∅ old) with
      | inl acc => inl (Some acc)
      | inr e => inr e
      end
  | _ => inr UnmarshalTypeError
  end.

(** The members of an object stored into a struct [T], in their order: a
    member whose key selects a field is stored by [set]; a member whose
    key selects none is skipped. *)
Fixpoint storeFields {T : Type} (names : list string)
  (set : string -> value -> T -> T + error) (m : list (string * value)) (acc : T)
  : T + error :=
  match m with
  | [] => inl acc
  | (k, v) :: r =>
      match findField names k with
      | Some f =>
          match set f v acc with
          | inl acc' => storeFields names set r acc'
          | inr e => inr e
          end
      | None => storeFields names set r acc
      end
  end.

(** A struct: [null] leaves it, an object stores its members. *)
Definition storeStruct {T : Type} (names : list string)
  (set : string -> value -> T -> T + error) (v : value) (old : T) : T + error :=
  match v with
  | JNull => inl old
  | JObject m => storeFields names set m old
  | _ => inr UnmarshalTypeError
  end.

(** A field that is a pointer to a struct: [null] sets it to nil; an
    object is stored into the struct it points to, a new zero one if the
    pointer was nil. *)
Definition storePointer {T : Type} (zero : T) (names : list string)
  (set : string -> value -> T -> T + error) (v : value) (old : option T)
  : option T + error :=
  match v with
  | JNull => inl None
  | JObject m =>
      match storeFields names set m (default zero old) with
      | inl t => inl (Some t)
      | inr e => inr e
      end
  | _ => inr UnmarshalTypeError
  end.

(** *** Encoding values *)

Definition encodeUint64 (n : N) : value := JNumber (Strconv.FormatUint n).

(** A map is written as an object with its keys in byte order; a nil map
    as [null]. *)
Definition keyLe (a b : string * string) : Prop := String.leb (fst a) (fst b) = true.

#[global] Instance keyLe_dec : RelDecision keyLe.
Proof. intros a b. unfold keyLe. apply _. Defined.

Definition encodeStringMap (m : option (gmap string string)) : value :=
  match m with
  | None => JNull
  | Some m =>
      JObject (map (fun kv => (fst kv, JString (snd kv)))
                   (merge_sort keyLe (map_to_list m)))
  end.

Definition encodeStringSlice (l : list string) : value := JArray (map JString l).

(** *** [Marshal] and [Unmarshal] *)

(** [json.Marshal] of a value with the tree [v].  It fails only for Go
    values without a JSON form (a channel, a function, a cycle, a float
    that is no number); the types of this package hold none. *)
Definition Marshal (v : value) : list ascii + error := inl (print v).

(** [json.Unmarshal(data, into)] for a pointer [into] to a struct: the
    text is checked first, then its value is stored. *)
Definition Unmarshal {T : Type} (names : list string)
  (set : string -> value -> T -> T + error) (data : list ascii) (into : T) : T + error :=
  match parse data with
  | None => inr ErrSyntax
  | Some v => storeStruct names set v into
  end.

End Json.

(** * Package [snapshot] *)

Import Json.

(** [x] stored by a setter of [encoding/json], put back into its struct. *)
Definition stored {A T E : Type} (put : A -> T) (x : A + E) : T + E :=
  match x with
  | inl a => inl (put a)
  | inr e => inr e
  end.

(** ** Constants *)

Definition minBlockSize : N := N.shiftl 1 9.
Definition maxBlockSize : N := N.shiftl 1 19.

Definition KataVirtualVolumeOptionName : string := "io.katacontainers.volume".
Definition KataVirtualVolumeDirectBlockType : string := "direct_block".
Definition KataVirtualVolumeImageRawBlockType : string := "image_raw_block".
Definition KataVirtualVolumeLayerRawBlockType : string := "layer_raw_block".
Definition KataVirtualVolumeImageNydusBlockType : string := "image_nydus_block".
Definition KataVirtualVolumeLayerNydusBlockType : string := "layer_nydus_block".
Definition KataVirtualVolumeImageNydusFsType : string := "image_nydus_fs".
Definition KataVirtualVolumeLayerNydusFsType : string := "layer_nydus_fs".
Definition KataVirtualVolumeImageGuestPullType : string := "image_guest_pull".

(** [uint64] arithmetic wraps modulo [2^64]. *)
Definition uint64_mul (a b : N) : N := (a * b) mod 2 ^ 64.
(** [uint64(^uint32(0))] *)
Definition max_uint32 : N := 4294967295.

(** ** [ExtraOption] *)

Module ExtraOption.

Record t : Type := mk {
  Source : string;
  Config : string;
  Snapshotdir : string;
  Version : string
}.

(** The struct as [encoding/json] writes it, by its field tags. *)
Definition encode (o : t) : value :=
  JObject [("source", JString (Source o)); ("config", JString (Config o));
           ("snapshotdir", JString (Snapshotdir o)); ("fs_version", JString (Version o))].

End ExtraOption.

(** ** [DmVerityInfo] *)

Module DmVerityInfo.

Record t : Type := mk {
  HashType : string;
  Hash : string;
  BlockNum : N;
  Blocksize : N;
  Hashsize : N;
  Offset : N
}.

Definition zero : t := mk "" "" 0 0 0 0.

(** The JSON names of the fields, from the struct tags. *)
Definition names : list string :=
  ["hashtype"; "hash"; "blocknum"; "blocksize"; "hashsize"; "offset"].

Definition encode (d : t) : value :=
  JObject [("hashtype", JString (HashType d)); ("hash", JString (Hash d));
           ("blocknum", encodeUint64 (BlockNum d)); ("blocksize", encodeUint64 (Blocksize d));
           ("hashsize", encodeUint64 (Hashsize d)); ("offset", encodeUint64 (Offset d))].

Definition set (f : string) (v : value) (d : t) : t + Json.error :=
  if String.eqb f "hashtype" then
    stored (fun x => mk x (Hash d) (BlockNum d) (Blocksize d) (Hashsize d) (Offset d))
           (storeString v (HashType d))
  else if String.eqb f "hash" then
    stored (fun x => mk (HashType d) x (BlockNum d) (Blocksize d) (Hashsize d) (Offset d))
           (storeString v (Hash d))
  else if String.eqb f "blocknum" then
    stored (fun x => mk (HashType d) (Hash d) x (Blocksize d) (Hashsize d) (Offset d))
           (storeUint64 v (BlockNum d))
  else if String.eqb f "blocksize" then
    stored (fun x => mk (HashType d) (Hash d) (BlockNum d) x (Hashsize d) (Offset d))
           (storeUint64 v (Blocksize d))
  else if String.eqb f "hashsize" then
    stored (fun x => mk (HashType d) (Hash d) (BlockNum d) (Blocksize d) x (Offset d))
           (storeUint64 v (Hashsize d))
  else if String.eqb f "offset" then
    stored (fun x => mk (HashType d) (Hash d) (BlockNum d) (Blocksize d) (Hashsize d) x)
           (storeUint64 v (Offset d))
  else inl d.

(** The fields of type [uint64] hold values of 64 bits, as every Go value
    of the struct does. *)
Definition inRange (d : t) : bool :=
  (BlockNum d <? 2 ^ 64) && (Blocksize d <? 2 ^ 64) && (Hashsize d <? 2 ^ 64)
  && (Offset d <? 2 ^ 64).

(** The strings of the struct are well-formed UTF-8. *)
Definition validUTF8 (d : t) : bool :=
  Utf8.ValidString (HashType d) && Utf8.ValidString (Hash d).

(** The errors of [IsValid], one constructor per [fmt.Errorf] of the source
    with the values its message is formatted from. *)
Inductive error : Type :=
| UnsupportedHashAlgorithm (hashType hash : string)
| InvalidHashValue (hashType hash : string)
| ZeroBlockCount (hash : string)
| UnsupportedBlockSize (blocksize hashsize : N)
| InvalidHashOffset (offset : N) (hash : string).

Definition isValidHash (d : t) (expectedLen : nat) (hashType : string) : option error :=
  let err := Hex.DecodeString (Hash d) in
  if negb (Nat.eqb (String.length (Hash d)) expectedLen) || negb (bool_decide (is_Some err))
  then Some (InvalidHashValue hashType (Hash d))
  else None.

Definition validateHashType (d : t) : option error :=
  let l := Strings.ToLower (HashType d) in
  if String.eqb l "sha256" then isValidHash d 64 "sha256"
  else if String.eqb l "sha1" then isValidHash d 40 "sha1"
  else Some (UnsupportedHashAlgorithm (HashType d) (Hash d)).

Definition isValidBlockSize (blockSize : N) : bool :=
  (minBlockSize <=? blockSize) && (blockSize <=? maxBlockSize).

(** [IsValid] returns [nil] ([None]) for a valid descriptor.  The remainder
    [Offset % Hashsize] is only evaluated after [Hashsize] passed
    [isValidBlockSize], so the divisor is never zero there. *)
Definition IsValid (d : t) : option error :=
  match validateHashType d with
  | Some err => Some err
  | None =>
      if (BlockNum d =? 0) || (max_uint32 <? BlockNum d)
      then Some (ZeroBlockCount (Hash d))
      else if negb (isValidBlockSize (Blocksize d)) || negb (isValidBlockSize (Hashsize d))
      then Some (UnsupportedBlockSize (Blocksize d) (Hashsize d))
      else if negb (Offset d mod Hashsize d =? 0)
              || (Offset d <? uint64_mul (Blocksize d) (BlockNum d))
      then Some (InvalidHashOffset (Offset d) (Hash d))
      else None
  end.

End DmVerityInfo.

(** [ParseDmVerityInfo]'s errors: the wrapped error of [json.Unmarshal],
    or the descriptor that is not correct with the error of [IsValid]. *)
Inductive DmVerityParseError : Type :=
| DmVerityUnmarshalErr (cause : Json.error)
| DmVerityNotCorrect (no : DmVerityInfo.t) (err : DmVerityInfo.error).

Definition ParseDmVerityInfo (option : string) : DmVerityInfo.t + DmVerityParseError :=
  match Json.Unmarshal DmVerityInfo.names DmVerityInfo.set
          (list_ascii_of_string option) DmVerityInfo.zero with
  | inr err => inr (DmVerityUnmarshalErr err)
  | inl no =>
      match DmVerityInfo.IsValid no with
      | Some err => inr (DmVerityNotCorrect no err)
      | None => inl no
      end
  end.

(** ** The payloads *)

(** The keys and values of a map are well-formed UTF-8. *)
Definition validUTF8Map (m : option (gmap string string)) : bool :=
  match m with
  | None => true
  | Some m =>
      forallb (fun kv => Utf8.ValidString (fst kv) && Utf8.ValidString (snd kv))
              (map_to_list m)
  end.

Module DirectAssignedVolume.

Record t : Type := mk { Metadata : option (gmap string string) }.

Definition zero : t := mk None.
Definition names : list string := ["metadata"].
Definition encode (d : t) : value := JObject [("metadata", encodeStringMap (Metadata d))].
Definition set (f : string) (v : value) (d : t) : t + Json.error :=
  if String.eqb f "metadata" then stored mk (storeStringMap v (Metadata d)) else inl d.

Definition IsValid (d : t) : bool := bool_decide (is_Some (Metadata d)).

Definition validUTF8 (d : t) : bool := validUTF8Map (Metadata d).

End DirectAssignedVolume.

Module ImagePullVolume.

Record t : Type := mk { Metadata : option (gmap string string) }.

Definition zero : t := mk None.
Definition names : list string := ["metadata"].
Definition encode (i : t) : value := JObject [("metadata", encodeStringMap (Metadata i))].
Definition set (f : string) (v : value) (i : t) : t + Json.error :=
  if String.eqb f "metadata" then stored mk (storeStringMap v (Metadata i)) else inl i.

Definition IsValid (i : t) : bool := bool_decide (is_Some (Metadata i)).

Definition validUTF8 (i : t) : bool := validUTF8Map (Metadata i).

End ImagePullVolume.

Module NydusImageVolume.

Record t : Type := mk { Config : string; SnapshotDir : string }.

Definition zero : t := mk "" "".
Definition names : list string := ["config"; "snapshot_dir"].
Definition encode (n : t) : value :=
  JObject [("config", JString (Config n)); ("snapshot_dir", JString (SnapshotDir n))].
Definition set (f : string) (v : value) (n : t) : t + Json.error :=
  if String.eqb f "config" then
    stored (fun x => mk x (SnapshotDir n)) (storeString v (Config n))
  else if String.eqb f "snapshot_dir" then
    stored (fun x => mk (Config n) x) (storeString v (SnapshotDir n))
  else inl n.

Definition IsValid (n : t) : bool :=
  (0 <? String.length (Config n))%nat || (0 <? String.length (SnapshotDir n))%nat.

Definition validUTF8 (n : t) : bool :=
  Utf8.ValidString (Config n) && Utf8.ValidString (SnapshotDir n).

End NydusImageVolume.

(** ** [KataVirtualVolume] *)

Module KataVirtualVolume.

(** [Options] is a slice: [None] is the nil slice. *)
Record t : Type := mk {
  VolumeType : string;
  Source : string;
  FSType : string;
  Options : option (list string);
  DirectVolume : option DirectAssignedVolume.t;
  ImagePull : option ImagePullVolume.t;
  NydusImage : option NydusImageVolume.t;
  DmVerity : option DmVerityInfo.t
}.

Definition zero : t := mk "" "" "" None None None None None.

Definition names : list string :=
  ["volume_type"; "source"; "fs_type"; "options"; "direct_volume"; "image_pull";
   "nydus_image"; "dm_verity"].

(** A field tagged [omitempty] is left out when it is the empty string, a
    slice without elements or a nil pointer. *)
Definition omitemptyString (name s : string) : list (string * value) :=
  if String.eqb s "" then [] else [(name, JString s)].

Definition omitemptyPointer {T : Type} (name : string) (enc : T -> value) (p : option T)
  : list (string * value) :=
  match p with
  | Some x => [(name, enc x)]
  | None => []
  end.

Definition encode (k : t) : value :=
  JObject
    ([("volume_type", JString (VolumeType k))]
     ++ omitemptyString "source" (Source k)
     ++ omitemptyString "fs_type" (FSType k)
     ++ match Options k with
        | Some (x :: l) => [("options", encodeStringSlice (x :: l))]
        | _ => []
        end
     ++ omitemptyPointer "direct_volume" DirectAssignedVolume.encode (DirectVolume k)
     ++ omitemptyPointer "image_pull" ImagePullVolume.encode (ImagePull k)
     ++ omitemptyPointer "nydus_image" NydusImageVolume.encode (NydusImage k)
     ++ omitemptyPointer "dm_verity" DmVerityInfo.encode (DmVerity k)).

Definition set (f : string) (v : value) (k : t) : t + Json.error :=
  if String.eqb f "volume_type" then
    stored (fun x => mk x (Source k) (FSType k) (Options k) (DirectVolume k) (ImagePull k)
                        (NydusImage k) (DmVerity k))
           (storeString v (VolumeType k))
  else if String.eqb f "source" then
    stored (fun x => mk (VolumeType k) x (FSType k) (Options k) (DirectVolume k) (ImagePull k)
                        (NydusImage k) (DmVerity k))
           (storeString v (Source k))
  else if String.eqb f "fs_type" then
    stored (fun x => mk (VolumeType k) (Source k) x (Options k) (DirectVolume k) (ImagePull k)
                        (NydusImage k) (DmVerity k))
           (storeString v (FSType k))
  else if String.eqb f "options" then
    stored (fun x => mk (VolumeType k) (Source k) (FSType k) x (DirectVolume k) (ImagePull k)
                        (NydusImage k) (DmVerity k))
           (storeStringSlice v (Options k))
  else if String.eqb f "direct_volume" then
    stored (fun x => mk (VolumeType k) (Source k) (FSType k) (Options k) x (ImagePull k)
                        (NydusImage k) (DmVerity k))
           (storePointer DirectAssignedVolume.zero DirectAssignedVolume.names
                         DirectAssignedVolume.set v (DirectVolume k))
  else if String.eqb f "image_pull" then
    stored (fun x => mk (VolumeType k) (Source k) (FSType k) (Options k) (DirectVolume k) x
                        (NydusImage k) (DmVerity k))
           (storePointer ImagePullVolume.zero ImagePullVolume.names
                         ImagePullVolume.set v (ImagePull k))
  else if String.eqb f "nydus_image" then
    stored (fun x => mk (VolumeType k) (Source k) (FSType k) (Options k) (DirectVolume k)
                        (ImagePull k) x (DmVerity k))
           (storePointer NydusImageVolume.zero NydusImageVolume.names
                         NydusImageVolume.set v (NydusImage k))
  else if String.eqb f "dm_verity" then
    stored (fun x => mk (VolumeType k) (Source k) (FSType k) (Options k) (DirectVolume k)
                        (ImagePull k) (NydusImage k) x)
           (storePointer DmVerityInfo.zero DmVerityInfo.names DmVerityInfo.set v (DmVerity k))
  else inl k.

Definition IsValid (k : t) : bool :=
  let vt := VolumeType k in
  if String.eqb vt KataVirtualVolumeDirectBlockType then
    if negb (String.eqb (Source k) "")
       && match DirectVolume k with
          | Some d => DirectAssignedVolume.IsValid d
          | None => false
          end
    then true else false
  else if String.eqb vt KataVirtualVolumeImageRawBlockType
          || String.eqb vt KataVirtualVolumeLayerRawBlockType then
    if negb (String.eqb (Source k) "")
       && match DmVerity k with
          | None => true
          | Some d => bool_decide (DmVerityInfo.IsValid d = None)
          end
    then true else false
  else if String.eqb vt KataVirtualVolumeImageNydusBlockType
          || String.eqb vt KataVirtualVolumeLayerNydusBlockType
          || String.eqb vt KataVirtualVolumeImageNydusFsType
          || String.eqb vt KataVirtualVolumeLayerNydusFsType then
    if negb (String.eqb (Source k) "")
       && match NydusImage k with
          | Some n => NydusImageVolume.IsValid n
          | None => false
          end
    then true else false
  else if String.eqb vt KataVirtualVolumeImageGuestPullType then
    if negb (String.eqb (Source k) "")
       && match ImagePull k with
          | Some i => ImagePullVolume.IsValid i
          | None => false
          end
    then true else false
  else false.

(** The descriptor as its JSON text shows it: a field tagged [omitempty]
    that is empty is not written, so an [Options] slice without elements
    is read back as the nil slice. *)
Definition transported (k : t) : t :=
  mk (VolumeType k) (Source k) (FSType k)
     (match Options k with
      | Some (x :: l) => Some (x :: l)
      | _ => None
      end)
     (DirectVolume k) (ImagePull k) (NydusImage k) (DmVerity k).

(** The [uint64] fields of the descriptor hold values of 64 bits. *)
Definition inRange (k : t) : bool :=
  match DmVerity k with
  | Some d => DmVerityInfo.inRange d
  | None => true
  end.

(** Every string of the descriptor is well-formed UTF-8. *)
Definition validUTF8 (k : t) : bool :=
  Utf8.ValidString (VolumeType k) && Utf8.ValidString (Source k)
  && Utf8.ValidString (FSType k)
  && forallb Utf8.ValidString (default [] (Options k))
  && from_option DirectAssignedVolume.validUTF8 true (DirectVolume k)
  && from_option ImagePullVolume.validUTF8 true (ImagePull k)
  && from_option NydusImageVolume.validUTF8 true (NydusImage k)
  && from_option DmVerityInfo.validUTF8 true (DmVerity k).

End KataVirtualVolume.

(** ** Errors *)

(** The errors the functions below return: one constructor per place of
    the source that makes or wraps an error, with its cause.  An error of
    a collaborator is its message. *)
Inductive error : Type :=
| ErrBootstrapFile (cause : string)
| ErrGetDaemon (daemonID : string) (cause : string)
| ErrLoadInstanceConfig (path : string) (cause : string)
| ErrMarshalConfig (cause : string)
| ErrOpenBootstrap (cause : string)
| ErrReadBootstrap (cause : string)
| ErrDetectFsVersion (cause : string)
| ErrMarshalNydusOption (cause : Json.error)
| ErrJsonUnmarshal (cause : Json.error)
| ErrNotCorrect (no : KataVirtualVolume.t)
| ErrBase64Decoding (cause : Base64.error)
| ErrMarshalVolume (cause : Json.error).

(** ** The codec *)

Definition ParseKataVirtualVolume (option : list ascii) : KataVirtualVolume.t + error :=
  match Json.Unmarshal KataVirtualVolume.names KataVirtualVolume.set option
          KataVirtualVolume.zero with
  | inr err => inr (ErrJsonUnmarshal err)
  | inl no =>
      if negb (KataVirtualVolume.IsValid no) then inr (ErrNotCorrect no)
      else inl no
  end.

Definition ParseKataVirtualVolumeFromBase64 (option : string) : KataVirtualVolume.t + error :=
  match Base64.DecodeString option with
  | inr err => inr (ErrBase64Decoding err)
  | inl opt => ParseKataVirtualVolume opt
  end.

Definition EncodeKataVirtualVolumeToBase64 (volume : KataVirtualVolume.t) : string + error :=
  match Json.Marshal (KataVirtualVolume.encode volume) with
  | inr err => inr (ErrMarshalVolume err)
  | inl validKataVirtualVolumeJSON =>
      let option := Base64.EncodeToString validKataVirtualVolumeJSON in
      inl option
  end.

(** ** The mount option assembler *)

(** [mount.Mount]; [Type_] is its field [Type]. *)
Module Mount.
Record t : Type := mk {
  Type_ : string;
  Source : string;
  Options : list string
}.
End Mount.

(** What [remoteMountWithExtraOptions] uses of the rest of the program.
    A call that returns [(value, error)] is a sum with the message of the
    error on the right. *)

(** [daemonconfig.DaemonConfig], by the result of its [DumpString]. *)
Record DaemonConfig : Type := mkDaemonConfig { DumpString : string + string }.

(** A daemon: [IsSharedDaemon()], [States.FsDriver], [ConfigFile(id)] and
    [Config]. *)
Record Daemon : Type := mkDaemon {
  IsSharedDaemon : bool;
  FsDriver : string;
  ConfigFile : string -> string;
  Config : DaemonConfig
}.

(** [rafs.Rafs] *)
Record Rafs : Type := mkRafs { DaemonID : string; SnapshotID : string }.

(** An opened file: a regular file with its bytes, or one whose [Read]
    fails (a directory, a failing device). *)
Inductive File : Type :=
| RegularFile (content : list ascii)
| Unreadable (cause : string).

Definition io_EOF : string := "EOF".

(** [f.Read(b)] at the start of the file, [n] the length of [b]: the bytes
    read and the error.  At the end of the file [Read] returns no byte and
    [io.EOF]. *)
Definition Read (f : File) (n : nat) : list ascii * option string :=
  match f with
  | RegularFile [] => ([], Some io_EOF)
  | RegularFile content => (firstn n content, None)
  | Unreadable cause => ([], Some cause)
  end.

(** The snapshotter [o] and the packages it calls. *)
Record snapshotter : Type := mkSnapshotter {
  (** [o.fs.BootstrapFile] *)
  BootstrapFile : string -> string + string;
  (** [o.fs.GetDaemonByID] *)
  GetDaemonByID : string -> Daemon + string;
  (** [o.snapshotDir] *)
  snapshotDir : string -> string;
  (** [rafs.RafsGlobalCache.Get]: a pointer, nil for an unknown id *)
  RafsGlobalCache_Get : string -> option Rafs;
  (** [daemonconfig.NewDaemonConfig] *)
  NewDaemonConfig : string -> string -> DaemonConfig + string;
  (** [os.Open] *)
  os_Open : string -> File + string;
  (** [layout.DetectFsVersion] *)
  DetectFsVersion : list ascii -> string + string
}.

(** What a call of the assembler ends in: the mounts it returns, the
    error it returns, or a panic of the Go runtime. *)
Inductive result (A : Type) : Type :=
| Returns (a : A)
| Fails (err : error)
| Panics.
Arguments Returns {A} a.
Arguments Fails {A} err.
Arguments Panics {A}.

(** [remoteMountWithExtraOptions]; [sid] is [s.ID].  The deferred
    [f.Close()] and the debug log of [overlayOptions] have no part in the
    result and are left out. *)
Definition remoteMountWithExtraOptions (o : snapshotter) (sid : string) (id : string)
  (overlayOptions : list string) : result (list Mount.t) :=
  match BootstrapFile o id with
  | inr err => Fails (ErrBootstrapFile err)
  | inl source =>
  match RafsGlobalCache_Get o id with
  | None => Panics
  | Some instance =>
  match GetDaemonByID o (DaemonID instance) with
  | inr err => Fails (ErrGetDaemon (DaemonID instance) err)
  | inl daemon =>
  match (if IsSharedDaemon daemon
         then match NewDaemonConfig o (FsDriver daemon)
                      (ConfigFile daemon (SnapshotID instance)) with
              | inr err =>
                  inr (ErrLoadInstanceConfig (ConfigFile daemon (SnapshotID instance)) err)
              | inl c => inl c
              end
         else inl (Config daemon)) with
  | inr err => Fails err
  | inl c =>
  match DumpString c with
  | inr err => Fails (ErrMarshalConfig err)
  | inl configContent =>
  match os_Open o source with
  | inr err => Fails (ErrOpenBootstrap err)
  | inl f =>
  let '(header, err) := Read f 4096 in
  match err with
  | Some err => Fails (ErrReadBootstrap err)
  | None =>
  match DetectFsVersion o header with
  | inr err => Fails (ErrDetectFsVersion err)
  | inl version =>
  let extraOption :=
    ExtraOption.mk source configContent (snapshotDir o sid) version in
  match Json.Marshal (ExtraOption.encode extraOption) with
  | inr err => Fails (ErrMarshalNydusOption err)
  | inl no =>
  let opt := String.append "extraoption=" (Base64.EncodeToString no) in
  let overlayOptions := overlayOptions ++ [opt] in
  Returns [Mount.mk "fuse.nydus-overlayfs" "overlay" overlayOptions]
  end end end end end end end end end.

(** * The notions of the specification *)

Module Spec.

(** ** The verity rules *)

(** The two hash algorithms, and a name read without regard to case. *)
Inductive Algorithm : Type := SHA256 | SHA1.

Definition isUpper (c : ascii) : bool := (65 <=? N_of_ascii c) && (N_of_ascii c <=? 90).

(** Two bytes are the same character up to case. *)
Definition sameLetter (x y : ascii) : bool :=
  Ascii.eqb x y
  || (isUpper x && (N_of_ascii y =? N_of_ascii x + 32))
  || (isUpper y && (N_of_ascii x =? N_of_ascii y + 32)).

Fixpoint equalNoCase (a b : string) : bool :=
  match a, b with
  | EmptyString, EmptyString => true
  | String x a', String y b' => sameLetter x y && equalNoCase a' b'
  | _, _ => false
  end.

Definition algorithmOf (name : string) : option Algorithm :=
  if equalNoCase name "sha256" then Some SHA256
  else if equalNoCase name "sha1" then Some SHA1
  else None.

(** The number of hexadecimal characters of a hash value. *)
Definition hashLength (a : Algorithm) : nat :=
  match a with
  | SHA256 => 64%nat
  | SHA1 => 40%nat
  end.

Definition isHexDigit (c : ascii) : bool :=
  let n := N_of_ascii c in
  ((48 <=? n) && (n <=? 57)) || ((97 <=? n) && (n <=? 102)) || ((65 <=? n) && (n <=? 70)).

Fixpoint allHex (s : string) : bool :=
  match s with
  | EmptyString => true
  | String c r => isHexDigit c && allHex r
  end.

(** The five rules of section 4.2, in their order. *)
Inductive Rule : Type :=
| UnsupportedAlgorithm
| InvalidHashEncoding
| InvalidBlockCount
| InvalidBlockSize
| InvalidOffset.

Definition rule1 (d : DmVerityInfo.t) : bool :=
  bool_decide (is_Some (algorithmOf (DmVerityInfo.HashType d))).

Definition rule2 (d : DmVerityInfo.t) : bool :=
  match algorithmOf (DmVerityInfo.HashType d) with
  | Some a =>
      allHex (DmVerityInfo.Hash d)
      && Nat.eqb (String.length (DmVerityInfo.Hash d)) (hashLength a)
  | None => false
  end.

Definition rule3 (d : DmVerityInfo.t) : bool :=
  negb (DmVerityInfo.BlockNum d =? 0) && (DmVerityInfo.BlockNum d <=? 2 ^ 32 - 1).

Definition inBlockSizeRange (n : N) : bool := (512 <=? n) && (n <=? 524288).

Definition rule4 (d : DmVerityInfo.t) : bool :=
  inBlockSizeRange (DmVerityInfo.Blocksize d) && inBlockSizeRange (DmVerityInfo.Hashsize d).

(** The offset is a multiple of the hash block size and lies at or after
    the end of the data, with the product taken in the integers. *)
Definition rule5 (d : DmVerityInfo.t) : bool :=
  (DmVerityInfo.Offset d mod DmVerityInfo.Hashsize d =? 0)
  && (DmVerityInfo.Blocksize d * DmVerityInfo.BlockNum d <=? DmVerityInfo.Offset d).

(** The first rule a descriptor violates, if any. *)
Definition firstViolated (d : DmVerityInfo.t) : option Rule :=
  if negb (rule1 d) then Some UnsupportedAlgorithm
  else if negb (rule2 d) then Some InvalidHashEncoding
  else if negb (rule3 d) then Some InvalidBlockCount
  else if negb (rule4 d) then Some InvalidBlockSize
  else if negb (rule5 d) then Some InvalidOffset
  else None.

Definition verityRules (d : DmVerityInfo.t) : Prop :=
  rule1 d = true /\ rule2 d = true /\ rule3 d = true /\ rule4 d = true /\ rule5 d = true.

(** The rule an error of [DmVerityInfo.IsValid] reports. *)
Definition ruleOf (e : DmVerityInfo.error) : Rule :=
  match e with
  | DmVerityInfo.UnsupportedHashAlgorithm _ _ => UnsupportedAlgorithm
  | DmVerityInfo.InvalidHashValue _ _ => InvalidHashEncoding
  | DmVerityInfo.ZeroBlockCount _ => InvalidBlockCount
  | DmVerityInfo.UnsupportedBlockSize _ _ => InvalidBlockSize
  | DmVerityInfo.InvalidHashOffset _ _ => InvalidOffset
  end.

(** [IsValid] accepts the descriptor. *)
Definition accepts (d : DmVerityInfo.t) : bool :=
  match DmVerityInfo.IsValid d with
  | None => true
  | Some _ => false
  end.

(** The descriptor of section 8 and its three variants. *)
Definition hash64 : string :=
  "0123456789abcdef0123456789abcdef0123456789abcdef0123456789abcdef".
Definition vector : DmVerityInfo.t := DmVerityInfo.mk "sha256" hash64 100 4096 4096 409600.
Definition vectorOffset : DmVerityInfo.t :=
  DmVerityInfo.mk "sha256" hash64 100 4096 4096 409601.
Definition vectorMd5 : DmVerityInfo.t := DmVerityInfo.mk "md5" hash64 100 4096 4096 409600.
Definition vectorBlocksize : DmVerityInfo.t :=
  DmVerityInfo.mk "sha256" hash64 100 256 4096 409600.


(** ** The validation table *)

(** The rows of the table of section 4.3. *)
Inductive Row : Type := DirectBlock | RawBlock | NydusVolume | GuestPull | OtherValue.

Definition rowOf (volumeType : string) : Row :=
  if String.eqb volumeType "direct_block" then DirectBlock
  else if String.eqb volumeType "image_raw_block" then RawBlock
  else if String.eqb volumeType "layer_raw_block" then RawBlock
  else if String.eqb volumeType "image_nydus_block" then NydusVolume
  else if String.eqb volumeType "layer_nydus_block" then NydusVolume
  else if String.eqb volumeType "image_nydus_fs" then NydusVolume
  else if String.eqb volumeType "layer_nydus_fs" then NydusVolume
  else if String.eqb volumeType "image_guest_pull" then GuestPull
  else OtherValue.

Definition validationTable (v : KataVirtualVolume.t) : Prop :=
  match rowOf (KataVirtualVolume.VolumeType v) with
  | DirectBlock =>
      KataVirtualVolume.Source v <> ""
      /\ exists d, KataVirtualVolume.DirectVolume v = Some d
                   /\ DirectAssignedVolume.Metadata d <> None
  | RawBlock =>
      KataVirtualVolume.Source v <> ""
      /\ (KataVirtualVolume.DmVerity v = None
          \/ exists d, KataVirtualVolume.DmVerity v = Some d /\ verityRules d)
  | NydusVolume =>
      KataVirtualVolume.Source v <> ""
      /\ exists n, KataVirtualVolume.NydusImage v = Some n
                   /\ (NydusImageVolume.Config n <> "" \/ NydusImageVolume.SnapshotDir n <> "")
  | GuestPull =>
      KataVirtualVolume.Source v <> ""
      /\ exists i, KataVirtualVolume.ImagePull v = Some i
                   /\ ImagePullVolume.Metadata i <> None
  | OtherValue => False
  end.

(** ** The union discipline *)

(** The number of payload fields that are set. *)
Definition payloads (v : KataVirtualVolume.t) : nat :=
  (match KataVirtualVolume.DirectVolume v with Some _ => 1 | None => 0 end
   + match KataVirtualVolume.ImagePull v with Some _ => 1 | None => 0 end
   + match KataVirtualVolume.NydusImage v with Some _ => 1 | None => 0 end)%nat.

(** The payload the volume type determines is set and passes its own
    check; a raw block volume takes none of the three payloads, and the
    verity descriptor attached to it, if any, passes the verity rules. *)
Definition activePayload (v : KataVirtualVolume.t) : Prop :=
  match rowOf (KataVirtualVolume.VolumeType v) with
  | DirectBlock =>
      exists d, KataVirtualVolume.DirectVolume v = Some d
                /\ DirectAssignedVolume.IsValid d = true
  | RawBlock =>
      KataVirtualVolume.DmVerity v = None
      \/ exists d, KataVirtualVolume.DmVerity v = Some d /\ verityRules d
  | NydusVolume =>
      exists n, KataVirtualVolume.NydusImage v = Some n
                /\ NydusImageVolume.IsValid n = true
  | GuestPull =>
      exists i, KataVirtualVolume.ImagePull v = Some i
                /\ ImagePullVolume.IsValid i = true
  | OtherValue => False
  end.

(** A direct-block descriptor that carries all three payloads. *)
Definition threePayloads : KataVirtualVolume.t :=
  KataVirtualVolume.mk "direct_block" "/dev/vda" "" None
    (Some (DirectAssignedVolume.mk (Some ∅)))
    (Some (ImagePullVolume.mk (Some ∅)))
    (Some (NydusImageVolume.mk "config" ""))
    None.

(** A raw-block descriptor with the verity descriptor of section 8
    attached, and one with its md5 variant. *)
Definition verityVolume : KataVirtualVolume.t :=
  KataVirtualVolume.mk "image_raw_block" "/dev/vda" "" None None None None (Some vector).

Definition md5Volume : KataVirtualVolume.t :=
  KataVirtualVolume.mk "image_raw_block" "/dev/vda" "" None None None None (Some vectorMd5).

(** A guest-pull descriptor with an empty metadata map, as in section 8. *)
Definition guestPull : KataVirtualVolume.t :=
  KataVirtualVolume.mk "image_guest_pull" "img" "" None None
    (Some (ImagePullVolume.mk (Some ∅))) None None.

(** [v] and [w] differ at most in payloads their volume type does not
    determine and in the fields [IsValid] never reads. *)
Definition sameActive (v w : KataVirtualVolume.t) : Prop :=
  KataVirtualVolume.VolumeType v = KataVirtualVolume.VolumeType w
  /\ KataVirtualVolume.Source v = KataVirtualVolume.Source w
  /\ match rowOf (KataVirtualVolume.VolumeType v) with
     | DirectBlock => KataVirtualVolume.DirectVolume v = KataVirtualVolume.DirectVolume w
     | RawBlock => KataVirtualVolume.DmVerity v = KataVirtualVolume.DmVerity w
     | NydusVolume => KataVirtualVolume.NydusImage v = KataVirtualVolume.NydusImage w
     | GuestPull => KataVirtualVolume.ImagePull v = KataVirtualVolume.ImagePull w
     | OtherValue => True
     end.

(** ** Validation equivalence *)

(** Two descriptors agree on every set field: the strings, the options as
    a sequence, the payloads and the verity descriptor. *)
Definition equivalent (v w : KataVirtualVolume.t) : Prop :=
  KataVirtualVolume.VolumeType v = KataVirtualVolume.VolumeType w
  /\ KataVirtualVolume.Source v = KataVirtualVolume.Source w
  /\ KataVirtualVolume.FSType v = KataVirtualVolume.FSType w
  /\ default [] (KataVirtualVolume.Options v) = default [] (KataVirtualVolume.Options w)
  /\ KataVirtualVolume.DirectVolume v = KataVirtualVolume.DirectVolume w
  /\ KataVirtualVolume.ImagePull v = KataVirtualVolume.ImagePull w
  /\ KataVirtualVolume.NydusImage v = KataVirtualVolume.NydusImage w
  /\ KataVirtualVolume.DmVerity v = KataVirtualVolume.DmVerity w.

(** A raw-block descriptor whose source is the single byte [0xff], which
    is no well-formed UTF-8. *)
Definition byteSource : KataVirtualVolume.t :=
  KataVirtualVolume.mk "image_raw_block" (String "255"%char EmptyString) "" None
    None None None None.

(** A direct-block descriptor with every kind of field set. *)
Definition fullVolume : KataVirtualVolume.t :=
  KataVirtualVolume.mk "direct_block" "/dev/vda" "ext4" (Some ["ro"; "noatime"])
    (Some (DirectAssignedVolume.mk (Some (<["fstype" := "ext4"]> (<["device" := "vda"]> ∅)))))
    None None (Some vector).

(** What the claim of the round trip says of a descriptor [v]. *)
Definition roundTrips (v : KataVirtualVolume.t) : Prop :=
  exists s w, EncodeKataVirtualVolumeToBase64 v = inl s
              /\ ParseKataVirtualVolumeFromBase64 s = inl w
              /\ equivalent v w.

(** Transport strings for each stage of decoding: one that is no
    base64, the base64 of a text that is no JSON, of a JSON array, and of
    the empty object. *)
Definition notBase64 : string := "%%%%".
Definition notJSON : string := Base64.EncodeToString (list_ascii_of_string "{").
Definition notObject : string := Base64.EncodeToString (list_ascii_of_string "[]").
Definition emptyObject : string := Base64.EncodeToString (list_ascii_of_string "{}").
Definition fullVolumeText : string :=
  Base64.EncodeToString (Json.print (KataVirtualVolume.encode fullVolume)).

(** ** Unknown members *)

(** The members of an object whose key selects a field of the struct. *)
Definition knownMembers (names : list string) (m : list (string * Json.value))
  : list (string * Json.value) :=
  List.filter (fun kv => match Json.findField names (fst kv) with
                         | Some _ => true
                         | None => false
                         end) m.

(** The end of [ParseKataVirtualVolume] on what [Unmarshal] returned. *)
Definition validated (r : KataVirtualVolume.t + Json.error) : KataVirtualVolume.t + error :=
  match r with
  | inr err => inr (ErrJsonUnmarshal err)
  | inl no => if negb (KataVirtualVolume.IsValid no) then inr (ErrNotCorrect no) else inl no
  end.

(** A JSON object with two members outside the schema between those of a
    raw-block descriptor, and its transport string. *)
Definition withUnknown : list (string * Json.value) :=
  [("volume_type", Json.JString "image_raw_block");
   ("colour", Json.JArray [Json.JNumber "1"; Json.JNull; Json.JObject [("a", Json.JBool true)]]);
   ("source", Json.JString "/dev/vda");
   ("zone", Json.JString "b")].

Definition withUnknownText : string :=
  Base64.EncodeToString (Json.print (Json.JObject withUnknown)).

(** ** The mount option assembler *)

(** The configuration the assembler takes for a daemon and an instance. *)
Definition daemonConfig (o : snapshotter) (daemon : Daemon) (instance : Rafs)
  : DaemonConfig + error :=
  if IsSharedDaemon daemon
  then match NewDaemonConfig o (FsDriver daemon) (ConfigFile daemon (SnapshotID instance)) with
       | inr err => inr (ErrLoadInstanceConfig (ConfigFile daemon (SnapshotID instance)) err)
       | inl c => inl c
       end
  else inl (Config daemon).

(** The steps before the bootstrap file is read all succeed: the path is
    resolved to [source], the daemon is found, its configuration is
    serialized, and the file opens as [f]. *)
Definition reachesRead (o : snapshotter) (id : string) (source configContent : string)
  (f : File) : Prop :=
  exists instance daemon c,
    BootstrapFile o id = inl source
    /\ RafsGlobalCache_Get o id = Some instance
    /\ GetDaemonByID o (DaemonID instance) = inl daemon
    /\ daemonConfig o daemon instance = inl c
    /\ DumpString c = inl configContent
    /\ os_Open o source = inl f.

(** The values a successful call has resolved, as an [ExtraOption]. *)
Definition resolves (o : snapshotter) (sid id : string) (eo : ExtraOption.t) : Prop :=
  exists f header,
    reachesRead o id (ExtraOption.Source eo) (ExtraOption.Config eo) f
    /\ Read f 4096 = (header, None)
    /\ DetectFsVersion o header = inl (ExtraOption.Version eo)
    /\ ExtraOption.Snapshotdir eo = snapshotDir o sid.

(** The option [opt] is [extraoption=] followed by base64 text whose
    bytes are a JSON object with exactly the four string members of
    [eo]. *)
Definition carries (opt : string) (eo : ExtraOption.t) : Prop :=
  exists b64 bytes,
    opt = String.append "extraoption=" b64
    /\ Base64.DecodeString b64 = inl bytes
    /\ Json.parse bytes
       = Some (Json.JObject
                 [("source", Json.JString (ExtraOption.Source eo));
                  ("config", Json.JString (ExtraOption.Config eo));
                  ("snapshotdir", Json.JString (ExtraOption.Snapshotdir eo));
                  ("fs_version", Json.JString (ExtraOption.Version eo))]).

(** [eo] with every byte that is not part of a well-formed rune replaced
    by U+FFFD. *)
Definition coerced (eo : ExtraOption.t) : ExtraOption.t :=
  ExtraOption.mk (Json.coerce (ExtraOption.Source eo)) (Json.coerce (ExtraOption.Config eo))
    (Json.coerce (ExtraOption.Snapshotdir eo)) (Json.coerce (ExtraOption.Version eo)).

Definition validUTF8 (eo : ExtraOption.t) : bool :=
  Utf8.ValidString (ExtraOption.Source eo) && Utf8.ValidString (ExtraOption.Config eo)
  && Utf8.ValidString (ExtraOption.Snapshotdir eo) && Utf8.ValidString (ExtraOption.Version eo).

(** What the claim of the assembler says of a call. *)
Definition mountCarriesResolved (o : snapshotter) (sid id : string)
  (overlayOptions : list string) : Prop :=
  forall mounts,
    remoteMountWithExtraOptions o sid id overlayOptions = Returns mounts ->
    exists eo opt,
      resolves o sid id eo
      /\ mounts = [Mount.mk "fuse.nydus-overlayfs" "overlay" (overlayOptions ++ [opt])]
      /\ carries opt eo.

(** A snapshotter with one snapshot, one dedicated daemon and a bootstrap
    file of the given bytes under the given path. *)
Definition oneSnapshot (path : string) (content : list ascii) : snapshotter :=
  mkSnapshotter
    (fun _ => inl path)
    (fun _ => inl (mkDaemon false "fusedev" (fun _ => "/etc/nydus/config.json")
                            (mkDaemonConfig (inl "{}"))))
    (fun sid => String.append "/var/lib/snapshots/" sid)
    (fun _ => Some (mkRafs "daemon-1" "snapshot-1"))
    (fun _ _ => inr "no instance configuration")
    (fun p => if String.eqb p path then inl (RegularFile content) else inr "no such file")
    (fun header => match header with
                   | [] => inr "unrecognized format"
                   | _ :: _ => inl "v6"
                   end).

(** A bootstrap path with a byte that is no well-formed UTF-8, and two
    bytes of bootstrap. *)
Definition bytePath : string := String "255"%char "/image.boot".
Definition someBootstrap : list ascii := ["R"%char; "A"%char].

(** The overlay options the example calls pass. *)
Definition exampleOptions : list string := ["lowerdir=/lower"].

(** [o] with another version detector. *)
Definition withDetector (o : snapshotter) (detect : list ascii -> string + string)
  : snapshotter :=
  mkSnapshotter (BootstrapFile o) (GetDaemonByID o) (snapshotDir o) (RafsGlobalCache_Get o)
    (NewDaemonConfig o) (os_Open o) detect.

(** ** Error kinds *)

(** The error kinds of section 7 and the kind of each error of the
    package, by the stage that makes it. *)
Inductive ErrorKind : Type :=
| IOError | ResolutionError | FormatError | ValidationError | EncodingError.

Definition kindOf (e : error) : ErrorKind :=
  match e with
  | ErrBootstrapFile _ => ResolutionError
  | ErrGetDaemon _ _ => ResolutionError
  | ErrLoadInstanceConfig _ _ => ResolutionError
  | ErrMarshalConfig _ => EncodingError
  | ErrOpenBootstrap _ => IOError
  | ErrReadBootstrap _ => IOError
  | ErrDetectFsVersion _ => FormatError
  | ErrMarshalNydusOption _ => EncodingError
  | ErrJsonUnmarshal _ => EncodingError
  | ErrNotCorrect _ => ValidationError
  | ErrBase64Decoding _ => EncodingError
  | ErrMarshalVolume _ => EncodingError
  end.

End Spec.

(** * The code with the panics of the Go runtime

    The functions of the validity checks once more, with what the Go
    runtime does where the embedding above is silent: the remainder of a
    division by zero and a field read through a nil pointer panic. *)

Module Checked.

Definition bind {A B : Type} (r : result A) (f : A -> result B) : result B :=
  match r with
  | Returns a => f a
  | Fails err => Fails err
  | Panics => Panics
  end.

(** [a % b] on [uint64]: integer divide by zero is a run-time panic. *)
Definition rem (a b : N) : result N :=
  if b =? 0 then Panics else Returns (a mod b).

(** [p.f] for a pointer [p]: a nil pointer dereference is a run-time
    panic. *)
Definition deref {T : Type} (p : option T) : result T :=
  match p with
  | Some x => Returns x
  | None => Panics
  end.

(** [a && b] and [a || b] evaluate [b] only when [a] does not decide. *)
Definition and_then (a : result bool) (b : result bool) : result bool :=
  bind a (fun x => if x then b else Returns false).

Definition or_else (a : result bool) (b : result bool) : result bool :=
  bind a (fun x => if x then Returns true else b).

(** [(d *DmVerityInfo) isValidHash] *)
Definition isValidHash (d : option DmVerityInfo.t) (expectedLen : nat) (hashType : string)
  : result (option DmVerityInfo.error) :=
  bind (deref d) (fun d' =>
  let err := Hex.DecodeString (DmVerityInfo.Hash d') in
  if negb (Nat.eqb (String.length (DmVerityInfo.Hash d')) expectedLen)
     || negb (bool_decide (is_Some err))
  then Returns (Some (DmVerityInfo.InvalidHashValue hashType (DmVerityInfo.Hash d')))
  else Returns None).

(** [(d *DmVerityInfo) validateHashType] *)
Definition validateHashType (d : option DmVerityInfo.t) : result (option DmVerityInfo.error) :=
  bind (deref d) (fun d' =>
  let l := Strings.ToLower (DmVerityInfo.HashType d') in
  if String.eqb l "sha256" then isValidHash d 64 "sha256"
  else if String.eqb l "sha1" then isValidHash d 40 "sha1"
  else Returns (Some (DmVerityInfo.UnsupportedHashAlgorithm (DmVerityInfo.HashType d')
                        (DmVerityInfo.Hash d')))).

(** [(d *DmVerityInfo) IsValid] *)
Definition DmVerityInfo_IsValid (d : option DmVerityInfo.t)
  : result (option DmVerityInfo.error) :=
  bind (validateHashType d) (fun err =>
  match err with
  | Some e => Returns (Some e)
  | None =>
  bind (deref d) (fun d' =>
  if (DmVerityInfo.BlockNum d' =? 0) || (max_uint32 <? DmVerityInfo.BlockNum d')
  then Returns (Some (DmVerityInfo.ZeroBlockCount (DmVerityInfo.Hash d')))
  else if negb (DmVerityInfo.isValidBlockSize (DmVerityInfo.Blocksize d'))
          || negb (DmVerityInfo.isValidBlockSize (DmVerityInfo.Hashsize d'))
  then Returns (Some (DmVerityInfo.UnsupportedBlockSize (DmVerityInfo.Blocksize d')
                        (DmVerityInfo.Hashsize d')))
  else
  bind (or_else
          (bind (rem (DmVerityInfo.Offset d') (DmVerityInfo.Hashsize d'))
                (fun r => Returns (negb (r =? 0))))
          (Returns (DmVerityInfo.Offset d'
                    <? uint64_mul (DmVerityInfo.Blocksize d') (DmVerityInfo.BlockNum d'))))
       (fun bad =>
  if bad
  then Returns (Some (DmVerityInfo.InvalidHashOffset (DmVerityInfo.Offset d')
                        (DmVerityInfo.Hash d')))
  else Returns None))
  end).

(** [(d *DirectAssignedVolume) IsValid] *)
Definition DirectAssignedVolume_IsValid (d : option DirectAssignedVolume.t) : result bool :=
  bind (deref d) (fun d' => Returns (bool_decide (is_Some (DirectAssignedVolume.Metadata d')))).

(** [(i *ImagePullVolume) IsValid] *)
Definition ImagePullVolume_IsValid (i : option ImagePullVolume.t) : result bool :=
  bind (deref i) (fun i' => Returns (bool_decide (is_Some (ImagePullVolume.Metadata i')))).

(** [(n *NydusImageVolume) IsValid] *)
Definition NydusImageVolume_IsValid (n : option NydusImageVolume.t) : result bool :=
  or_else
    (bind (deref n) (fun n' => Returns (0 <? String.length (NydusImageVolume.Config n'))%nat))
    (bind (deref n)
          (fun n' => Returns (0 <? String.length (NydusImageVolume.SnapshotDir n'))%nat)).

(** An [if] without [else] in an arm of the switch: [true] is returned in
    it, and the [return false] after the switch otherwise. *)
Definition arm (cond : result bool) : result bool :=
  bind cond (fun c => if c then Returns true else Returns false).

(** [(k *KataVirtualVolume) IsValid], for a [k] that is not nil. *)
Definition KataVirtualVolume_IsValid (k : KataVirtualVolume.t) : result bool :=
  let vt := KataVirtualVolume.VolumeType k in
  let sourceSet := Returns (negb (String.eqb (KataVirtualVolume.Source k) "")) in
  if String.eqb vt KataVirtualVolumeDirectBlockType then
    arm (and_then
           (and_then sourceSet
                     (Returns (bool_decide (is_Some (KataVirtualVolume.DirectVolume k)))))
           (DirectAssignedVolume_IsValid (KataVirtualVolume.DirectVolume k)))
  else if String.eqb vt KataVirtualVolumeImageRawBlockType
          || String.eqb vt KataVirtualVolumeLayerRawBlockType then
    arm (and_then sourceSet
           (or_else (Returns (negb (bool_decide (is_Some (KataVirtualVolume.DmVerity k)))))
                    (bind (DmVerityInfo_IsValid (KataVirtualVolume.DmVerity k))
                          (fun err => Returns (bool_decide (err = None))))))
  else if String.eqb vt KataVirtualVolumeImageNydusBlockType
          || String.eqb vt KataVirtualVolumeLayerNydusBlockType
          || String.eqb vt KataVirtualVolumeImageNydusFsType
          || String.eqb vt KataVirtualVolumeLayerNydusFsType then
    arm (and_then
           (and_then sourceSet
                     (Returns (bool_decide (is_Some (KataVirtualVolume.NydusImage k)))))
           (NydusImageVolume_IsValid (KataVirtualVolume.NydusImage k)))
  else if String.eqb vt KataVirtualVolumeImageGuestPullType then
    arm (and_then
           (and_then sourceSet
                     (Returns (bool_decide (is_Some (KataVirtualVolume.ImagePull k)))))
           (ImagePullVolume_IsValid (KataVirtualVolume.ImagePull k)))
  else Returns false.

(** [ParseKataVirtualVolume], with the check run as above. *)
Definition ParseKataVirtualVolume (option : list ascii) : result KataVirtualVolume.t :=
  match Json.Unmarshal KataVirtualVolume.names KataVirtualVolume.set option
          KataVirtualVolume.zero with
  | inr err => Fails (ErrJsonUnmarshal err)
  | inl no =>
      bind (KataVirtualVolume_IsValid no) (fun ok =>
      if negb ok then Fails (ErrNotCorrect no) else Returns no)
  end.

End Checked.

(** * Notions for the behaviour of the code *)

Module Behaviour.

(** ** Transport text *)

(** The characters of the standard base64 alphabet, and those with the
    padding character. *)
Definition isStdChar (c : ascii) : bool :=
  let n := N_of_ascii c in
  ((65 <=? n) && (n <=? 90)) || ((97 <=? n) && (n <=? 122)) || ((48 <=? n) && (n <=? 57))
  || Ascii.eqb c "+"%char || Ascii.eqb c "/"%char.

Definition isTransportChar (c : ascii) : bool := isStdChar c || Ascii.eqb c "="%char.

(** A text of transport characters only, in groups of four. *)
Definition transportText (s : string) : Prop :=
  forallb isTransportChar (list_ascii_of_string s) = true
  /\ (String.length s mod 4 = 0)%nat.

(** The characters of a text the base64 decoder does not skip. *)
Definition significant (s : string) : list ascii :=
  filter (fun c => Base64.isNewline c = false) (list_ascii_of_string s).

(** Every byte of the string is ASCII. *)
Definition allAscii (s : string) : bool :=
  forallb (fun c => N_of_ascii c <? 128) (list_ascii_of_string s).

(** A token whose string, if it is one, is well-formed UTF-8. *)
Definition validToken (t : Json.token) : bool :=
  match t with
  | Json.TString s => Utf8.ValidString s
  | _ => true
  end.

(** ** Members of an object *)

(** The object with the members [m] has a member whose key selects the
    field named [f] of the struct with the field names [names]. *)
Definition hasMember (names : list string) (m : list (string * Json.value)) (f : string)
  : Prop :=
  exists k v, In (k, v) m /\ Json.findField names k = Some f.

(** The fields of [DmVerityInfo] of type [uint64], and the JSON values
    such a field takes: [null], and a number whose literal
    [strconv.ParseUint] reads as a value of 64 bits. *)
Definition uint64Fields : list string := ["blocknum"; "blocksize"; "hashsize"; "offset"].

Definition fitsUint64 (x : Json.value) : bool :=
  match x with
  | Json.JNull => true
  | Json.JNumber lit => bool_decide (is_Some (Strconv.ParseUint lit))
  | _ => false
  end.

(** The eight volume types. *)
Definition volumeTypes : list string :=
  [KataVirtualVolumeDirectBlockType; KataVirtualVolumeImageRawBlockType;
   KataVirtualVolumeLayerRawBlockType; KataVirtualVolumeImageNydusBlockType;
   KataVirtualVolumeLayerNydusBlockType; KataVirtualVolumeImageNydusFsType;
   KataVirtualVolumeLayerNydusFsType; KataVirtualVolumeImageGuestPullType].

(** The member that holds the payload of a volume type. *)
Definition payloadMember (volumeType : string) : option string :=
  match Spec.rowOf volumeType with
  | Spec.DirectBlock => Some "direct_volume"
  | Spec.NydusVolume => Some "nydus_image"
  | Spec.GuestPull => Some "image_pull"
  | Spec.RawBlock | Spec.OtherValue => None
  end.

(** ** A descriptor after its passage through JSON *)

(** A map as it is read back from the object [json.Marshal] writes for
    it: the entries are written in the byte order of their keys, keys and
    values pass through [coerce], and an entry read later replaces one
    read before it under the same key. *)
Definition coerceMap (m : gmap string string) : gmap string string :=
  foldl (fun acc kv => <[Json.coerce (fst kv) := Json.coerce (snd kv)]> acc) ∅
        (merge_sort Json.keyLe (map_to_list m)).

Definition coerceVerity (d : DmVerityInfo.t) : DmVerityInfo.t :=
  DmVerityInfo.mk (Json.coerce (DmVerityInfo.HashType d)) (Json.coerce (DmVerityInfo.Hash d))
    (DmVerityInfo.BlockNum d) (DmVerityInfo.Blocksize d) (DmVerityInfo.Hashsize d)
    (DmVerityInfo.Offset d).

Definition coerceNydus (n : NydusImageVolume.t) : NydusImageVolume.t :=
  NydusImageVolume.mk (Json.coerce (NydusImageVolume.Config n))
    (Json.coerce (NydusImageVolume.SnapshotDir n)).

(** What the reader makes of a member of the text [json.Marshal]
    writes. *)
Definition passed (kv : string * Json.value) : string * Json.value :=
  (Json.coerce (fst kv), Json.coerceValue (snd kv)).

(** The descriptor with every string passed through [coerce]. *)
Definition coerceVolume (k : KataVirtualVolume.t) : KataVirtualVolume.t :=
  KataVirtualVolume.mk
    (Json.coerce (KataVirtualVolume.VolumeType k))
    (Json.coerce (KataVirtualVolume.Source k))
    (Json.coerce (KataVirtualVolume.FSType k))
    (option_map (map Json.coerce) (KataVirtualVolume.Options k))
    (option_map (fun d => DirectAssignedVolume.mk
                            (option_map coerceMap (DirectAssignedVolume.Metadata d)))
                (KataVirtualVolume.DirectVolume k))
    (option_map (fun i => ImagePullVolume.mk
                            (option_map coerceMap (ImagePullVolume.Metadata i)))
                (KataVirtualVolume.ImagePull k))
    (option_map coerceNydus (KataVirtualVolume.NydusImage k))
    (option_map coerceVerity (KataVirtualVolume.DmVerity k)).

(** A raw-block descriptor whose source is no well-formed UTF-8 and whose
    options hold one such string. *)
Definition byteVolume : KataVirtualVolume.t :=
  KataVirtualVolume.mk "image_raw_block" (String "255"%char "/dev/vda") "ext4"
    (Some [String "192"%char "ro"]) None None None (Some Spec.vector).

(** ** The mount option assembler *)

(** [o] with another [os.Open]. *)
Definition withOpen (o : snapshotter) (open : string -> File + string) : snapshotter :=
  mkSnapshotter (BootstrapFile o) (GetDaemonByID o) (snapshotDir o) (RafsGlobalCache_Get o)
    (NewDaemonConfig o) open (DetectFsVersion o).

(** Two opened files that [Read] cannot tell apart in 4096 bytes. *)
Definition sameHeader (f g : File) : Prop :=
  match f, g with
  | RegularFile c, RegularFile c' => firstn 4096 c = firstn 4096 c'
  | Unreadable a, Unreadable b => a = b
  | _, _ => False
  end.

(** Two results of [os.Open] that agree up to the bytes after the first
    4096 of the file. *)
Definition sameOpen (x y : File + string) : Prop :=
  match x, y with
  | inl f, inl g => sameHeader f g
  | inr a, inr b => a = b
  | _, _ => False
  end.

(** A bootstrap file of 5000 bytes and one that differs from it in its
    last 904 bytes. *)
Definition longBootstrap (tail : ascii) : list ascii :=
  repeat "R"%char 4096 ++ repeat tail 904.

End Behaviour.

(** * Notions of the proofs

    What the statements of the lemmas below are written with. *)

Module Notions.
Import Utf8 Json Spec.

(** What [DecodeRune] finds at a byte outside ASCII: no well-formed rune,
    or a rune of two, three or four bytes, which [EncodeRune] writes back
    as the same bytes. *)
Inductive head : ascii -> list ascii -> Prop :=
| head_invalid c0 p1 :
    DecodeRune (c0 :: p1) = (RuneError, 1%nat) -> head c0 p1
| head2 c0 c1 t r :
    EncodeRune r = [c0; c1] ->
    (forall t', DecodeRune (c0 :: c1 :: t') = (r, 2%nat)) -> head c0 (c1 :: t)
| head3 c0 c1 c2 t r :
    EncodeRune r = [c0; c1; c2] ->
    (forall t', DecodeRune (c0 :: c1 :: c2 :: t') = (r, 3%nat)) -> head c0 (c1 :: c2 :: t)
| head4 c0 c1 c2 c3 t r :
    EncodeRune r = [c0; c1; c2; c3] ->
    (forall t', DecodeRune (c0 :: c1 :: c2 :: c3 :: t') = (r, 4%nat)) ->
    head c0 (c1 :: c2 :: c3 :: t).

(** The head of [tail] ends a run of characters of class [p]. *)
Definition ends (p : ascii -> bool) (tail : list ascii) : Prop :=
  match tail with
  | [] => True
  | c :: _ => p c = false
  end.

Definition lexAll (s : list ascii) : outcome (list token) := lex (length s) s.

(** The text after a token: it starts with no character that would make
    a number or a word longer. *)
Definition separated (tail : list ascii) : Prop :=
  ends isNumberChar tail /\ ends isLetter tail.

(** What [parse_value] must do on the tokens of [x], as the induction
    gives it for the parts of a tree. *)
Definition reads (budget : N) (x : value) : Prop :=
  forall (d : N) (rest : list token) (fuel : nat),
    readable budget x = true -> budget + d <= 10000 ->
    (2 * length (tokens x) < fuel)%nat ->
    parse_value fuel d (tokens x ++ rest) = Ok (coerceValue x, rest).

Definition member_tokens (kv : string * value) : list token :=
  TString (coerce (fst kv)) :: TColon :: tokens (snd kv).

Definition entry (kv : string * string) : string * value := (fst kv, JString (snd kv)).

Definition all_ascii : list ascii := map ascii_of_nat (seq 0 256).

Fixpoint noUpper (s : string) : bool :=
  match s with
  | EmptyString => true
  | String c r => negb (isUpper c) && noUpper r
  end.

End Notions.

(** Tactics: boolean tests as propositions, bit operations as arithmetic,
    and division and remainder by their equations. *)

Ltac euclid := zify; Z.to_euclidean_division_equations; lia.

Ltac arith_bits :=
  rewrite ?N.shiftl_mul_pow2, ?N.shiftr_div_pow2;
  change 63 with (N.ones 6); rewrite ?N.land_ones;
  change (2 ^ 6) with 64; change (2 ^ 8) with 256; change (2 ^ 12) with 4096;
  change (2 ^ 16) with 65536; change (2 ^ 18) with 262144.

Ltac bool2prop :=
  repeat match goal with
  | H : (_ && _) = true |- _ => apply andb_true_iff in H; destruct H
  | H : (_ || _) = false |- _ => apply orb_false_iff in H; destruct H
  | H : (_ <=? _) = true |- _ => apply N.leb_le in H
  | H : (_ <=? _) = false |- _ => apply N.leb_gt in H
  | H : (_ <? _) = true |- _ => apply N.ltb_lt in H
  | H : (_ <? _) = false |- _ => apply N.ltb_ge in H
  | H : (_ =? _) = true |- _ => apply N.eqb_eq in H
  | H : (_ =? _) = false |- _ => apply N.eqb_neq in H
  | H : negb _ = true |- _ => apply negb_true_iff in H
  | H : negb _ = false |- _ => apply negb_false_iff in H
  end.

Ltac arith_utf8 :=
  rewrite ?N.shiftl_mul_pow2, ?N.shiftr_div_pow2;
  change 63 with (N.ones 6); change 31 with (N.ones 5); change 15 with (N.ones 4);
  change 7 with (N.ones 3);
  rewrite ?N.land_ones;
  change (2 ^ 3) with 8; change (2 ^ 4) with 16; change (2 ^ 5) with 32;
  change (2 ^ 6) with 64; change (2 ^ 12) with 4096; change (2 ^ 18) with 262144.

(** A setter of a struct other than that of [skip] leaves what [P] reads of
    the struct. *)
Ltac setter_keeps set :=
  let f := fresh "f" in
  let Hs := fresh "Hs" in
  intros f ? ? ? ? Hs ?; unfold set, stored in Hs;
  repeat match type of Hs with
         | context [String.eqb f ?s] => destruct (String.eqb_spec f s)
         end;
  try congruence;
  repeat match type of Hs with
         | context [match ?x with _ => _ end] => destruct x
         end;
  try discriminate; injection Hs as <-; assumption.

(** * Facts: bit operations as arithmetic *)

Lemma N_land_disjoint (a b k : N) : a mod 2 ^ k = 0 -> b < 2 ^ k -> N.land a b = 0.
Proof.
  intros Ha Hb. apply N.bits_inj. intros n. rewrite N.land_spec, N.bits_0.
  destruct (N.lt_ge_cases n k) as [Hn | Hn].
  - rewrite <- (N.mod_pow2_bits_low a k n Hn), Ha, N.bits_0. reflexivity.
  - destruct (N.eq_dec b 0) as [-> | Hb0]; [now rewrite N.bits_0, andb_false_r |].
    rewrite (N.bits_above_log2 b n), andb_false_r; [reflexivity |].
    apply N.lt_le_trans with k; [| exact Hn].
    apply N.log2_lt_pow2; lia.
Qed.

Lemma N_lor_add (a b k : N) : a mod 2 ^ k = 0 -> b < 2 ^ k -> N.lor a b = a + b.
Proof.
  intros Ha Hb. pose proof (N_land_disjoint a b k Ha Hb) as H.
  rewrite (N.add_nocarry_lxor a b H). symmetry. apply N.lxor_lor. exact H.
Qed.

Lemma N_land_mod (a : N) (k : N) : N.land a (N.ones k) = a mod 2 ^ k.
Proof. apply N.land_ones. Qed.

Lemma byte_of_N_of_ascii (c : ascii) : byte_of_N (N_of_ascii c) = c.
Proof.
  unfold byte_of_N. rewrite N.mod_small by apply N_ascii_bounded.
  apply ascii_N_embedding.
Qed.

Lemma byte_of_N_eq (n : N) (c : ascii) : n mod 256 = N_of_ascii c -> byte_of_N n = c.
Proof. unfold byte_of_N. intros ->. apply ascii_N_embedding. Qed.

Lemma N_of_byte_of_N (n : N) : N_of_ascii (byte_of_N n) = n mod 256.
Proof. unfold byte_of_N. apply N_ascii_embedding. apply N.mod_lt. lia. Qed.

(** * Facts: base64 *)

Module Base64Facts.
Import Base64.
Import Notions.

Lemma decodeMap_encode (i : N) : i < 64 -> decodeMap (encode i) = Some i.
Proof.
  intros H.
  assert (Hall : forallb (fun n => bool_decide (decodeMap (encode (N.of_nat n)) = Some (N.of_nat n)))
                         (seq 0 64) = true) by (vm_compute; reflexivity).
  rewrite forallb_forall in Hall.
  assert (Hin : In (N.to_nat i) (seq 0 64)) by (apply in_seq; lia).
  specialize (Hall (N.to_nat i) Hin).
  rewrite N2Nat.id in Hall.
  apply bool_decide_eq_true in Hall. exact Hall.
Qed.

Lemma encode_not_newline (i : N) : isNewline (encode i) = false.
Proof.
  unfold encode.
  assert (Hall : forallb (fun c => negb (isNewline c)) (padChar :: encodeStd) = true)
    by (vm_compute; reflexivity).
  rewrite forallb_forall in Hall.
  apply negb_true_iff, Hall.
  destruct (nth_in_or_default (N.to_nat i) encodeStd padChar) as [Hin | ->].
  - right. exact Hin.
  - left. reflexivity.
Qed.

Lemma decodeMap_padChar : decodeMap padChar = None.
Proof. reflexivity. Qed.

Lemma land63_lt (v : N) : N.land v 63 < 64.
Proof. change 63 with (N.ones 6). rewrite N.land_ones. apply N.mod_lt. discriminate. Qed.

Lemma val_of_bytes (x y z : N) :
  x < 256 -> y < 256 -> z < 256 ->
  N.lor (N.lor (N.shiftl x 16) (N.shiftl y 8)) z = x * 65536 + y * 256 + z.
Proof.
  intros Hx Hy Hz. arith_bits.
  rewrite (N_lor_add (x * 65536) (y * 256) 16);
    [| change (2 ^ 16) with 65536; euclid | change (2 ^ 16) with 65536; lia].
  rewrite (N_lor_add _ z 8);
    [| change (2 ^ 8) with 256; euclid | change (2 ^ 8) with 256; lia].
  reflexivity.
Qed.

Lemma val_of_sextets (a b c d : N) :
  a < 64 -> b < 64 -> c < 64 -> d < 64 ->
  N.lor (N.lor (N.lor (N.shiftl a 18) (N.shiftl b 12)) (N.shiftl c 6)) d
  = a * 262144 + b * 4096 + c * 64 + d.
Proof.
  intros Ha Hb Hc Hd. arith_bits.
  rewrite (N_lor_add (a * 262144) (b * 4096) 18);
    [| change (2 ^ 18) with 262144; euclid | change (2 ^ 18) with 262144; lia].
  rewrite (N_lor_add _ (c * 64) 12);
    [| change (2 ^ 12) with 4096; euclid | change (2 ^ 12) with 4096; lia].
  rewrite (N_lor_add _ d 6);
    [| change (2 ^ 6) with 64; euclid | change (2 ^ 6) with 64; lia].
  reflexivity.
Qed.

(** The three bytes of a quantum come back from its four six-bit values. *)
Lemma quantum_of_val (v : N) (n : nat) :
  v < 16777216 ->
  quantum (N.land (N.shiftr v 18) 63) (N.land (N.shiftr v 12) 63)
          (N.land (N.shiftr v 6) 63) (N.land v 63) n
  = firstn n [byte_of_N (N.shiftr v 16); byte_of_N (N.shiftr v 8); byte_of_N v].
Proof.
  intros Hv. unfold quantum.
  rewrite val_of_sextets by apply land63_lt.
  replace (_ + _ + _ + _) with v; [reflexivity |].
  arith_bits. euclid.
Qed.

Lemma bytes_of_val (x y z : N) :
  x < 256 -> y < 256 -> z < 256 ->
  let v := x * 65536 + y * 256 + z in
  (N.shiftr v 16) mod 256 = x /\ (N.shiftr v 8) mod 256 = y /\ v mod 256 = z.
Proof. intros Hx Hy Hz v. subst v. arith_bits. repeat split; euclid. Qed.

Lemma quantum3 (b0 b1 b2 : ascii) :
  let val := N.lor (N.lor (N.shiftl (N_of_ascii b0) 16) (N.shiftl (N_of_ascii b1) 8))
                   (N_of_ascii b2) in
  quantum (N.land (N.shiftr val 18) 63) (N.land (N.shiftr val 12) 63)
          (N.land (N.shiftr val 6) 63) (N.land val 63) 3 = [b0; b1; b2].
Proof.
  intros val. subst val.
  pose proof (N_ascii_bounded b0). pose proof (N_ascii_bounded b1).
  pose proof (N_ascii_bounded b2).
  rewrite val_of_bytes by assumption.
  rewrite quantum_of_val by lia.
  destruct (bytes_of_val (N_of_ascii b0) (N_of_ascii b1) (N_of_ascii b2)) as (E0 & E1 & E2);
    try assumption.
  cbn [firstn]. rewrite (byte_of_N_eq _ b0 E0), (byte_of_N_eq _ b1 E1), (byte_of_N_eq _ b2 E2).
  reflexivity.
Qed.

Lemma quantum1 (b0 : ascii) :
  let val := N.shiftl (N_of_ascii b0) 16 in
  quantum (N.land (N.shiftr val 18) 63) (N.land (N.shiftr val 12) 63) 0 0 1 = [b0].
Proof.
  intros val. subst val. pose proof (N_ascii_bounded b0).
  unfold quantum. rewrite val_of_sextets by (try apply land63_lt; lia).
  cbn [firstn]. f_equal. apply byte_of_N_eq. arith_bits. euclid.
Qed.

Lemma quantum2 (b0 b1 : ascii) :
  let val := N.lor (N.shiftl (N_of_ascii b0) 16) (N.shiftl (N_of_ascii b1) 8) in
  quantum (N.land (N.shiftr val 18) 63) (N.land (N.shiftr val 12) 63)
          (N.land (N.shiftr val 6) 63) 0 2 = [b0; b1].
Proof.
  intros val. subst val.
  pose proof (N_ascii_bounded b0). pose proof (N_ascii_bounded b1).
  rewrite <- (N.lor_0_r (N.lor _ _)).
  rewrite (val_of_bytes _ _ 0) by lia.
  unfold quantum. rewrite val_of_sextets by (try apply land63_lt; lia).
  cbn [firstn]. f_equal; [| f_equal]; apply byte_of_N_eq; arith_bits; euclid.
Qed.

Lemma list_ind3 {A : Type} (P : list A -> Prop) :
  P [] -> (forall a, P [a]) -> (forall a b, P [a; b]) ->
  (forall a b c r, P r -> P (a :: b :: c :: r)) -> forall l, P l.
Proof.
  intros H0 H1 H2 H3.
  fix IH 1. intros [| a [| b [| c r]]].
  - exact H0.
  - apply H1.
  - apply H2.
  - apply H3, IH.
Qed.

Lemma decodeQuanta_Encode (b : list ascii) : decodeQuanta (Encode b) = Some b.
Proof.
  induction b as [| b0 | b0 b1 | b0 b1 b2 r IH] using list_ind3.
  - reflexivity.
  - cbn [Encode decodeQuanta].
    rewrite !decodeMap_encode by apply land63_lt. rewrite decodeMap_padChar.
    cbn -[quantum N.land N.shiftr N.shiftl N.lor]. rewrite quantum1. reflexivity.
  - cbn [Encode decodeQuanta].
    rewrite !decodeMap_encode by apply land63_lt. rewrite decodeMap_padChar.
    cbn -[quantum N.land N.shiftr N.shiftl N.lor]. rewrite quantum2. reflexivity.
  - cbn [Encode decodeQuanta].
    rewrite !decodeMap_encode by apply land63_lt.
    rewrite IH, quantum3. reflexivity.
Qed.

Lemma Encode_no_newline (b : list ascii) :
  filter (fun c => isNewline c = false) (Encode b) = Encode b.
Proof.
  induction b as [| b0 | b0 b1 | b0 b1 b2 r IH] using list_ind3; cbn [Encode].
  - reflexivity.
  - rewrite !filter_cons, !encode_not_newline. reflexivity.
  - rewrite !filter_cons, !encode_not_newline. reflexivity.
  - rewrite !filter_cons, !encode_not_newline, IH.
    repeat (destruct (decide _); [| congruence]). reflexivity.
Qed.

(** Decoding what [EncodeToString] wrote gives the bytes back. *)
Lemma DecodeString_EncodeToString (b : list ascii) :
  DecodeString (EncodeToString b) = inl b.
Proof.
  unfold DecodeString, EncodeToString.
  rewrite list_ascii_of_string_of_list_ascii, Encode_no_newline, decodeQuanta_Encode.
  reflexivity.
Qed.

End Base64Facts.

(** * Facts: UTF-8 *)

Module Utf8Facts.
Import Utf8.
Import Notions.

Lemma lor_lead (a x k : N) : a mod 2 ^ k = 0 -> x < 2 ^ k -> N.lor a x = a + x.
Proof. apply N_lor_add. Qed.

Lemma rune2 (b0 b1 : N) :
  194 <= b0 <= 223 -> 128 <= b1 <= 191 ->
  N.lor (N.shiftl (N.land b0 31) 6) (N.land b1 63) = (b0 - 192) * 64 + (b1 - 128).
Proof.
  intros H0 H1. arith_utf8.
  rewrite (N_lor_add _ _ 6); change (2 ^ 6) with 64; euclid.
Qed.

Lemma rune3 (b0 b1 b2 : N) :
  224 <= b0 <= 239 -> 128 <= b1 <= 191 -> 128 <= b2 <= 191 ->
  N.lor (N.lor (N.shiftl (N.land b0 15) 12) (N.shiftl (N.land b1 63) 6)) (N.land b2 63)
  = (b0 - 224) * 4096 + (b1 - 128) * 64 + (b2 - 128).
Proof.
  intros H0 H1 H2. arith_utf8.
  rewrite (N_lor_add _ (_ * 64) 12); [| change (2 ^ 12) with 4096; euclid ..].
  rewrite (N_lor_add _ _ 6); change (2 ^ 6) with 64; euclid.
Qed.

Lemma rune4 (b0 b1 b2 b3 : N) :
  240 <= b0 <= 247 -> 128 <= b1 <= 191 -> 128 <= b2 <= 191 -> 128 <= b3 <= 191 ->
  N.lor (N.lor (N.lor (N.shiftl (N.land b0 7) 18) (N.shiftl (N.land b1 63) 12))
               (N.shiftl (N.land b2 63) 6)) (N.land b3 63)
  = (b0 - 240) * 262144 + (b1 - 128) * 4096 + (b2 - 128) * 64 + (b3 - 128).
Proof.
  intros H0 H1 H2 H3. arith_utf8.
  rewrite (N_lor_add _ (_ * 4096) 18); [| change (2 ^ 18) with 262144; euclid ..].
  rewrite (N_lor_add _ (_ * 64) 12); [| change (2 ^ 12) with 4096; euclid ..].
  rewrite (N_lor_add _ _ 6); change (2 ^ 6) with 64; euclid.
Qed.

Lemma EncodeRune2 (b0 b1 : N) :
  194 <= b0 <= 223 -> 128 <= b1 <= 191 ->
  EncodeRune ((b0 - 192) * 64 + (b1 - 128)) = [byte_of_N b0; byte_of_N b1].
Proof.
  intros H0 H1. unfold EncodeRune.
  destruct (_ <=? 127) eqn:E1; bool2prop; [lia |].
  destruct (_ <=? 2047) eqn:E2; bool2prop; [| lia].
  f_equal; [| f_equal].
  - f_equal. arith_utf8. rewrite (N_lor_add _ _ 6); change (2 ^ 6) with 64; euclid.
  - f_equal. arith_utf8. rewrite (N_lor_add _ _ 6); change (2 ^ 6) with 64; euclid.
Qed.

Lemma EncodeRune3 (b0 b1 b2 : N) :
  224 <= b0 <= 239 -> 128 <= b1 <= 191 -> 128 <= b2 <= 191 ->
  (b0 = 224 -> 160 <= b1) -> (b0 = 237 -> b1 <= 159) ->
  EncodeRune ((b0 - 224) * 4096 + (b1 - 128) * 64 + (b2 - 128))
  = [byte_of_N b0; byte_of_N b1; byte_of_N b2].
Proof.
  intros H0 H1 H2 Hlo Hhi. unfold EncodeRune, MaxRune.
  destruct (_ <=? 127) eqn:E1; bool2prop; [lia |].
  destruct (_ <=? 2047) eqn:E2; bool2prop; [lia |].
  destruct (_ || _) eqn:E3.
  { exfalso. apply orb_true_iff in E3. destruct E3 as [E3 | E3]; bool2prop; lia. }
  destruct (_ <=? 65535) eqn:E4; bool2prop; [| lia].
  f_equal; [| f_equal; [| f_equal]]; f_equal; arith_utf8.
  - rewrite (N_lor_add _ _ 5); change (2 ^ 5) with 32; euclid.
  - rewrite (N_lor_add _ _ 6); change (2 ^ 6) with 64; euclid.
  - rewrite (N_lor_add _ _ 6); change (2 ^ 6) with 64; euclid.
Qed.

Lemma EncodeRune4 (b0 b1 b2 b3 : N) :
  240 <= b0 <= 244 -> 128 <= b1 <= 191 -> 128 <= b2 <= 191 -> 128 <= b3 <= 191 ->
  (b0 = 240 -> 144 <= b1) -> (b0 = 244 -> b1 <= 143) ->
  EncodeRune ((b0 - 240) * 262144 + (b1 - 128) * 4096 + (b2 - 128) * 64 + (b3 - 128))
  = [byte_of_N b0; byte_of_N b1; byte_of_N b2; byte_of_N b3].
Proof.
  intros H0 H1 H2 H3 Hlo Hhi. unfold EncodeRune, MaxRune.
  destruct (_ <=? 127) eqn:E1; bool2prop; [lia |].
  destruct (_ <=? 2047) eqn:E2; bool2prop; [lia |].
  destruct (_ || _) eqn:E3.
  { exfalso. apply orb_true_iff in E3. destruct E3 as [E3 | E3]; bool2prop; lia. }
  destruct (_ <=? 65535) eqn:E4; bool2prop; [lia |].
  f_equal; [| f_equal; [| f_equal; [| f_equal]]]; f_equal; arith_utf8.
  - rewrite (N_lor_add _ _ 4); change (2 ^ 4) with 16; euclid.
  - rewrite (N_lor_add _ _ 6); change (2 ^ 6) with 64; euclid.
  - rewrite (N_lor_add _ _ 6); change (2 ^ 6) with 64; euclid.
  - rewrite (N_lor_add _ _ 6); change (2 ^ 6) with 64; euclid.
Qed.

Lemma isCont_range (c : ascii) : isCont c = true -> 128 <= N_of_ascii c <= 191.
Proof. unfold isCont. intros H. bool2prop. lia. Qed.

Lemma andb_intro (a b : bool) : a = true -> b = true -> a && b = true.
Proof. intros -> ->. reflexivity. Qed.

Lemma DecodeRune2 (c0 c1 : ascii) (t : list ascii) :
  194 <= N_of_ascii c0 <= 223 -> isCont c1 = true ->
  DecodeRune (c0 :: c1 :: t)
  = ((N_of_ascii c0 - 192) * 64 + (N_of_ascii c1 - 128), 2%nat).
Proof.
  intros H0 Hc1. pose proof (isCont_range _ Hc1). unfold DecodeRune.
  replace (N_of_ascii c0 <? 128) with false by (symmetry; apply N.ltb_ge; lia).
  replace ((194 <=? N_of_ascii c0) && (N_of_ascii c0 <=? 223)) with true
    by (symmetry; apply andb_intro; apply N.leb_le; lia).
  rewrite Hc1, rune2 by lia. reflexivity.
Qed.

Lemma DecodeRune3 (c0 c1 c2 : ascii) (t : list ascii) :
  224 <= N_of_ascii c0 <= 239 ->
  ((if N_of_ascii c0 =? 224 then 160 else 128) <=? N_of_ascii c1)
  && (N_of_ascii c1 <=? (if N_of_ascii c0 =? 237 then 159 else 191))
  && isCont c2 = true ->
  128 <= N_of_ascii c1 <= 191 ->
  DecodeRune (c0 :: c1 :: c2 :: t)
  = ((N_of_ascii c0 - 224) * 4096 + (N_of_ascii c1 - 128) * 64 + (N_of_ascii c2 - 128),
     3%nat).
Proof.
  intros H0 Hc H1.
  assert (Hc2 : isCont c2 = true) by (apply andb_true_iff in Hc; tauto).
  pose proof (isCont_range _ Hc2). unfold DecodeRune.
  replace (N_of_ascii c0 <? 128) with false by (symmetry; apply N.ltb_ge; lia).
  replace ((194 <=? N_of_ascii c0) && (N_of_ascii c0 <=? 223)) with false
    by (symmetry; apply andb_false_iff; right; apply N.leb_gt; lia).
  replace ((224 <=? N_of_ascii c0) && (N_of_ascii c0 <=? 239)) with true
    by (symmetry; apply andb_intro; apply N.leb_le; lia).
  rewrite Hc, rune3 by lia. reflexivity.
Qed.

Lemma DecodeRune4 (c0 c1 c2 c3 : ascii) (t : list ascii) :
  240 <= N_of_ascii c0 <= 244 ->
  ((if N_of_ascii c0 =? 240 then 144 else 128) <=? N_of_ascii c1)
  && (N_of_ascii c1 <=? (if N_of_ascii c0 =? 244 then 143 else 191))
  && isCont c2 && isCont c3 = true ->
  128 <= N_of_ascii c1 <= 191 ->
  DecodeRune (c0 :: c1 :: c2 :: c3 :: t)
  = ((N_of_ascii c0 - 240) * 262144 + (N_of_ascii c1 - 128) * 4096
     + (N_of_ascii c2 - 128) * 64 + (N_of_ascii c3 - 128), 4%nat).
Proof.
  intros H0 Hc H1.
  assert (Hc3 : isCont c3 = true) by (apply andb_true_iff in Hc; tauto).
  assert (Hc2 : isCont c2 = true).
  { apply andb_true_iff in Hc as [Hc _]. apply andb_true_iff in Hc. tauto. }
  pose proof (isCont_range _ Hc2). pose proof (isCont_range _ Hc3). unfold DecodeRune.
  replace (N_of_ascii c0 <? 128) with false by (symmetry; apply N.ltb_ge; lia).
  replace ((194 <=? N_of_ascii c0) && (N_of_ascii c0 <=? 223)) with false
    by (symmetry; apply andb_false_iff; right; apply N.leb_gt; lia).
  replace ((224 <=? N_of_ascii c0) && (N_of_ascii c0 <=? 239)) with false
    by (symmetry; apply andb_false_iff; right; apply N.leb_gt; lia).
  replace ((240 <=? N_of_ascii c0) && (N_of_ascii c0 <=? 244)) with true
    by (symmetry; apply andb_intro; apply N.leb_le; lia).
  rewrite Hc, rune4 by lia. reflexivity.
Qed.

Lemma DecodeRune_head (c0 : ascii) (p1 : list ascii) :
  128 <= N_of_ascii c0 -> head c0 p1.
Proof.
  intros Hc0.
  destruct (N.ltb_spec (N_of_ascii c0) 128) as [? | _]; [lia |].
  assert (E128 : (N_of_ascii c0 <? 128) = false) by (apply N.ltb_ge; lia).
  destruct ((194 <=? N_of_ascii c0) && (N_of_ascii c0 <=? 223)) eqn:E2.
  { destruct p1 as [| c1 t].
    - apply head_invalid. unfold DecodeRune. rewrite E128, E2. reflexivity.
    - destruct (isCont c1) eqn:Ec1.
      + pose proof (isCont_range _ Ec1). pose proof (eq_sym Ec1) as Ec0. bool2prop.
        apply head2 with (r := (N_of_ascii c0 - 192) * 64 + (N_of_ascii c1 - 128)).
        * rewrite EncodeRune2 by lia. now rewrite !byte_of_N_of_ascii.
        * intros t'. apply DecodeRune2; [lia | symmetry; exact Ec0].
      + apply head_invalid. unfold DecodeRune. rewrite E128, E2, Ec1. reflexivity. }
  destruct ((224 <=? N_of_ascii c0) && (N_of_ascii c0 <=? 239)) eqn:E3.
  { destruct p1 as [| c1 [| c2 t]];
      try (apply head_invalid; unfold DecodeRune; rewrite E128, E2, E3; reflexivity).
    destruct (((if N_of_ascii c0 =? 224 then 160 else 128) <=? N_of_ascii c1)
              && (N_of_ascii c1 <=? (if N_of_ascii c0 =? 237 then 159 else 191))
              && isCont c2) eqn:Ec.
    - pose proof (eq_sym Ec) as Ec0.
      assert (Ec' := Ec). apply andb_true_iff in Ec' as [Ec' Ec2].
      apply andb_true_iff in Ec' as [Elo Ehi].
      pose proof (isCont_range _ Ec2). bool2prop.
      assert (128 <= N_of_ascii c1 <= 191)
        by (destruct (N_of_ascii c0 =? 224), (N_of_ascii c0 =? 237); lia).
      apply head3 with (r := (N_of_ascii c0 - 224) * 4096 + (N_of_ascii c1 - 128) * 64
                              + (N_of_ascii c2 - 128)).
      + rewrite EncodeRune3; try lia.
        * now rewrite !byte_of_N_of_ascii.
        * intros E. rewrite E in Elo. exact Elo.
        * intros E. rewrite E in Ehi. exact Ehi.
      + intros t'. apply DecodeRune3; [lia | symmetry; exact Ec0 | lia].
    - apply head_invalid. unfold DecodeRune. rewrite E128, E2, E3, Ec. reflexivity. }
  destruct ((240 <=? N_of_ascii c0) && (N_of_ascii c0 <=? 244)) eqn:E4.
  { destruct p1 as [| c1 [| c2 [| c3 t]]];
      try (apply head_invalid; unfold DecodeRune; rewrite E128, E2, E3, E4; reflexivity).
    destruct (((if N_of_ascii c0 =? 240 then 144 else 128) <=? N_of_ascii c1)
              && (N_of_ascii c1 <=? (if N_of_ascii c0 =? 244 then 143 else 191))
              && isCont c2 && isCont c3) eqn:Ec.
    - pose proof (eq_sym Ec) as Ec0.
      assert (Ec' := Ec). apply andb_true_iff in Ec' as [Ec' Ec3].
      apply andb_true_iff in Ec' as [Ec' Ec2].
      apply andb_true_iff in Ec' as [Elo Ehi].
      pose proof (isCont_range _ Ec2). pose proof (isCont_range _ Ec3). bool2prop.
      assert (128 <= N_of_ascii c1 <= 191)
        by (destruct (N_of_ascii c0 =? 240), (N_of_ascii c0 =? 244); lia).
      apply head4 with (r := (N_of_ascii c0 - 240) * 262144 + (N_of_ascii c1 - 128) * 4096
                              + (N_of_ascii c2 - 128) * 64 + (N_of_ascii c3 - 128)).
      + rewrite EncodeRune4; try lia.
        * now rewrite !byte_of_N_of_ascii.
        * intros E. rewrite E in Elo. exact Elo.
        * intros E. rewrite E in Ehi. exact Ehi.
      + intros t'. apply DecodeRune4; [lia | symmetry; exact Ec0 | lia].
    - apply head_invalid. unfold DecodeRune. rewrite E128, E2, E3, E4, Ec. reflexivity. }
  apply head_invalid. unfold DecodeRune. rewrite E128, E2, E3, E4. reflexivity.
Qed.

End Utf8Facts.

(** * Facts: JSON strings *)

Module JsonStringFacts.
Import Json Utf8 Utf8Facts.
Import Notions.

Lemma unquote_ascii (c : ascii) (tail : list ascii) :
  N_of_ascii c < 128 ->
  unquote ((if htmlSafeSet c then [c] else escapeByte c) ++ tail)
  = consBytes [c] (unquote tail).
Proof.
  intros H.
  destruct c as [b0 b1 b2 b3 b4 b5 b6 [|]];
    [exfalso; destruct b0, b1, b2, b3, b4, b5, b6; vm_compute in H; discriminate |].
  destruct b0, b1, b2, b3, b4, b5, b6; reflexivity.
Qed.

Lemma eqb_high_low (c d : ascii) :
  128 <= N_of_ascii c -> N_of_ascii d < 128 -> Ascii.eqb c d = false.
Proof.
  intros Hc Hd. apply Ascii.eqb_neq. intros ->. lia.
Qed.

(** [unquote] at a byte outside ASCII. *)
Lemma unquote_high (c0 : ascii) (r : list ascii) :
  128 <= N_of_ascii c0 ->
  unquote (c0 :: r)
  = let '(rr, size) := DecodeRune (c0 :: r) in
    consBytes (EncodeRune rr)
      match size, r with
      | 2%nat, _ :: p2 => unquote p2
      | 3%nat, _ :: _ :: p3 => unquote p3
      | 4%nat, _ :: _ :: _ :: p4 => unquote p4
      | _, _ => unquote r
      end.
Proof.
  intros H. cbn [unquote].
  rewrite (eqb_high_low c0 dquote), (eqb_high_low c0 backslash) by (try exact H; reflexivity).
  replace (N_of_ascii c0 <? 32) with false by (symmetry; apply N.ltb_ge; lia).
  replace (N_of_ascii c0 <? 128) with false by (symmetry; apply N.ltb_ge; lia).
  reflexivity.
Qed.

Lemma appendString_high (c0 : ascii) (p1 : list ascii) :
  128 <= N_of_ascii c0 ->
  appendString (c0 :: p1)
  = let '(c, size) := DecodeRune (c0 :: p1) in
    if (c =? RuneError) && (size =? 1)%nat then
      [backslash; "u"%char; "f"%char; "f"%char; "f"%char; "d"%char] ++ appendString p1
    else
      (if (c =? 8232) || (c =? 8233)
       then [backslash; "u"%char; "2"%char; "0"%char; "2"%char; hexDigit (N.land c 15)]
       else firstn size (c0 :: p1))
      ++ match size, p1 with
         | 2%nat, _ :: p2 => appendString p2
         | 3%nat, _ :: _ :: p3 => appendString p3
         | 4%nat, _ :: _ :: _ :: p4 => appendString p4
         | _, _ => []
         end.
Proof.
  intros H. cbn [appendString].
  replace (N_of_ascii c0 <? 128) with false by (symmetry; apply N.ltb_ge; lia).
  reflexivity.
Qed.

Lemma unquote_backslash (r : list ascii) :
  unquote (backslash :: r)
  = match unescape r with
    | None => None
    | Some (bytes, n) =>
        consBytes bytes
          match n, r with
          | 1%nat, _ :: r1 => unquote r1
          | 5%nat, _ :: _ :: _ :: _ :: _ :: r5 => unquote r5
          | 11%nat, _ :: _ :: _ :: _ :: _ :: _ :: _ :: _ :: _ :: _ :: _ :: r11 =>
              unquote r11
          | _, _ => None
          end
    end.
Proof. reflexivity. Qed.

Lemma unescape_u (r : N) (h1 h2 h3 h4 : ascii) (tail : list ascii) :
  getu4 h1 h2 h3 h4 = Some r -> isSurrogate r = false ->
  unescape ("u"%char :: h1 :: h2 :: h3 :: h4 :: tail) = Some (EncodeRune r, 5%nat).
Proof.
  intros Hg Hs. unfold unescape.
  change (Ascii.eqb "u" dquote || Ascii.eqb "u" backslash || Ascii.eqb "u" "/")%char
    with false.
  change (Ascii.eqb "u" "b")%char with false. change (Ascii.eqb "u" "f")%char with false.
  change (Ascii.eqb "u" "n")%char with false. change (Ascii.eqb "u" "r")%char with false.
  change (Ascii.eqb "u" "t")%char with false. change (Ascii.eqb "u" "u")%char with true.
  cbn match. rewrite Hg, Hs. reflexivity.
Qed.

Lemma unquote_escape_u (r : N) (h1 h2 h3 h4 : ascii) (tail : list ascii) :
  getu4 h1 h2 h3 h4 = Some r -> isSurrogate r = false ->
  unquote (backslash :: "u"%char :: h1 :: h2 :: h3 :: h4 :: tail)
  = consBytes (EncodeRune r) (unquote tail).
Proof.
  intros Hg Hs. rewrite unquote_backslash, (unescape_u r) by assumption. reflexivity.
Qed.

Lemma EncodeRune_2028 : EncodeRune 8232 = ["226"%char; "128"%char; "168"%char].
Proof. vm_compute. reflexivity. Qed.

Lemma EncodeRune_2029 : EncodeRune 8233 = ["226"%char; "128"%char; "169"%char].
Proof. vm_compute. reflexivity. Qed.

Lemma not_separator (r : N) (l : list ascii) :
  EncodeRune r = l -> length l <> 3%nat -> (r =? 8232) || (r =? 8233) = false.
Proof.
  intros He Hl.
  destruct (N.eqb_spec r 8232) as [-> | ?];
    [rewrite EncodeRune_2028 in He; subst l; now contradiction Hl |].
  destruct (N.eqb_spec r 8233) as [-> | ?];
    [rewrite EncodeRune_2029 in He; subst l; now contradiction Hl |].
  reflexivity.
Qed.

(** What the decoder reads from a string the encoder wrote. *)
Lemma unquote_appendString (s rest : list ascii) :
  unquote (appendString s ++ dquote :: rest) = Some (toValidUTF8 s, rest).
Proof.
  remember (length s) as n eqn:Hn. revert s Hn.
  induction n as [n IH] using lt_wf_ind. intros s Hn.
  destruct s as [| c0 p1].
  { reflexivity. }
  destruct (N.ltb_spec (N_of_ascii c0) 128) as [Hlow | Hhigh].
  - (* an ASCII byte *)
    cbn [appendString toValidUTF8].
    replace (N_of_ascii c0 <? 128) with true by (symmetry; apply N.ltb_lt; lia).
    rewrite <- app_assoc, unquote_ascii by exact Hlow.
    rewrite (IH (length p1)) by (cbn in Hn; first [lia | reflexivity]).
    assert (Hsz : snd (DecodeRune (c0 :: p1)) = 1%nat).
    { unfold DecodeRune. replace (N_of_ascii c0 <? 128) with true
        by (symmetry; apply N.ltb_lt; lia). reflexivity. }
    rewrite Hsz. reflexivity.
  - rewrite appendString_high by exact Hhigh.
    destruct (DecodeRune_head c0 p1 Hhigh) as
      [c0 p1 Hd | c0 c1 t r He Hd | c0 c1 c2 t r He Hd | c0 c1 c2 c3 t r He Hd].
    + (* no well-formed rune *)
      rewrite Hd.
      change ((RuneError =? RuneError) && (1 =? 1)%nat) with true. cbn iota.
      cbn [app]. rewrite (unquote_escape_u 65533) by reflexivity.
      rewrite (IH (length p1)) by (cbn in Hn; first [lia | reflexivity]).
      cbn [toValidUTF8]. rewrite Hd. cbn [snd consBytes].
      replace (N_of_ascii c0 <? 128) with false by (symmetry; apply N.ltb_ge; lia).
      reflexivity.
    + rewrite (Hd t).
      rewrite (not_separator r _ He) by (cbn; lia).
      rewrite andb_false_r. change (firstn 2 (c0 :: c1 :: t)) with [c0; c1]. cbn [app].
      rewrite unquote_high, (Hd (appendString t ++ dquote :: rest)) by exact Hhigh.
      rewrite He. rewrite (IH (length t)) by (cbn in Hn; first [lia | reflexivity]).
      cbn [toValidUTF8]. rewrite (Hd t). reflexivity.
    + rewrite (Hd t). rewrite andb_false_r.
      assert (Hgoal : unquote
                ((if (r =? 8232) || (r =? 8233)
                  then [backslash; "u"%char; "2"%char; "0"%char; "2"%char;
                        hexDigit (N.land r 15)]
                  else [c0; c1; c2]) ++ appendString t ++ dquote :: rest)
              = consBytes [c0; c1; c2] (unquote (appendString t ++ dquote :: rest))).
      { destruct (N.eqb_spec r 8232) as [-> | ?].
        { change (8232 =? 8232) with true. cbn [orb app].
          rewrite (unquote_escape_u 8232) by reflexivity.
          rewrite He. reflexivity. }
        destruct (N.eqb_spec r 8233) as [-> | ?].
        { change (8233 =? 8232) with false. change (8233 =? 8233) with true.
          cbn [orb app]. rewrite (unquote_escape_u 8233) by reflexivity.
          rewrite He. reflexivity. }
        replace (r =? 8232) with false by (symmetry; now apply N.eqb_neq).
        replace (r =? 8233) with false by (symmetry; now apply N.eqb_neq).
        cbn [orb app].
        rewrite unquote_high, (Hd (appendString t ++ dquote :: rest)) by exact Hhigh.
        rewrite He. reflexivity. }
      change (firstn 3 (c0 :: c1 :: c2 :: t)) with [c0; c1; c2].
      rewrite <- app_assoc, Hgoal.
      rewrite (IH (length t)) by (cbn in Hn; first [lia | reflexivity]).
      cbn [toValidUTF8]. rewrite (Hd t). reflexivity.
    + rewrite (Hd t).
      rewrite (not_separator r _ He) by (cbn; lia).
      rewrite andb_false_r.
      change (firstn 4 (c0 :: c1 :: c2 :: c3 :: t)) with [c0; c1; c2; c3]. cbn [app].
      rewrite unquote_high, (Hd (appendString t ++ dquote :: rest)) by exact Hhigh.
      rewrite He. rewrite (IH (length t)) by (cbn in Hn; first [lia | reflexivity]).
      cbn [toValidUTF8]. rewrite (Hd t). reflexivity.
Qed.

Lemma quote_unquote (s : string) (rest : list ascii) :
  unquote (appendString (list_ascii_of_string s) ++ dquote :: rest)
  = Some (list_ascii_of_string (coerce s), rest).
Proof.
  rewrite unquote_appendString. unfold coerce.
  now rewrite list_ascii_of_string_of_list_ascii.
Qed.

(** A string of well-formed runes passes unchanged. *)
Lemma toValidUTF8_valid (s : list ascii) : Valid s = true -> toValidUTF8 s = s.
Proof.
  remember (length s) as n eqn:Hn. revert s Hn.
  induction n as [n IH] using lt_wf_ind. intros s Hn Hv.
  destruct s as [| c0 p1]; [reflexivity |].
  cbn [Valid toValidUTF8] in *.
  destruct (snd (DecodeRune (c0 :: p1))) as [| [| [| [| [| k]]]]].
  - discriminate.
  - apply andb_true_iff in Hv as [Hlow Hv]. rewrite Hlow. cbn [app]. f_equal.
    apply (IH (length p1)); [cbn in Hn; lia | reflexivity | exact Hv].
  - destruct p1 as [| c1 p2]; [discriminate |]. do 2 f_equal.
    apply (IH (length p2)); [cbn in Hn; lia | reflexivity | exact Hv].
  - destruct p1 as [| c1 [| c2 p3]]; try discriminate. do 3 f_equal.
    apply (IH (length p3)); [cbn in Hn; lia | reflexivity | exact Hv].
  - destruct p1 as [| c1 [| c2 [| c3 p4]]]; try discriminate. do 4 f_equal.
    apply (IH (length p4)); [cbn in Hn; lia | reflexivity | exact Hv].
  - discriminate.
Qed.

Lemma coerce_valid (s : string) : ValidString s = true -> coerce s = s.
Proof.
  unfold ValidString, coerce. intros H. rewrite toValidUTF8_valid by exact H.
  apply string_of_list_ascii_of_string.
Qed.

Lemma DecodeRune_size (s : list ascii) : (snd (DecodeRune s) <= 4)%nat.
Proof.
  unfold DecodeRune. destruct s as [| c0 p1]; [cbn; lia |].
  repeat match goal with
         | |- context [if ?b then _ else _] => destruct b
         | |- context [match ?l with [] => _ | _ :: _ => _ end] => destruct l
         end; cbn; lia.
Qed.

Lemma EncodeRune_nonempty (r : N) : EncodeRune r <> [].
Proof.
  unfold EncodeRune.
  repeat match goal with |- context [if ?b then _ else _] => destruct b end; discriminate.
Qed.

Lemma consBytes_Some (pre : list ascii) (o : option (list ascii * list ascii)) str rest :
  consBytes pre o = Some (str, rest) ->
  exists str', o = Some (str', rest) /\ str = pre ++ str'.
Proof.
  destruct o as [[s' r'] |]; cbn; intros H; [| discriminate].
  injection H as <- <-. eauto.
Qed.

(** [unquote] takes at least the closing quote. *)
Lemma unquote_length (s str rest : list ascii) :
  unquote s = Some (str, rest) -> (length rest < length s)%nat.
Proof.
  remember (length s) as n eqn:Hn. revert s str rest Hn.
  induction n as [n IH] using lt_wf_ind. intros s str rest Hn H.
  destruct s as [| c r]; [discriminate |].
  cbn [unquote] in H. cbn [length] in Hn.
  assert (IH' : forall t str', (length t <= length r)%nat ->
                 unquote t = Some (str', rest) -> (length rest < n)%nat).
  { intros t str' Ht Hu. specialize (IH (length t) ltac:(lia) t str' rest eq_refl Hu). lia. }
  destruct (Ascii.eqb c dquote).
  { injection H as <- <-. lia. }
  destruct (Ascii.eqb c backslash).
  { destruct (unescape r) as [[bytes k] |]; [| discriminate].
    apply consBytes_Some in H as (str' & H & _).
    destruct k as [| [| [| [| [| [| [| [| [| [| [| [| k]]]]]]]]]]]]; try discriminate;
      destruct r as [| ? r]; try discriminate.
    - eapply IH'; [| exact H]. cbn; lia.
    - do 4 (destruct r as [| ? r]; try discriminate).
      eapply IH'; [| exact H]. cbn; lia.
    - do 10 (destruct r as [| ? r]; try discriminate).
      eapply IH'; [| exact H]. cbn; lia. }
  destruct (N_of_ascii c <? 32); [discriminate |].
  destruct (N_of_ascii c <? 128).
  { apply consBytes_Some in H as (str' & H & _). eapply IH'; [| exact H]. lia. }
  destruct (DecodeRune (c :: r)) as [rr size].
  apply consBytes_Some in H as (str' & H & _).
  destruct size as [| [| [| [| [| k]]]]].
  - eapply IH'; [| exact H]; lia.
  - eapply IH'; [| exact H]; lia.
  - destruct r as [| ? r]; eapply IH'; try exact H; cbn; lia.
  - destruct r as [| ? [| ? r]]; eapply IH'; try exact H; cbn; lia.
  - destruct r as [| ? [| ? [| ? r]]]; eapply IH'; try exact H; cbn; lia.
  - eapply IH'; [| exact H]; lia.
Qed.

End JsonStringFacts.

(** * Facts: the JSON reader on tokens *)

Module JsonLexFacts.
Import Json JsonStringFacts.
Import Notions.

Lemma value_ind (P : value -> Prop) :
  P JNull -> (forall b, P (JBool b)) -> (forall lit, P (JNumber lit)) ->
  (forall s, P (JString s)) ->
  (forall l, Forall P l -> P (JArray l)) ->
  (forall m, Forall (fun kv => P (snd kv)) m -> P (JObject m)) ->
  forall v, P v.
Proof.
  intros Hnull Hbool Hnum Hstr Harr Hobj.
  fix IH 1. intros [| b | lit | s | l | m].
  - exact Hnull.
  - apply Hbool.
  - apply Hnum.
  - apply Hstr.
  - apply Harr. induction l as [| x l IHl]; constructor; [apply IH | exact IHl].
  - apply Hobj. induction m as [| [k x] m IHm]; constructor; [apply IH | exact IHm].
Qed.

Lemma span_length (p : ascii -> bool) (s a b : list ascii) :
  span p s = (a, b) -> (length b <= length s)%nat.
Proof.
  revert a b. induction s as [| c r IH]; intros a b H; cbn in H.
  - injection H as <- <-. cbn. lia.
  - destruct (p c).
    + destruct (span p r) as [a' b'] eqn:E. injection H as <- <-.
      specialize (IH _ _ eq_refl). cbn. lia.
    + injection H as <- <-. lia.
Qed.

Lemma span_cons_length (p : ascii -> bool) (c : ascii) (r a b : list ascii) :
  span p (c :: r) = (a, b) -> p c = true -> (length b <= length r)%nat.
Proof.
  cbn. intros H Hc. rewrite Hc in H. destruct (span p r) as [a' b'] eqn:E.
  injection H as <- <-. exact (span_length _ _ _ _ E).
Qed.

Lemma span_app (p : ascii -> bool) (l tail : list ascii) :
  forallb p l = true -> ends p tail -> span p (l ++ tail) = (l, tail).
Proof.
  intros Hl Ht. induction l as [| c l IH]; cbn.
  - destruct tail as [| c t]; [reflexivity |]. cbn in Ht. cbn. now rewrite Ht.
  - cbn in Hl. apply andb_true_iff in Hl as [Hc Hl]. now rewrite Hc, IH.
Qed.

Lemma scanToken_length (c : ascii) (r : list ascii) t rest :
  scanToken c r = Some (t, rest) -> (length rest <= length r)%nat.
Proof.
  unfold scanToken. intros H.
  repeat match type of H with
         | (if Ascii.eqb ?a ?b then _ else _) = _ =>
             destruct (Ascii.eqb a b); [injection H as <- <-; lia |]
         | (if isSpace ?a then _ else _) = _ =>
             destruct (isSpace a); [injection H as <- <-; lia |]
         end.
  destruct (Ascii.eqb c dquote).
  { destruct (unquote r) as [[str rest'] |] eqn:Hu; [| discriminate].
    injection H as <- <-. apply unquote_length in Hu. lia. }
  destruct (isDigit c || Ascii.eqb c "-"%char) eqn:Hd.
  { destruct (span isNumberChar (c :: r)) as [lit rest'] eqn:Hs.
    destruct (validNumber lit); [| discriminate]. injection H as <- <-.
    apply (span_cons_length _ _ _ _ _ Hs). unfold isNumberChar. now rewrite Hd. }
  destruct (isLetter c) eqn:Hl; [| discriminate].
  destruct (span isLetter (c :: r)) as [w rest'] eqn:Hs.
  destruct (word w); [| discriminate]. injection H as <- <-.
  apply (span_cons_length _ _ _ _ _ Hs Hl).
Qed.

(** Any fuel from the length of the text on gives the tokens. *)
Lemma lex_fuel (s : list ascii) (f : nat) :
  (length s <= f)%nat -> lex f s = lex (length s) s.
Proof.
  remember (length s) as n eqn:Hn. revert s f Hn.
  induction n as [n IH] using lt_wf_ind. intros s f Hn Hf.
  destruct s as [| c r]; [now destruct f; subst n |].
  cbn [length] in Hn. subst n. destruct f as [| f]; [lia |].
  cbn [lex]. destruct (scanToken c r) as [[t rest] |] eqn:Hs; [| reflexivity].
  apply scanToken_length in Hs.
  assert (E : lex f rest = lex (length r) rest).
  { rewrite (IH (length rest) ltac:(lia) rest f eq_refl ltac:(lia)).
    symmetry. apply (IH (length rest) ltac:(lia) rest (length r) eq_refl ltac:(lia)). }
  now rewrite E.
Qed.

(** The bound on the tokens is never reached. *)
Lemma lex_total (s : list ascii) : lex (length s) s <> OutOfFuel.
Proof.
  remember (length s) as n eqn:Hn. revert s Hn.
  induction n as [n IH] using lt_wf_ind. intros s Hn.
  destruct s as [| c r]; [subst n; discriminate |].
  cbn [length] in Hn. subst n. cbn [lex].
  destruct (scanToken c r) as [[t rest] |] eqn:Hs; [| discriminate].
  apply scanToken_length in Hs.
  rewrite (lex_fuel rest (length r) Hs).
  specialize (IH (length rest) ltac:(lia) rest eq_refl).
  destruct t; [destruct (lex (length rest) rest); cbn; congruence | exact IH].
Qed.

Lemma lexAll_cons (c : ascii) (r : list ascii) :
  lexAll (c :: r)
  = match scanToken c r with
    | None => SyntaxError
    | Some (None, rest) => lexAll rest
    | Some (Some t, rest) => omap (cons t) (lexAll rest)
    end.
Proof.
  unfold lexAll. cbn [length lex].
  destruct (scanToken c r) as [[t rest] |] eqn:Hs; [| reflexivity].
  apply scanToken_length in Hs. now rewrite (lex_fuel rest (length r) Hs).
Qed.

Lemma omap_omap {A B C : Type} (f : B -> C) (g : A -> B) (o : outcome A) :
  omap f (omap g o) = omap (fun x => f (g x)) o.
Proof. now destruct o. Qed.

Lemma omap_ext {A B : Type} (f g : A -> B) (o : outcome A) :
  (forall x, f x = g x) -> omap f o = omap g o.
Proof. intros H. destruct o; cbn; now rewrite ?H. Qed.

Lemma separated_nil : separated [].
Proof. split; exact I. Qed.

Lemma separated_punct (c : ascii) (r : list ascii) :
  isNumberChar c = false -> isLetter c = false -> separated (c :: r).
Proof. intros H1 H2. split; assumption. Qed.

Lemma scan_string (s : string) (tail : list ascii) :
  scanToken dquote (appendString (list_ascii_of_string s) ++ dquote :: tail)
  = Some (Some (TString (coerce s)), tail).
Proof.
  unfold scanToken. change (isSpace dquote) with false.
  change (Ascii.eqb dquote "{"%char) with false. change (Ascii.eqb dquote "}"%char) with false.
  change (Ascii.eqb dquote "["%char) with false. change (Ascii.eqb dquote "]"%char) with false.
  change (Ascii.eqb dquote ":"%char) with false. change (Ascii.eqb dquote ","%char) with false.
  change (Ascii.eqb dquote dquote) with true. cbn match.
  rewrite quote_unquote. now rewrite string_of_list_ascii_of_string.
Qed.

Lemma number_start (c : ascii) :
  isDigit c || Ascii.eqb c "-"%char = true ->
  scanToken c = fun r =>
    let '(lit, rest) := span isNumberChar (c :: r) in
    if validNumber lit then Some (Some (TNumber (string_of_list_ascii lit)), rest) else None.
Proof.
  intros H. unfold scanToken.
  destruct c as [[|] [|] [|] [|] [|] [|] [|] [|]]; try discriminate H; reflexivity.
Qed.

Lemma validNumber_start (c : ascii) (r : list ascii) :
  validNumber (c :: r) = true -> isDigit c || Ascii.eqb c "-"%char = true.
Proof.
  unfold validNumber, validInt. intros H.
  destruct (Ascii.eqb c "-"%char); [apply orb_true_r |].
  destruct (Ascii.eqb_spec c "0"%char) as [-> | _]; [reflexivity |].
  destruct (isDigit c); [reflexivity | discriminate].
Qed.

Lemma scan_number (lit : string) (tail : list ascii) :
  validNumber (list_ascii_of_string lit) = true ->
  forallb isNumberChar (list_ascii_of_string lit) = true ->
  ends isNumberChar tail ->
  exists c r, list_ascii_of_string lit ++ tail = c :: r
              /\ scanToken c r = Some (Some (TNumber lit), tail).
Proof.
  intros Hv Hn Ht.
  destruct (list_ascii_of_string lit) as [| c r] eqn:El; [discriminate |].
  exists c, (r ++ tail). split; [reflexivity |].
  rewrite (number_start c (validNumber_start _ _ Hv)).
  change (c :: r ++ tail) with ((c :: r) ++ tail).
  rewrite (span_app _ _ _ Hn Ht), Hv, <- El.
  now rewrite string_of_list_ascii_of_string.
Qed.

Lemma scan_word (w : string) (t : token) (c : ascii) (r tail : list ascii) :
  list_ascii_of_string w = c :: r ->
  forallb isLetter (c :: r) = true ->
  word (c :: r) = Some t ->
  ends isLetter tail ->
  scanToken c (r ++ tail) = Some (Some t, tail).
Proof.
  intros Hw Hl Ht He.
  assert (Hc : isLetter c = true) by (cbn in Hl; now apply andb_true_iff in Hl).
  assert (E : scanToken c = fun r0 =>
            let '(w0, rest) := span isLetter (c :: r0) in
            match word w0 with Some t0 => Some (Some t0, rest) | None => None end).
  { unfold scanToken.
    destruct c as [[|] [|] [|] [|] [|] [|] [|] [|]]; try discriminate Hc; reflexivity. }
  rewrite E. change (c :: r ++ tail) with ((c :: r) ++ tail).
  now rewrite (span_app _ _ _ Hl He), Ht.
Qed.

Lemma lex_join {A : Type} (pr : A -> list ascii) (tk : A -> list token)
  (close : ascii) (tclose : token) (l : list A) (tail : list ascii) :
  (forall r, scanToken close r = Some (Some tclose, r)) ->
  isNumberChar close = false -> isLetter close = false ->
  Forall (fun x => forall tail', separated tail' ->
            lexAll (pr x ++ tail') = omap (app (tk x)) (lexAll tail')) l ->
  lexAll (join [","%char] (map pr l) ++ close :: tail)
  = omap (app (join [TComma] (map tk l) ++ [tclose])) (lexAll tail).
Proof.
  intros Hclose Hn Hl HF.
  assert (Hend : lexAll (close :: tail) = omap (cons tclose) (lexAll tail))
    by (now rewrite lexAll_cons, Hclose).
  induction HF as [| x l Hx HF IH].
  - cbn [map join app]. exact Hend.
  - destruct l as [| y l].
    + cbn [map join]. rewrite Hx by (now apply separated_punct).
      rewrite Hend, omap_omap. apply omap_ext. intros ts.
      now rewrite <- app_assoc.
    + change (join [","%char] (map pr (x :: y :: l)))
        with (pr x ++ [","%char] ++ join [","%char] (map pr (y :: l))).
      change (join [TComma] (map tk (x :: y :: l)))
        with (tk x ++ [TComma] ++ join [TComma] (map tk (y :: l))).
      rewrite <- !app_assoc. rewrite Hx by (now apply separated_punct).
      cbn [app]. rewrite lexAll_cons.
      change (scanToken ","%char) with (fun r : list ascii => Some (Some TComma, r)).
      cbn beta iota. rewrite IH, !omap_omap. apply omap_ext. intros ts.
      rewrite <- ?app_assoc. cbn [app]. rewrite <- ?app_assoc. reflexivity.
Qed.

(** The tokens of a printed tree. *)
Lemma lex_print (v : value) :
  forall (budget : N) (tail : list ascii),
    readable budget v = true -> separated tail ->
    lexAll (print v ++ tail) = omap (app (tokens v)) (lexAll tail).
Proof.
  induction v as [| b | lit | s | l IH | m IH] using value_ind; intros budget tail Hr Hs.
  - cbn [print tokens]. change (list_ascii_of_string "null") with ("n"%char :: list_ascii_of_string "ull").
    cbn [app]. rewrite lexAll_cons.
    rewrite (scan_word "null" TNull) by (first [reflexivity | apply Hs]). reflexivity.
  - destruct b; cbn [print tokens].
    + change (list_ascii_of_string "true") with ("t"%char :: list_ascii_of_string "rue").
      cbn [app]. rewrite lexAll_cons.
      rewrite (scan_word "true" TTrue) by (first [reflexivity | apply Hs]). reflexivity.
    + change (list_ascii_of_string "false") with ("f"%char :: list_ascii_of_string "alse").
      cbn [app]. rewrite lexAll_cons.
      rewrite (scan_word "false" TFalse) by (first [reflexivity | apply Hs]). reflexivity.
  - cbn [readable] in Hr. apply andb_true_iff in Hr as [Hv Hn].
    destruct (scan_number lit tail Hv Hn (proj1 Hs)) as (c & r & E & Hscan).
    cbn [print tokens]. rewrite E, lexAll_cons, Hscan. reflexivity.
  - cbn [print tokens]. unfold quote. cbn [app]. rewrite <- app_assoc. cbn [app].
    rewrite lexAll_cons, scan_string. reflexivity.
  - cbn [readable] in Hr. apply andb_true_iff in Hr as [Hb Hr].
    cbn [print tokens app]. rewrite lexAll_cons.
    change (scanToken "["%char) with (fun r : list ascii => Some (Some TLBracket, r)).
    cbn beta iota. rewrite <- app_assoc. cbn [app].
    rewrite (lex_join print tokens "]"%char TRBracket); try reflexivity.
    + rewrite omap_omap. reflexivity.
    + rewrite forallb_forall in Hr. rewrite Forall_forall in IH |- *.
      intros x Hx tail' Hs'. apply (IH x Hx (budget - 1)); [apply Hr, list_elem_of_In, Hx | exact Hs'].
  - cbn [readable] in Hr. apply andb_true_iff in Hr as [Hb Hr].
    cbn [print tokens app]. rewrite lexAll_cons.
    change (scanToken "{"%char) with (fun r : list ascii => Some (Some TLBrace, r)).
    cbn beta iota. rewrite <- app_assoc. cbn [app].
    rewrite (lex_join (fun kv => quote (fst kv) ++ ":"%char :: print (snd kv))
               (fun kv => TString (coerce (fst kv)) :: TColon :: tokens (snd kv))
               "}"%char TRBrace); try reflexivity.
    + rewrite omap_omap. reflexivity.
    + rewrite forallb_forall in Hr. rewrite Forall_forall in IH |- *.
      intros [k x] Hx tail' Hs'. cbn [fst snd]. unfold quote. cbn [app].
      rewrite <- !app_assoc. cbn [app].
      rewrite lexAll_cons, scan_string, lexAll_cons.
      change (scanToken ":"%char) with (fun r : list ascii => Some (Some TColon, r)).
      cbn beta iota.
      rewrite (IH (k, x) Hx (budget - 1));
        [| apply (Hr (k, x)), list_elem_of_In, Hx | assumption].
      rewrite !omap_omap. reflexivity.
Qed.

End JsonLexFacts.

(** * Facts: the JSON reader on values *)

Module JsonParseFacts.
Import Json JsonStringFacts JsonLexFacts.
Import Notions.

Lemma omap_Ok {A B : Type} (f : A -> B) (o : outcome A) (b : B) :
  omap f o = Ok b -> exists a, o = Ok a /\ b = f a.
Proof. destruct o; cbn; intros H; try discriminate. injection H as <-. eauto. Qed.

(** A value takes at least one token. *)
Lemma parse_consumes (fuel : nat) :
  (forall d ts v r, parse_value fuel d ts = Ok (v, r) -> (length r < length ts)%nat)
  /\ (forall d ts l r, parse_elements fuel d ts = Ok (l, r) -> (length r < length ts)%nat)
  /\ (forall d ts m r, parse_members fuel d ts = Ok (m, r) -> (length r < length ts)%nat).
Proof.
  induction fuel as [| fuel (IHv & IHe & IHm)].
  { repeat split; intros; discriminate. }
  repeat split.
  - intros d ts v r H. cbn [parse_value] in H.
    destruct ts as [| t ts]; [discriminate |].
    destruct t; try discriminate; try (injection H as <- <-; cbn; lia).
    + destruct (maxNestingDepth <=? d); [discriminate |].
      destruct ts as [| t' ts']; [| destruct t'];
        try (injection H as <- <-; cbn; lia);
        apply omap_Ok in H as ([m r'] & H & E); injection E as -> ->;
        apply IHm in H; cbn in *; lia.
    + destruct (maxNestingDepth <=? d); [discriminate |].
      destruct ts as [| t' ts']; [| destruct t'];
        try (injection H as <- <-; cbn; lia);
        apply omap_Ok in H as ([m r'] & H & E); injection E as -> ->;
        apply IHe in H; cbn in *; lia.
  - intros d ts l r H. cbn [parse_elements] in H.
    destruct (parse_value fuel d ts) as [[v r0] | |] eqn:Hv; try discriminate.
    apply IHv in Hv.
    destruct r0 as [| t r0]; [discriminate |].
    destruct t; try discriminate.
    + injection H as <- <-. cbn in *. lia.
    + apply omap_Ok in H as ([l' r'] & H & E). injection E as -> ->.
      apply IHe in H. cbn in *. lia.
  - intros d ts m r H. cbn [parse_members] in H.
    destruct ts as [| t ts]; [discriminate |]. destruct t; try discriminate.
    destruct ts as [| t ts]; [discriminate |]. destruct t; try discriminate.
    destruct (parse_value fuel d ts) as [[v r0] | |] eqn:Hv; try discriminate.
    apply IHv in Hv.
    destruct r0 as [| t r0]; [discriminate |].
    destruct t; try discriminate.
    + injection H as <- <-. cbn in *. lia.
    + apply omap_Ok in H as ([l' r'] & H & E). injection E as -> ->.
      apply IHm in H. cbn in *. lia.
Qed.

Lemma omap_OutOfFuel {A B : Type} (f : A -> B) (o : outcome A) :
  omap f o = OutOfFuel -> o = OutOfFuel.
Proof. now destruct o. Qed.

(** The bound on the values is never reached. *)
Lemma parse_fuel (fuel : nat) :
  (forall d ts, (2 * length ts < fuel)%nat -> parse_value fuel d ts <> OutOfFuel)
  /\ (forall d ts, (2 * length ts + 1 < fuel)%nat -> parse_elements fuel d ts <> OutOfFuel)
  /\ (forall d ts, (2 * length ts + 1 < fuel)%nat -> parse_members fuel d ts <> OutOfFuel).
Proof.
  induction fuel as [| fuel (IHv & IHe & IHm)].
  { repeat split; intros; lia. }
  repeat split.
  - intros d ts Hf H. cbn [parse_value] in H.
    destruct ts as [| t ts]; [discriminate |].
    destruct t; try discriminate.
    + destruct (maxNestingDepth <=? d); [discriminate |].
      destruct ts as [| t' ts']; [| destruct t']; try discriminate;
        apply omap_OutOfFuel in H; revert H; apply IHm; cbn in *; lia.
    + destruct (maxNestingDepth <=? d); [discriminate |].
      destruct ts as [| t' ts']; [| destruct t']; try discriminate;
        apply omap_OutOfFuel in H; revert H; apply IHe; cbn in *; lia.
  - intros d ts Hf H. cbn [parse_elements] in H.
    destruct (parse_value fuel d ts) as [[v r0] | |] eqn:Hv; try discriminate.
    + apply (proj1 (parse_consumes fuel)) in Hv.
      destruct r0 as [| t r0]; [discriminate |]. destruct t; try discriminate.
      apply omap_OutOfFuel in H. revert H. apply IHe. cbn in *. lia.
    + revert Hv. apply IHv. lia.
  - intros d ts Hf H. cbn [parse_members] in H.
    destruct ts as [| t ts]; [discriminate |]. destruct t; try discriminate.
    destruct ts as [| t ts]; [discriminate |]. destruct t; try discriminate.
    destruct (parse_value fuel d ts) as [[v r0] | |] eqn:Hv; try discriminate.
    + apply (proj1 (parse_consumes fuel)) in Hv.
      destruct r0 as [| t r0]; [discriminate |]. destruct t; try discriminate.
      apply omap_OutOfFuel in H. revert H. apply IHm. cbn in *. lia.
    + revert Hv. apply IHv. cbn in *. lia.
Qed.

(** [parse] never gives up for lack of fuel: [None] is a syntax error. *)
Lemma parse_outcome_total (data : list ascii) : parse_outcome data <> OutOfFuel.
Proof.
  unfold parse_outcome. pose proof (lex_total data) as Hl.
  destruct (lex (length data) data) as [ts | |]; try congruence.
  pose proof (proj1 (parse_fuel (2 * length ts + 1)) 0 ts ltac:(lia)) as Hp.
  destruct (parse_value _ 0 ts) as [[v [| t r]] | |]; congruence.
Qed.

Lemma tokens_head (v : value) :
  exists t ts, tokens v = t :: ts /\ t <> TRBracket /\ t <> TRBrace.
Proof.
  destruct v as [| [|] | lit | s | l | m]; cbn [tokens]; eauto 6.
Qed.

Lemma tokens_length (v : value) : (0 < length (tokens v))%nat.
Proof. destruct (tokens_head v) as (t & ts & -> & _). cbn. lia. Qed.

Lemma parse_elements_tokens (budget d : N) (l : list value) (rest : list token) :
  Forall (reads budget) l -> forallb (readable budget) l = true -> budget + d <= 10000 ->
  l <> [] ->
  forall fuel, (2 * length (join [TComma] (map tokens l)) + 1 < fuel)%nat ->
    parse_elements fuel d (join [TComma] (map tokens l) ++ TRBracket :: rest)
    = Ok (map coerceValue l, rest).
Proof.
  intros HF. induction HF as [| x l Hx HF IH]; intros Hr Hd Hne fuel Hf; [congruence |].
  cbn [forallb] in Hr. apply andb_true_iff in Hr as [Hrx Hr].
  destruct fuel as [| fuel]; [lia |].
  destruct l as [| y l].
  - cbn [map join] in *. cbn [parse_elements].
    rewrite (Hx d _ fuel Hrx Hd) by lia. reflexivity.
  - change (join [TComma] (map tokens (x :: y :: l)))
      with (tokens x ++ [TComma] ++ join [TComma] (map tokens (y :: l))) in *.
    rewrite <- !app_assoc. cbn [parse_elements].
    rewrite !length_app in Hf. cbn [length] in Hf.
    rewrite (Hx d _ fuel Hrx Hd) by lia. cbn [app].
    rewrite IH; [reflexivity | exact Hr | exact Hd | discriminate |].
    pose proof (tokens_length x). lia.
Qed.

Lemma parse_members_tokens (budget d : N) (m : list (string * value)) (rest : list token) :
  Forall (fun kv => reads budget (snd kv)) m ->
  forallb (fun kv => readable budget (snd kv)) m = true -> budget + d <= 10000 ->
  m <> [] ->
  forall fuel, (2 * length (join [TComma] (map member_tokens m)) + 1 < fuel)%nat ->
    parse_members fuel d (join [TComma] (map member_tokens m) ++ TRBrace :: rest)
    = Ok (map (fun kv => (coerce (fst kv), coerceValue (snd kv))) m, rest).
Proof.
  intros HF. induction HF as [| [k x] m Hx HF IH]; intros Hr Hd Hne fuel Hf; [congruence |].
  cbn [forallb fst snd] in Hr, Hx. apply andb_true_iff in Hr as [Hrx Hr].
  destruct fuel as [| fuel]; [lia |].
  destruct m as [| y m].
  - cbn [map join member_tokens fst snd app] in *. cbn [parse_members].
    unfold member_tokens in Hf. cbn [length fst snd] in Hf.
    rewrite (Hx d _ fuel Hrx Hd) by lia. reflexivity.
  - change (join [TComma] (map member_tokens ((k, x) :: y :: m)))
      with (member_tokens (k, x) ++ [TComma] ++ join [TComma] (map member_tokens (y :: m)))
      in *.
    unfold member_tokens at 1. unfold member_tokens at 1 in Hf. cbn [fst snd app] in *.
    rewrite <- !app_assoc. cbn [parse_members].
    cbn [length] in Hf. rewrite !length_app in Hf. cbn [length] in Hf.
    rewrite (Hx d _ fuel Hrx Hd) by lia. cbn [app].
    rewrite IH; [reflexivity | exact Hr | exact Hd | discriminate |].
    lia.
Qed.

(** The reader builds from the tokens of a tree the tree with its strings
    coerced. *)
Lemma parse_tokens (v : value) (budget : N) : reads budget v.
Proof.
  revert budget.
  induction v as [| b | lit | s | l IH | m IH] using value_ind;
    intros budget d rest fuel Hr Hd Hf; (destruct fuel as [| fuel]; [lia |]).
  - reflexivity.
  - destruct b; reflexivity.
  - reflexivity.
  - reflexivity.
  - cbn [readable] in Hr. apply andb_true_iff in Hr as [Hb Hr]. apply N.ltb_lt in Hb.
    cbn [tokens app parse_value coerceValue].
    replace (maxNestingDepth <=? d) with false
      by (symmetry; apply N.leb_gt; unfold maxNestingDepth; lia).
    destruct l as [| x l]; [reflexivity |].
    remember (join [TComma] (map tokens (x :: l))) as ts eqn:Ets.
    assert (Hhead : exists t ts', ts = t :: ts' /\ t <> TRBracket).
    { subst ts. destruct (tokens_head x) as (t & ts0 & E & Hn & _).
      destruct l; cbn [map join]; rewrite E; cbn [app]; eauto. }
    rewrite <- app_assoc. cbn [app].
    assert (Hp : parse_elements fuel (N.succ d) (ts ++ TRBracket :: rest)
                 = Ok (map coerceValue (x :: l), rest)).
    { subst ts. apply (parse_elements_tokens (budget - 1)).
      - eapply Forall_impl; [exact IH |]. cbn beta. intros y Hy. apply Hy.
      - exact Hr.
      - lia.
      - discriminate.
      - cbn [tokens length] in Hf. rewrite length_app in Hf. cbn [length] in Hf. lia. }
    destruct Hhead as (t & ts' & -> & Hn). cbn [app] in *.
    rewrite Hp. destruct t; try reflexivity. congruence.
  - cbn [readable] in Hr. apply andb_true_iff in Hr as [Hb Hr]. apply N.ltb_lt in Hb.
    cbn [tokens app parse_value coerceValue].
    replace (maxNestingDepth <=? d) with false
      by (symmetry; apply N.leb_gt; unfold maxNestingDepth; lia).
    destruct m as [| [k x] m]; [reflexivity |].
    change (fun kv : string * value => TString (coerce (fst kv)) :: TColon :: tokens (snd kv))
      with member_tokens in *.
    remember (join [TComma] (map member_tokens ((k, x) :: m))) as ts eqn:Ets.
    assert (Hhead : exists ts', ts = TString (coerce k) :: ts').
    { subst ts. destruct m; cbn [map join member_tokens fst app]; eauto. }
    rewrite <- app_assoc. cbn [app].
    assert (Hp : parse_members fuel (N.succ d) (ts ++ TRBrace :: rest)
                 = Ok (map (fun kv => (coerce (fst kv), coerceValue (snd kv))) ((k, x) :: m),
                       rest)).
    { subst ts. apply (parse_members_tokens (budget - 1)).
      - eapply Forall_impl; [exact IH |]. cbn beta. intros y Hy. apply Hy.
      - exact Hr.
      - lia.
      - discriminate.
      - cbn [tokens length] in Hf.
        change (fun kv : string * value =>
                  TString (coerce (fst kv)) :: TColon :: tokens (snd kv))
          with member_tokens in Hf.
        rewrite length_app in Hf. cbn [length] in Hf. lia. }
    destruct Hhead as (ts' & ->). cbn [app] in *.
    rewrite Hp. reflexivity.
Qed.

(** Reading the text of a tree gives the tree with its strings coerced. *)
Lemma parse_print (v : value) :
  readable 10000 v = true -> parse (print v) = Some (coerceValue v).
Proof.
  intros Hr. unfold parse, parse_outcome.
  pose proof (lex_print v 10000 [] Hr separated_nil) as Hl.
  rewrite app_nil_r in Hl. unfold lexAll in Hl. rewrite Hl.
  change (lex (length []) []) with (@Ok (list token) []). cbn [omap].
  assert (Hf : (2 * length (tokens v) < 2 * length (tokens v ++ []) + 1)%nat)
    by (rewrite length_app; cbn; lia).
  rewrite (parse_tokens v 10000 0 [] _ Hr ltac:(lia) Hf). reflexivity.
Qed.

End JsonParseFacts.

(** * Facts: numbers *)

Module StrconvFacts.
Import DecimalPos DecimalFacts.
Import Json JsonLexFacts Strconv.
Import Notions.

Lemma to_uint_nonnil (n : N) : N.to_uint n <> Decimal.Nil.
Proof.
  destruct n as [| p]; [discriminate |]. apply DecimalPos.Unsigned.to_uint_nonnil.
Qed.

(** A number of 64 bits comes back from its decimal form. *)
Lemma ParseUint_FormatUint (n : N) : n < 2 ^ 64 -> ParseUint (FormatUint n) = Some n.
Proof.
  intros H. unfold ParseUint, FormatUint.
  rewrite NilZero.usu by apply to_uint_nonnil.
  rewrite DecimalN.Unsigned.of_to.
  destruct (N.ltb_spec n (2 ^ 64)); [reflexivity | lia].
Qed.

Lemma digits_of_uint (d : Decimal.uint) :
  forallb isDigit (list_ascii_of_string (NilEmpty.string_of_uint d)) = true.
Proof. induction d; cbn; auto. Qed.

Lemma isDigit_isNumberChar (l : list ascii) :
  forallb isDigit l = true -> forallb isNumberChar l = true.
Proof.
  induction l as [| c l IH]; [reflexivity |]. cbn. intros H.
  apply andb_true_iff in H as [Hc Hl]. unfold isNumberChar at 1. now rewrite Hc, IH.
Qed.

Lemma nzhead_head (d : Decimal.uint) :
  match Decimal.nzhead d with Decimal.D0 _ => False | _ => True end.
Proof. induction d; cbn; auto. Qed.

Lemma validNumber_digits (c : ascii) (l : list ascii) :
  isDigit c = true -> c <> "0"%char -> forallb isDigit l = true ->
  validNumber (c :: l) = true.
Proof.
  intros Hc H0 Hl. unfold validNumber.
  assert (Hm : Ascii.eqb c "-"%char = false).
  { apply Ascii.eqb_neq. intros ->. discriminate Hc. }
  rewrite Hm. unfold validInt.
  replace (Ascii.eqb c "0"%char) with false by (symmetry; now apply Ascii.eqb_neq).
  rewrite Hc. rewrite <- (List.app_nil_r l), (span_app isDigit l []) by (assumption || exact I).
  reflexivity.
Qed.

Lemma validNumber_of_uint (d : Decimal.uint) :
  d <> Decimal.Nil -> Decimal.unorm d = d ->
  validNumber (list_ascii_of_string (NilEmpty.string_of_uint d)) = true.
Proof.
  intros Hnil Hnorm. unfold Decimal.unorm in Hnorm.
  pose proof (nzhead_head d) as Hh. pose proof (digits_of_uint d) as Hd.
  destruct (Decimal.nzhead d) eqn:E.
  - subst d. reflexivity.
  - contradiction.
  - subst d; cbn [NilEmpty.string_of_uint list_ascii_of_string forallb] in Hd |- *;
      apply andb_true_iff in Hd as [_ Hd];
      apply validNumber_digits; (reflexivity || discriminate || exact Hd).
  - subst d; cbn [NilEmpty.string_of_uint list_ascii_of_string forallb] in Hd |- *;
      apply andb_true_iff in Hd as [_ Hd];
      apply validNumber_digits; (reflexivity || discriminate || exact Hd).
  - subst d; cbn [NilEmpty.string_of_uint list_ascii_of_string forallb] in Hd |- *;
      apply andb_true_iff in Hd as [_ Hd];
      apply validNumber_digits; (reflexivity || discriminate || exact Hd).
  - subst d; cbn [NilEmpty.string_of_uint list_ascii_of_string forallb] in Hd |- *;
      apply andb_true_iff in Hd as [_ Hd];
      apply validNumber_digits; (reflexivity || discriminate || exact Hd).
  - subst d; cbn [NilEmpty.string_of_uint list_ascii_of_string forallb] in Hd |- *;
      apply andb_true_iff in Hd as [_ Hd];
      apply validNumber_digits; (reflexivity || discriminate || exact Hd).
  - subst d; cbn [NilEmpty.string_of_uint list_ascii_of_string forallb] in Hd |- *;
      apply andb_true_iff in Hd as [_ Hd];
      apply validNumber_digits; (reflexivity || discriminate || exact Hd).
  - subst d; cbn [NilEmpty.string_of_uint list_ascii_of_string forallb] in Hd |- *;
      apply andb_true_iff in Hd as [_ Hd];
      apply validNumber_digits; (reflexivity || discriminate || exact Hd).
  - subst d; cbn [NilEmpty.string_of_uint list_ascii_of_string forallb] in Hd |- *;
      apply andb_true_iff in Hd as [_ Hd];
      apply validNumber_digits; (reflexivity || discriminate || exact Hd).
  - subst d; cbn [NilEmpty.string_of_uint list_ascii_of_string forallb] in Hd |- *;
      apply andb_true_iff in Hd as [_ Hd];
      apply validNumber_digits; (reflexivity || discriminate || exact Hd).
Qed.

Lemma string_of_uint_nonnil (d : Decimal.uint) :
  d <> Decimal.Nil -> NilZero.string_of_uint d = NilEmpty.string_of_uint d.
Proof. now destruct d. Qed.

(** The decimal form of a number is a literal of the JSON grammar. *)
Lemma readable_encodeUint64 (budget n : N) : readable budget (encodeUint64 n) = true.
Proof.
  unfold encodeUint64, FormatUint. cbn [readable].
  rewrite string_of_uint_nonnil by apply to_uint_nonnil.
  apply andb_true_iff. split.
  - apply validNumber_of_uint; [apply to_uint_nonnil |].
    rewrite <- (DecimalN.Unsigned.of_to n) at 2.
    symmetry. apply DecimalN.Unsigned.to_of.
  - apply isDigit_isNumberChar, digits_of_uint.
Qed.

End StrconvFacts.

(** * Facts: storing values into structs *)

Module JsonStoreFacts.
Import Json JsonStringFacts JsonLexFacts JsonParseFacts StrconvFacts.
Import Notions.

Lemma storeFields_app {T : Type} names (set : string -> value -> T -> T + Json.error)
  (l1 l2 : list (string * value)) (acc : T) :
  storeFields names set (l1 ++ l2) acc
  = match storeFields names set l1 acc with
    | inl a => storeFields names set l2 a
    | inr e => inr e
    end.
Proof.
  revert acc. induction l1 as [| [k v] l1 IH]; intros acc; [reflexivity |].
  cbn [app storeFields]. destruct (findField names k) as [f |]; [| apply IH].
  destruct (set f v acc); [apply IH | reflexivity].
Qed.

Lemma storeElements_strings (l old : list string) :
  storeElements (map JString l) old = inl l.
Proof.
  revert old. induction l as [| x l IH]; intros old; [reflexivity |].
  cbn [map storeElements storeString]. now rewrite IH.
Qed.

Lemma storeMembers_entries (l : list (string * string)) (acc : gmap string string) :
  storeMembers (map entry l) acc = inl (list_to_map (rev l) ∪ acc).
Proof.
  revert acc. induction l as [| [k v] l IH]; intros acc.
  - cbn. now rewrite (left_id_L ∅ (∪)).
  - cbn [map entry fst snd storeMembers storeString]. rewrite IH. f_equal.
    cbn [rev]. rewrite list_to_map_app. cbn [list_to_map foldr fst snd uncurry].
    rewrite <- (assoc_L (∪)). f_equal.
    rewrite insert_empty. now rewrite <- insert_union_singleton_l.
Qed.

Lemma list_to_map_sorted (m : gmap string string) :
  list_to_map (rev (merge_sort keyLe (map_to_list m))) = m.
Proof.
  rewrite <- (list_to_map_to_list m) at 2.
  apply list_to_map_proper.
  - rewrite <- Permutation_rev, merge_sort_Permutation. apply NoDup_fst_map_to_list.
  - now rewrite <- Permutation_rev, merge_sort_Permutation.
Qed.

(** A map comes back from the object it is written as. *)
Lemma storeStringMap_encode (m : option (gmap string string)) :
  storeStringMap (encodeStringMap m) None = inl m.
Proof.
  destruct m as [m |]; [| reflexivity].
  cbn [encodeStringMap storeStringMap default].
  change (fun kv : string * string => (fst kv, JString (snd kv))) with entry.
  rewrite storeMembers_entries, list_to_map_sorted.
  now rewrite (right_id_L ∅ (∪)).
Qed.

End JsonStoreFacts.

Module CodecFacts.
Import Json JsonStringFacts JsonLexFacts JsonParseFacts StrconvFacts JsonStoreFacts.
Import Notions.

Lemma coerceValue_valid (v : value) : validUTF8 v = true -> coerceValue v = v.
Proof.
  induction v as [| b | lit | s | l IH | m IH] using value_ind; intros H;
    cbn [coerceValue validUTF8] in *; try reflexivity.
  - now rewrite coerce_valid.
  - f_equal. induction IH as [| x l Hx _ IHl]; [reflexivity |].
    cbn [forallb] in H. apply andb_true_iff in H as [H1 H2].
    cbn [map]. now rewrite Hx, IHl.
  - f_equal. induction IH as [| [k x] m Hx _ IHm]; [reflexivity |].
    cbn [forallb fst snd] in H, Hx.
    apply andb_true_iff in H as [H1 H2]. apply andb_true_iff in H1 as [Hk H1].
    cbn [map fst snd]. now rewrite (coerce_valid k Hk), Hx, IHm.
Qed.

Lemma storeUint64_encode (n old : N) : n < 2 ^ 64 -> storeUint64 (encodeUint64 n) old = inl n.
Proof. intros H. unfold storeUint64, encodeUint64. now rewrite ParseUint_FormatUint. Qed.

Lemma storeFields_cons {T : Type} names (set : string -> value -> T -> T + Json.error)
  (k f : string) (v : value) (r : list (string * value)) (acc acc' : T) :
  findField names k = Some f -> set f v acc = inl acc' ->
  storeFields names set ((k, v) :: r) acc = storeFields names set r acc'.
Proof. intros Hf Hs. cbn [storeFields]. now rewrite Hf, Hs. Qed.

(** *** [DmVerityInfo] *)

Lemma DmVerityInfo_members (d : DmVerityInfo.t) :
  DmVerityInfo.encode d
  = JObject [("hashtype", JString (DmVerityInfo.HashType d));
             ("hash", JString (DmVerityInfo.Hash d));
             ("blocknum", encodeUint64 (DmVerityInfo.BlockNum d));
             ("blocksize", encodeUint64 (DmVerityInfo.Blocksize d));
             ("hashsize", encodeUint64 (DmVerityInfo.Hashsize d));
             ("offset", encodeUint64 (DmVerityInfo.Offset d))].
Proof. reflexivity. Qed.

Lemma DmVerityInfo_store (d : DmVerityInfo.t) :
  DmVerityInfo.inRange d = true ->
  storePointer DmVerityInfo.zero DmVerityInfo.names DmVerityInfo.set
    (DmVerityInfo.encode d) None = inl (Some d).
Proof.
  destruct d as [ht h bn bs hs off]. unfold DmVerityInfo.inRange.
  intros H. cbn in H. repeat (apply andb_true_iff in H as [H ?]).
  repeat match goal with Hx : (_ <? _) = true |- _ => apply N.ltb_lt in Hx end.
  unfold storePointer, DmVerityInfo.encode.
  cbn [default DmVerityInfo.zero DmVerityInfo.HashType DmVerityInfo.Hash DmVerityInfo.BlockNum
       DmVerityInfo.Blocksize DmVerityInfo.Hashsize DmVerityInfo.Offset].
  erewrite storeFields_cons; [| reflexivity | reflexivity].
  erewrite storeFields_cons; [| reflexivity | reflexivity].
  erewrite storeFields_cons;
    [| reflexivity | unfold DmVerityInfo.set; cbn -[encodeUint64 storeUint64];
                     rewrite storeUint64_encode by assumption; reflexivity].
  erewrite storeFields_cons;
    [| reflexivity | unfold DmVerityInfo.set; cbn -[encodeUint64 storeUint64];
                     rewrite storeUint64_encode by assumption; reflexivity].
  erewrite storeFields_cons;
    [| reflexivity | unfold DmVerityInfo.set; cbn -[encodeUint64 storeUint64];
                     rewrite storeUint64_encode by assumption; reflexivity].
  erewrite storeFields_cons;
    [| reflexivity | unfold DmVerityInfo.set; cbn -[encodeUint64 storeUint64];
                     rewrite storeUint64_encode by assumption; reflexivity].
  reflexivity.
Qed.

Lemma DmVerityInfo_readable (d : DmVerityInfo.t) :
  readable 9999 (DmVerityInfo.encode d) = true.
Proof.
  unfold DmVerityInfo.encode. cbn [readable forallb snd].
  rewrite !readable_encodeUint64. reflexivity.
Qed.

Lemma DmVerityInfo_validUTF8 (d : DmVerityInfo.t) :
  DmVerityInfo.validUTF8 d = true -> validUTF8 (DmVerityInfo.encode d) = true.
Proof.
  unfold DmVerityInfo.validUTF8, DmVerityInfo.encode. intros H.
  apply andb_true_iff in H as [H1 H2].
  cbn [validUTF8 forallb fst snd encodeUint64]. rewrite H1, H2. reflexivity.
Qed.

(** *** Maps and the payloads *)

Lemma readable_entries (budget : N) (l : list (string * string)) :
  forallb (fun kv => readable budget (snd kv)) (map entry l) = true.
Proof. induction l as [| kv l IH]; [reflexivity |]. cbn. exact IH. Qed.

Lemma readable_encodeStringMap (budget : N) (m : option (gmap string string)) :
  0 < budget -> readable budget (encodeStringMap m) = true.
Proof.
  intros Hb. destruct m as [m |]; [| reflexivity].
  cbn [encodeStringMap readable].
  change (fun kv : string * string => (fst kv, JString (snd kv))) with entry.
  rewrite readable_entries. apply andb_true_iff. split; [now apply N.ltb_lt | reflexivity].
Qed.

Lemma validUTF8_entries (l : list (string * string)) :
  forallb (fun kv => Utf8.ValidString (fst kv) && validUTF8 (snd kv)) (map entry l)
  = forallb (fun kv => Utf8.ValidString (fst kv) && Utf8.ValidString (snd kv)) l.
Proof. induction l as [| kv l IH]; [reflexivity |]. cbn. now rewrite IH. Qed.

Lemma forallb_Permutation {A : Type} (p : A -> bool) (l1 l2 : list A) :
  l1 ≡ₚ l2 -> forallb p l1 = true -> forallb p l2 = true.
Proof.
  intros HP. rewrite !forallb_forall. intros H x Hx. apply H.
  apply list_elem_of_In. rewrite HP. now apply list_elem_of_In.
Qed.

Lemma validUTF8_encodeStringMap (m : option (gmap string string)) :
  validUTF8Map m = true -> validUTF8 (encodeStringMap m) = true.
Proof.
  destruct m as [m |]; [| reflexivity]. cbn [validUTF8Map encodeStringMap validUTF8].
  change (fun kv : string * string => (fst kv, JString (snd kv))) with entry.
  rewrite validUTF8_entries. apply forallb_Permutation.
  symmetry. apply merge_sort_Permutation.
Qed.

Lemma DirectAssignedVolume_store (d : DirectAssignedVolume.t) :
  storePointer DirectAssignedVolume.zero DirectAssignedVolume.names DirectAssignedVolume.set
    (DirectAssignedVolume.encode d) None = inl (Some d).
Proof.
  destruct d as [m]. unfold storePointer, DirectAssignedVolume.encode.
  cbn [default DirectAssignedVolume.zero DirectAssignedVolume.Metadata].
  erewrite storeFields_cons;
    [| reflexivity
     | unfold DirectAssignedVolume.set; cbn -[encodeStringMap storeStringMap];
       rewrite storeStringMap_encode; reflexivity].
  reflexivity.
Qed.

Lemma ImagePullVolume_store (d : ImagePullVolume.t) :
  storePointer ImagePullVolume.zero ImagePullVolume.names ImagePullVolume.set
    (ImagePullVolume.encode d) None = inl (Some d).
Proof.
  destruct d as [m]. unfold storePointer, ImagePullVolume.encode.
  cbn [default ImagePullVolume.zero ImagePullVolume.Metadata].
  erewrite storeFields_cons;
    [| reflexivity
     | unfold ImagePullVolume.set; cbn -[encodeStringMap storeStringMap];
       rewrite storeStringMap_encode; reflexivity].
  reflexivity.
Qed.

Lemma NydusImageVolume_store (n : NydusImageVolume.t) :
  storePointer NydusImageVolume.zero NydusImageVolume.names NydusImageVolume.set
    (NydusImageVolume.encode n) None = inl (Some n).
Proof. destruct n as [c s]. reflexivity. Qed.

(** *** [KataVirtualVolume] *)

Import KataVirtualVolume.

Lemma omitemptyString_store (name f : string) (s : string) (acc acc' : t) :
  findField names name = Some f ->
  String.eqb s "" = true -> acc' = acc ->
  storeFields names set (omitemptyString name s) acc = inl acc'.
Proof. intros _ Hs ->. unfold omitemptyString. now rewrite Hs. Qed.

Lemma store_volume (k : t) :
  inRange k = true ->
  storeStruct names set (encode k) zero = inl (transported k).
Proof.
  destruct k as [vt src fst opts dv ip ni dm]. unfold inRange, transported, encode.
  cbn [VolumeType Source FSType Options DirectVolume ImagePull NydusImage DmVerity].
  intros Hr. unfold storeStruct.
  rewrite storeFields_app.
  erewrite storeFields_cons; [| reflexivity | reflexivity].
  cbn [storeFields zero VolumeType Source FSType Options DirectVolume ImagePull NydusImage
       DmVerity].
  (* source *)
  assert (H1 : storeFields names set (omitemptyString "source" src)
                 (mk vt "" "" None None None None None)
               = inl (mk vt src "" None None None None None)).
  { unfold omitemptyString. destruct (String.eqb_spec src "") as [-> | _]; reflexivity. }
  rewrite storeFields_app, H1.
  assert (H2 : storeFields names set (omitemptyString "fs_type" fst)
                 (mk vt src "" None None None None None)
               = inl (mk vt src fst None None None None None)).
  { unfold omitemptyString. destruct (String.eqb_spec fst "") as [-> | _]; reflexivity. }
  rewrite storeFields_app, H2.
  assert (H3 : storeFields names set
                 match opts with
                 | Some (x :: l) => [("options", encodeStringSlice (x :: l))]
                 | _ => []
                 end (mk vt src fst None None None None None)
               = inl (mk vt src fst
                         match opts with Some (x :: l) => Some (x :: l) | _ => None end
                         None None None None)).
  { destruct opts as [[| x l] |]; try reflexivity.
    erewrite storeFields_cons;
      [reflexivity | reflexivity
       | unfold set; cbn -[encodeStringSlice storeStringSlice];
         unfold storeStringSlice, encodeStringSlice;
         rewrite storeElements_strings; reflexivity]. }
  rewrite storeFields_app, H3. set (o := match opts with Some (x :: l) => Some (x :: l) | _ => None end).
  assert (H4 : storeFields names set
                 (omitemptyPointer "direct_volume" DirectAssignedVolume.encode dv)
                 (mk vt src fst o None None None None)
               = inl (mk vt src fst o dv None None None)).
  { destruct dv as [d |]; [| reflexivity]. cbn [omitemptyPointer].
    erewrite storeFields_cons;
      [reflexivity | reflexivity
       | unfold set; cbn -[storePointer DirectAssignedVolume.encode];
         rewrite DirectAssignedVolume_store; reflexivity]. }
  rewrite storeFields_app, H4.
  assert (H5 : storeFields names set
                 (omitemptyPointer "image_pull" ImagePullVolume.encode ip)
                 (mk vt src fst o dv None None None)
               = inl (mk vt src fst o dv ip None None)).
  { destruct ip as [d |]; [| reflexivity]. cbn [omitemptyPointer].
    erewrite storeFields_cons;
      [reflexivity | reflexivity
       | unfold set; cbn -[storePointer ImagePullVolume.encode];
         rewrite ImagePullVolume_store; reflexivity]. }
  rewrite storeFields_app, H5.
  assert (H6 : storeFields names set
                 (omitemptyPointer "nydus_image" NydusImageVolume.encode ni)
                 (mk vt src fst o dv ip None None)
               = inl (mk vt src fst o dv ip ni None)).
  { destruct ni as [d |]; [| reflexivity]. cbn [omitemptyPointer].
    erewrite storeFields_cons;
      [reflexivity | reflexivity
       | unfold set; cbn -[storePointer NydusImageVolume.encode];
         rewrite NydusImageVolume_store; reflexivity]. }
  rewrite storeFields_app, H6.
  destruct dm as [d |]; [| reflexivity].
  cbn [omitemptyPointer].
  erewrite storeFields_cons;
    [reflexivity | reflexivity
     | unfold set; cbn -[storePointer DmVerityInfo.encode];
       rewrite DmVerityInfo_store by exact Hr; reflexivity].
Qed.

Lemma forallb_app_true {A : Type} (p : A -> bool) (l1 l2 : list A) :
  forallb p l1 = true -> forallb p l2 = true -> forallb p (l1 ++ l2) = true.
Proof. intros H1 H2. rewrite forallb_app. now rewrite H1, H2. Qed.

Lemma readable_volume (k : t) : readable 10000 (encode k) = true.
Proof.
  unfold encode. cbn [readable]. apply andb_true_iff. split; [reflexivity |].
  change (10000 - 1) with 9999.
  repeat apply forallb_app_true.
  - reflexivity.
  - unfold omitemptyString. now destruct (String.eqb (Source k) "").
  - unfold omitemptyString. now destruct (String.eqb (FSType k) "").
  - destruct (Options k) as [[| x l] |]; try reflexivity.
    cbn [forallb snd encodeStringSlice readable]. rewrite andb_true_r.
    change (9999 - 1) with 9998. generalize (x :: l). intros l'.
    induction l' as [| y l' IH]; [reflexivity | exact IH].
  - destruct (DirectVolume k) as [d |]; [| reflexivity].
    cbn -[encodeStringMap]. now rewrite readable_encodeStringMap.
  - destruct (ImagePull k) as [d |]; [| reflexivity].
    cbn -[encodeStringMap]. now rewrite readable_encodeStringMap.
  - now destruct (NydusImage k).
  - destruct (DmVerity k) as [d |]; [| reflexivity].
    cbn [omitemptyPointer forallb snd]. now rewrite DmVerityInfo_readable.
Qed.

Lemma validUTF8_volume (k : t) :
  KataVirtualVolume.validUTF8 k = true -> Json.validUTF8 (encode k) = true.
Proof.
  unfold KataVirtualVolume.validUTF8. intros H.
  apply andb_true_iff in H as [H Hdm]. apply andb_true_iff in H as [H Hni].
  apply andb_true_iff in H as [H Hip]. apply andb_true_iff in H as [H Hdv].
  apply andb_true_iff in H as [H Hopt]. apply andb_true_iff in H as [H Hfs].
  apply andb_true_iff in H as [Hvt Hsrc].
  unfold encode. cbn [Json.validUTF8].
  repeat apply forallb_app_true.
  - cbn [forallb fst snd Json.validUTF8]. now rewrite Hvt.
  - unfold omitemptyString. destruct (String.eqb (Source k) ""); [reflexivity |].
    cbn [forallb fst snd Json.validUTF8]. now rewrite Hsrc.
  - unfold omitemptyString. destruct (String.eqb (FSType k) ""); [reflexivity |].
    cbn [forallb fst snd Json.validUTF8]. now rewrite Hfs.
  - destruct (Options k) as [[| x l] |]; try reflexivity.
    cbn [default] in Hopt. cbn [forallb fst snd encodeStringSlice Json.validUTF8].
    rewrite andb_true_r. change (Utf8.ValidString "options") with true. cbn [andb].
    revert Hopt. generalize (x :: l). intros l'.
    induction l' as [| y l' IH]; [reflexivity |]. cbn [map forallb Json.validUTF8].
    intros Hl. apply andb_true_iff in Hl as [Hy Hl]. now rewrite Hy, IH.
  - destruct (DirectVolume k) as [d |]; [| reflexivity]. cbn [from_option] in Hdv.
    cbn [omitemptyPointer forallb fst snd DirectAssignedVolume.encode Json.validUTF8].
    now rewrite validUTF8_encodeStringMap.
  - destruct (ImagePull k) as [d |]; [| reflexivity]. cbn [from_option] in Hip.
    cbn [omitemptyPointer forallb fst snd ImagePullVolume.encode Json.validUTF8].
    now rewrite validUTF8_encodeStringMap.
  - destruct (NydusImage k) as [d |]; [| reflexivity]. cbn [from_option] in Hni.
    unfold NydusImageVolume.validUTF8 in Hni. apply andb_true_iff in Hni as [Hc Hs].
    cbn [omitemptyPointer forallb fst snd NydusImageVolume.encode Json.validUTF8].
    now rewrite Hc, Hs.
  - destruct (DmVerity k) as [d |]; [| reflexivity].
    cbn [omitemptyPointer forallb fst snd from_option] in *.
    now rewrite DmVerityInfo_validUTF8.
Qed.

Lemma IsValid_transported (k : t) : IsValid (transported k) = IsValid k.
Proof. reflexivity. Qed.

(** The text [Marshal] writes for a descriptor is read back by
    [Unmarshal] as the descriptor. *)
Lemma Unmarshal_Marshal_volume (k : t) :
  inRange k = true -> KataVirtualVolume.validUTF8 k = true ->
  Unmarshal names set (print (encode k)) zero = inl (transported k).
Proof.
  intros Hr Hu. unfold Unmarshal.
  rewrite (parse_print _ (readable_volume k)).
  rewrite (coerceValue_valid _ (validUTF8_volume k Hu)).
  apply store_volume, Hr.
Qed.

End CodecFacts.

(** * Facts: the verity checks *)

Module VerityFacts.
Import Spec.
Import Notions.

Lemma in_all_ascii (c : ascii) : In c all_ascii.
Proof.
  unfold all_ascii. apply in_map_iff. exists (nat_of_ascii c). split.
  - apply ascii_nat_embedding.
  - apply in_seq. pose proof (nat_ascii_bounded c). lia.
Qed.

Lemma lower_sameLetter (x y : ascii) :
  isUpper y = false -> Ascii.eqb (Strings.lower_byte x) y = sameLetter x y.
Proof.
  assert (H : forallb (fun x => forallb (fun y =>
                implb (negb (isUpper y))
                      (Bool.eqb (Ascii.eqb (Strings.lower_byte x) y) (sameLetter x y)))
                all_ascii) all_ascii = true) by (vm_compute; reflexivity).
  rewrite forallb_forall in H. specialize (H x (in_all_ascii x)).
  rewrite forallb_forall in H. specialize (H y (in_all_ascii y)).
  intros Hy. rewrite Hy in H. cbn in H. now apply Bool.eqb_prop in H.
Qed.

(** Comparing the lower-cased name with a name in lower case is comparing
    the names without regard to case. *)
Lemma ToLower_equalNoCase (t : string) :
  noUpper t = true -> forall s, String.eqb (Strings.ToLower s) t = equalNoCase s t.
Proof.
  induction t as [| y t IH]; intros Ht s; destruct s as [| x s]; try reflexivity.
  cbn [noUpper] in Ht. apply andb_true_iff in Ht as [Hy Ht]. apply negb_true_iff in Hy.
  cbn [Strings.ToLower String.eqb equalNoCase].
  rewrite (lower_sameLetter x y Hy), (IH Ht s).
  now destruct (sameLetter x y).
Qed.

Lemma fromHexChar_isHexDigit (c : ascii) :
  bool_decide (is_Some (Hex.fromHexChar c)) = isHexDigit c.
Proof.
  unfold Hex.fromHexChar, isHexDigit.
  destruct ((48 <=? N_of_ascii c) && (N_of_ascii c <=? 57)); [reflexivity |].
  destruct ((97 <=? N_of_ascii c) && (N_of_ascii c <=? 102)); [reflexivity |].
  destruct ((65 <=? N_of_ascii c) && (N_of_ascii c <=? 70)); reflexivity.
Qed.

Lemma string_ind2 (P : string -> Prop) :
  P EmptyString -> (forall a, P (String a EmptyString)) ->
  (forall a b r, P r -> P (String a (String b r))) -> forall s, P s.
Proof.
  intros H0 H1 H2. fix IH 1. intros [| a [| b r]].
  - exact H0.
  - apply H1.
  - apply H2, IH.
Qed.

(** [hex.DecodeString] succeeds on an even number of hexadecimal digits
    and on nothing else. *)
Lemma DecodeString_allHex (s : string) :
  bool_decide (is_Some (Hex.DecodeString s)) = allHex s && Nat.even (String.length s).
Proof.
  induction s as [| a | a b r IH] using string_ind2.
  - reflexivity.
  - cbn. now rewrite andb_false_r.
  - cbn [Hex.DecodeString allHex String.length Nat.even].
    rewrite <- (fromHexChar_isHexDigit a), <- (fromHexChar_isHexDigit b).
    destruct (Hex.fromHexChar a) as [x |]; [| reflexivity].
    destruct (Hex.fromHexChar b) as [y |]; [| reflexivity].
    change (bool_decide (is_Some (Some x))) with true.
    change (bool_decide (is_Some (Some y))) with true.
    cbn [andb]. rewrite <- IH.
    destruct (Hex.DecodeString r); reflexivity.
Qed.

Lemma isValidHash_spec (d : DmVerityInfo.t) (n : nat) (name : string) :
  Nat.even n = true ->
  DmVerityInfo.isValidHash d n name
  = if allHex (DmVerityInfo.Hash d) && Nat.eqb (String.length (DmVerityInfo.Hash d)) n
    then None else Some (DmVerityInfo.InvalidHashValue name (DmVerityInfo.Hash d)).
Proof.
  intros Hn. unfold DmVerityInfo.isValidHash. rewrite DecodeString_allHex.
  destruct (Nat.eqb_spec (String.length (DmVerityInfo.Hash d)) n) as [-> | Hne].
  - rewrite Hn, !andb_true_r. cbn. now destruct (allHex _).
  - cbn. now rewrite andb_false_r.
Qed.

(** Within the bounds on the block count and the block sizes the product
    of the offset check does not wrap. *)
Lemma uint64_mul_exact (bs bn : N) :
  bs <= 2 ^ 19 -> bn <= 2 ^ 32 - 1 ->
  bs * bn <= 2 ^ 19 * (2 ^ 32 - 1) /\ bs * bn < 2 ^ 51 /\ uint64_mul bs bn = bs * bn.
Proof.
  intros Hs Hn.
  assert (H : bs * bn <= 2 ^ 19 * (2 ^ 32 - 1)) by (apply N.mul_le_mono; assumption).
  assert (H51 : 2 ^ 19 * (2 ^ 32 - 1) < 2 ^ 51) by reflexivity.
  assert (H64 : 2 ^ 51 < 2 ^ 64) by reflexivity.
  repeat split; [exact H | lia |].
  unfold uint64_mul. apply N.mod_small. lia.
Qed.

Lemma algorithm_sha256 (name : string) :
  String.eqb (Strings.ToLower name) "sha256" = equalNoCase name "sha256".
Proof. now apply ToLower_equalNoCase. Qed.

Lemma algorithm_sha1 (name : string) :
  String.eqb (Strings.ToLower name) "sha1" = equalNoCase name "sha1".
Proof. now apply ToLower_equalNoCase. Qed.

Lemma isValidBlockSize_range (n : N) : DmVerityInfo.isValidBlockSize n = inBlockSizeRange n.
Proof. reflexivity. Qed.

Lemma inBlockSizeRange_le (n : N) : inBlockSizeRange n = true -> 512 <= n <= 2 ^ 19.
Proof.
  unfold inBlockSizeRange. intros H. apply andb_true_iff in H as [H1 H2].
  apply N.leb_le in H1, H2. change (2 ^ 19) with 524288. lia.
Qed.

(** [IsValid] reports the first rule that is violated. *)
Lemma IsValid_firstViolated (d : DmVerityInfo.t) :
  option_map ruleOf (DmVerityInfo.IsValid d) = firstViolated d.
Proof.
  unfold DmVerityInfo.IsValid, DmVerityInfo.validateHashType, firstViolated, rule1, rule2.
  rewrite algorithm_sha256, algorithm_sha1. unfold algorithmOf.
  assert (Hhash : forall (a : Algorithm) (name : string),
    option_map ruleOf
      match DmVerityInfo.isValidHash d (hashLength a) name with
      | Some err => Some err
      | None =>
          if (DmVerityInfo.BlockNum d =? 0) || (max_uint32 <? DmVerityInfo.BlockNum d)
          then Some (DmVerityInfo.ZeroBlockCount (DmVerityInfo.Hash d))
          else if negb (DmVerityInfo.isValidBlockSize (DmVerityInfo.Blocksize d))
                  || negb (DmVerityInfo.isValidBlockSize (DmVerityInfo.Hashsize d))
          then Some (DmVerityInfo.UnsupportedBlockSize (DmVerityInfo.Blocksize d)
                       (DmVerityInfo.Hashsize d))
          else if negb (DmVerityInfo.Offset d mod DmVerityInfo.Hashsize d =? 0)
                  || (DmVerityInfo.Offset d
                      <? uint64_mul (DmVerityInfo.Blocksize d) (DmVerityInfo.BlockNum d))
          then Some (DmVerityInfo.InvalidHashOffset (DmVerityInfo.Offset d)
                       (DmVerityInfo.Hash d))
          else None
      end
    = if negb (allHex (DmVerityInfo.Hash d)
               && Nat.eqb (String.length (DmVerityInfo.Hash d)) (hashLength a))
      then Some InvalidHashEncoding
      else if negb (rule3 d) then Some InvalidBlockCount
      else if negb (rule4 d) then Some InvalidBlockSize
      else if negb (rule5 d) then Some InvalidOffset
      else None).
  { intros a name. rewrite isValidHash_spec by (now destruct a).
    destruct (allHex _ && _); [| reflexivity]. cbn [negb].
    unfold rule3, rule4, rule5.
    change DmVerityInfo.isValidBlockSize with inBlockSizeRange.
    change max_uint32 with (2 ^ 32 - 1). rewrite (N.ltb_antisym (DmVerityInfo.BlockNum d)).
    destruct (DmVerityInfo.BlockNum d =? 0); [reflexivity |].
    destruct (N.leb_spec (DmVerityInfo.BlockNum d) (2 ^ 32 - 1)) as [Hbn | _]; [| reflexivity].
    cbn [negb orb andb].
    destruct (inBlockSizeRange (DmVerityInfo.Blocksize d)) eqn:Hbs; [| reflexivity].
    destruct (inBlockSizeRange (DmVerityInfo.Hashsize d)) eqn:Hhs; [| reflexivity].
    cbn [negb orb andb].
    destruct (uint64_mul_exact (DmVerityInfo.Blocksize d) (DmVerityInfo.BlockNum d))
      as (_ & _ & ->); [apply (inBlockSizeRange_le _ Hbs) | exact Hbn |].
    rewrite (N.ltb_antisym (DmVerityInfo.Blocksize d * DmVerityInfo.BlockNum d)).
    destruct (_ mod _ =? 0); [| reflexivity].
    now destruct (_ <=? DmVerityInfo.Offset d). }
  destruct (equalNoCase (DmVerityInfo.HashType d) "sha256").
  { exact (Hhash SHA256 "sha256"). }
  destruct (equalNoCase (DmVerityInfo.HashType d) "sha1").
  { exact (Hhash SHA1 "sha1"). }
  reflexivity.
Qed.

Lemma firstViolated_None (d : DmVerityInfo.t) : firstViolated d = None <-> verityRules d.
Proof.
  unfold firstViolated, verityRules.
  destruct (rule1 d), (rule2 d), (rule3 d), (rule4 d), (rule5 d); cbn;
    intuition congruence.
Qed.

Lemma IsValid_verityRules (d : DmVerityInfo.t) :
  DmVerityInfo.IsValid d = None <-> verityRules d.
Proof.
  rewrite <- firstViolated_None, <- IsValid_firstViolated.
  now destruct (DmVerityInfo.IsValid d).
Qed.

End VerityFacts.

(** * The claims *)

Import Spec VerityFacts.

Lemma source_nonempty (s : string) : negb (String.eqb s "") = true <-> s <> "".
Proof.
  destruct (String.eqb_spec s ""); cbn; split; intros; congruence.
Qed.

Lemma metadata_set (m : option (gmap string string)) :
  bool_decide (is_Some m) = true <-> m <> None.
Proof.
  destruct m; cbn; split; congruence.
Qed.

Lemma nydus_set (n : NydusImageVolume.t) :
  NydusImageVolume.IsValid n = true
  <-> NydusImageVolume.Config n <> "" \/ NydusImageVolume.SnapshotDir n <> "".
Proof.
  unfold NydusImageVolume.IsValid.
  destruct n as [[| c cs] [| s ss]]; cbn; split; intros H; try reflexivity;
    try discriminate; try (left; discriminate); try (right; discriminate).
  destruct H; congruence.
Qed.

Lemma verity_attached (dm : option DmVerityInfo.t) :
  match dm with
  | None => true
  | Some d => bool_decide (DmVerityInfo.IsValid d = None)
  end = true
  <-> dm = None \/ exists d, dm = Some d /\ verityRules d.
Proof.
  destruct dm as [d |].
  - rewrite bool_decide_eq_true, IsValid_verityRules. split.
    + intros H. right. eauto.
    + intros [H | (d' & [= <-] & H)]; [discriminate | exact H].
  - split; [now left | reflexivity].
Qed.

Lemma if_true (b : bool) : (if b then true else false) = true <-> b = true.
Proof. now destruct b. Qed.

(** What [IsValid] checks in each arm of its switch. *)
Lemma IsValid_rows (v : KataVirtualVolume.t) :
  KataVirtualVolume.IsValid v
  = match rowOf (KataVirtualVolume.VolumeType v) with
    | DirectBlock =>
        negb (String.eqb (KataVirtualVolume.Source v) "")
        && match KataVirtualVolume.DirectVolume v with
           | Some d => DirectAssignedVolume.IsValid d
           | None => false
           end
    | RawBlock =>
        negb (String.eqb (KataVirtualVolume.Source v) "")
        && match KataVirtualVolume.DmVerity v with
           | None => true
           | Some d => bool_decide (DmVerityInfo.IsValid d = None)
           end
    | NydusVolume =>
        negb (String.eqb (KataVirtualVolume.Source v) "")
        && match KataVirtualVolume.NydusImage v with
           | Some n => NydusImageVolume.IsValid n
           | None => false
           end
    | GuestPull =>
        negb (String.eqb (KataVirtualVolume.Source v) "")
        && match KataVirtualVolume.ImagePull v with
           | Some i => ImagePullVolume.IsValid i
           | None => false
           end
    | OtherValue => false
    end.
Proof.
  unfold KataVirtualVolume.IsValid, rowOf.
  unfold KataVirtualVolumeDirectBlockType, KataVirtualVolumeImageRawBlockType,
    KataVirtualVolumeLayerRawBlockType, KataVirtualVolumeImageNydusBlockType,
    KataVirtualVolumeLayerNydusBlockType, KataVirtualVolumeImageNydusFsType,
    KataVirtualVolumeLayerNydusFsType, KataVirtualVolumeImageGuestPullType.
  cbv zeta.
  repeat match goal with
         | |- context [String.eqb (KataVirtualVolume.VolumeType v) ?s] =>
             destruct (String.eqb (KataVirtualVolume.VolumeType v) s);
             cbn [orb]; [now destruct (_ && _) |]
         end.
  reflexivity.
Qed.

(** C1: for every KataVirtualVolume value v, IsValid(v) returns true if
    and only if the condition of the validation table for v's volume type
    holds; for a volume type that is none of the eight named ones it
    returns false. *)
Theorem C1_IsValid_iff_validation_table (v : KataVirtualVolume.t) :
  KataVirtualVolume.IsValid v = true <-> validationTable v.
Proof.
  rewrite IsValid_rows. unfold validationTable.
  destruct (rowOf (KataVirtualVolume.VolumeType v)).
  - rewrite andb_true_iff, source_nonempty.
    destruct (KataVirtualVolume.DirectVolume v) as [d |].
    + unfold DirectAssignedVolume.IsValid. rewrite metadata_set. split.
      * intros [Hs Hm]. split; [exact Hs |]. eauto.
      * intros [Hs (d' & [= <-] & Hm)]. auto.
    + split; [intros [_ H]; discriminate | intros [_ (d & H & _)]; discriminate].
  - rewrite andb_true_iff, source_nonempty, verity_attached. reflexivity.
  - rewrite andb_true_iff, source_nonempty.
    destruct (KataVirtualVolume.NydusImage v) as [n |].
    + rewrite nydus_set. split.
      * intros [Hs Hm]. split; [exact Hs |]. eauto.
      * intros [Hs (n' & [= <-] & Hm)]. auto.
    + split; [intros [_ H]; discriminate | intros [_ (d & H & _)]; discriminate].
  - rewrite andb_true_iff, source_nonempty.
    destruct (KataVirtualVolume.ImagePull v) as [i |].
    + unfold ImagePullVolume.IsValid. rewrite metadata_set. split.
      * intros [Hs Hm]. split; [exact Hs |]. eauto.
      * intros [Hs (d' & [= <-] & Hm)]. auto.
    + split; [intros [_ H]; discriminate | intros [_ (d & H & _)]; discriminate].
  - split; [discriminate | contradiction].
Qed.

Lemma C1_witness : KataVirtualVolume.IsValid guestPull = true.
Proof.
  apply (proj2 (C1_IsValid_iff_validation_table guestPull)).
  unfold validationTable. cbn. split; [discriminate |].
  eexists. split; [reflexivity | discriminate].
Defined.

(** C2: for every DmVerityInfo value d, IsValid(d) accepts d if and only
    if all five rules of section 4.2 hold, and on rejection it reports
    the first violated rule in order: unsupported algorithm, invalid hash
    encoding, invalid block count, invalid block size, invalid offset.
    The descriptor of section 8 is valid; with offset 409601, hashtype
    md5 or blocksize 256 it fails with the error of the offset, the
    algorithm and the block size rule. *)
Theorem C2_verity_first_violated_rule :
  (forall d, option_map ruleOf (DmVerityInfo.IsValid d) = firstViolated d)
  /\ (forall d, accepts d = rule1 d && rule2 d && rule3 d && rule4 d && rule5 d)
  /\ DmVerityInfo.IsValid vector = None
  /\ DmVerityInfo.IsValid vectorOffset
     = Some (DmVerityInfo.InvalidHashOffset 409601 hash64)
  /\ DmVerityInfo.IsValid vectorMd5
     = Some (DmVerityInfo.UnsupportedHashAlgorithm "md5" hash64)
  /\ DmVerityInfo.IsValid vectorBlocksize
     = Some (DmVerityInfo.UnsupportedBlockSize 256 4096).
Proof.
  split; [exact IsValid_firstViolated |].
  split; [| repeat split; vm_compute; reflexivity].
  intros d. unfold accepts. pose proof (IsValid_firstViolated d) as H.
  unfold firstViolated in H.
  destruct (DmVerityInfo.IsValid d), (rule1 d), (rule2 d), (rule3 d), (rule4 d), (rule5 d);
    cbn in *; congruence.
Qed.



(** C7, as the specification states it: an accepted descriptor carries
    at most one payload.  It fails on a direct-block descriptor that
    carries all three. *)
Lemma C7_counterexample :
  ~ (KataVirtualVolume.IsValid threePayloads = true -> (payloads threePayloads <= 1)%nat).
Proof.
  intros H. specialize (H eq_refl). vm_compute in H. lia.
Qed.

(** C7, amended: for every descriptor accepted by IsValid the payload
    determined by its volume type is set and passes its own check, and
    for the raw block types an attached verity descriptor passes the
    verity rules; the other payload fields are not read, so a descriptor
    that differs only in them (and in the verity descriptor, where the
    volume type is no raw block type) gets the same verdict. *)
Theorem C7_active_payload (v : KataVirtualVolume.t) :
  KataVirtualVolume.IsValid v = true ->
  activePayload v
  /\ forall w, sameActive v w -> KataVirtualVolume.IsValid w = true.
Proof.
  intros H. split.
  - rewrite IsValid_rows in H. unfold activePayload.
    destruct (rowOf (KataVirtualVolume.VolumeType v)); try discriminate;
      apply andb_true_iff in H as [_ H].
    + destruct (KataVirtualVolume.DirectVolume v) as [d |]; [eauto | discriminate].
    + now apply verity_attached.
    + destruct (KataVirtualVolume.NydusImage v) as [n |]; [eauto | discriminate].
    + destruct (KataVirtualVolume.ImagePull v) as [i |]; [eauto | discriminate].
  - intros w (Hvt & Hsrc & Hp). rewrite IsValid_rows in H |- *.
    rewrite <- Hvt, <- Hsrc.
    destruct (rowOf (KataVirtualVolume.VolumeType v)); try rewrite <- Hp; exact H.
Qed.

Lemma C7_witness :
  (activePayload threePayloads
   /\ forall w, sameActive threePayloads w -> KataVirtualVolume.IsValid w = true)
  /\ (activePayload verityVolume
      /\ forall w, sameActive verityVolume w -> KataVirtualVolume.IsValid w = true)
  /\ KataVirtualVolume.IsValid md5Volume = false.
Proof.
  split; [| split].
  - apply (C7_active_payload threePayloads). vm_compute. reflexivity.
  - apply (C7_active_payload verityVolume). vm_compute. reflexivity.
  - vm_compute. reflexivity.
Defined.

(** C6: EncodeKataVirtualVolumeToBase64 is unconditional: for every
    descriptor, valid or not, it succeeds and returns the base64 of the
    JSON text of the descriptor.  The zero descriptor, which IsValid
    rejects, is encoded, and only decoding its text reports that it is
    not correct. *)
Theorem C6_encode_unconditional :
  (forall v, EncodeKataVirtualVolumeToBase64 v
             = inl (Base64.EncodeToString (Json.print (KataVirtualVolume.encode v))))
  /\ KataVirtualVolume.IsValid KataVirtualVolume.zero = false
  /\ EncodeKataVirtualVolumeToBase64 KataVirtualVolume.zero = inl "eyJ2b2x1bWVfdHlwZSI6IiJ9"
  /\ ParseKataVirtualVolumeFromBase64 "eyJ2b2x1bWVfdHlwZSI6IiJ9"
     = inr (ErrNotCorrect KataVirtualVolume.zero).
Proof.
  split; [intros v; reflexivity |].
  repeat split; vm_compute; reflexivity.
Qed.

(** C4: ParseKataVirtualVolumeFromBase64 classifies every failure by its
    stage: input that is no base64 fails with the base64 decoding error
    (an encoding error), base64 whose bytes Unmarshal refuses fails with
    the JSON unmarshal error (an encoding error), a descriptor that is
    read but fails IsValid fails with the not-correct error (a validation
    error), and the call succeeds in exactly the remaining cases. *)
Theorem C4_failure_stages (option : string) :
  (forall err, Base64.DecodeString option = inr err ->
     ParseKataVirtualVolumeFromBase64 option = inr (ErrBase64Decoding err)
     /\ kindOf (ErrBase64Decoding err) = EncodingError)
  /\ (forall opt err, Base64.DecodeString option = inl opt ->
        Json.Unmarshal KataVirtualVolume.names KataVirtualVolume.set opt KataVirtualVolume.zero
        = inr err ->
        ParseKataVirtualVolumeFromBase64 option = inr (ErrJsonUnmarshal err)
        /\ kindOf (ErrJsonUnmarshal err) = EncodingError)
  /\ (forall opt no, Base64.DecodeString option = inl opt ->
        Json.Unmarshal KataVirtualVolume.names KataVirtualVolume.set opt KataVirtualVolume.zero
        = inl no ->
        KataVirtualVolume.IsValid no = false ->
        ParseKataVirtualVolumeFromBase64 option = inr (ErrNotCorrect no)
        /\ kindOf (ErrNotCorrect no) = ValidationError)
  /\ (forall no, ParseKataVirtualVolumeFromBase64 option = inl no <->
        exists opt, Base64.DecodeString option = inl opt
          /\ Json.Unmarshal KataVirtualVolume.names KataVirtualVolume.set opt
               KataVirtualVolume.zero = inl no
          /\ KataVirtualVolume.IsValid no = true).
Proof.
  unfold ParseKataVirtualVolumeFromBase64, ParseKataVirtualVolume.
  split; [| split; [| split; [| intros no; split]]].
  - intros err H. rewrite H. split; reflexivity.
  - intros opt err H H0. rewrite H, H0. split; reflexivity.
  - intros opt no H H0 H1. rewrite H, H0, H1. split; reflexivity.
  - destruct (Base64.DecodeString option) as [opt | e]; [| discriminate].
    destruct (Json.Unmarshal _ _ opt _) as [no' | e] eqn:Hu; [| discriminate].
    destruct (KataVirtualVolume.IsValid no') eqn:Hv; [| discriminate].
    cbn. intros [= <-]. exists opt. split; [reflexivity | split; [exact Hu | exact Hv]].
  - intros (opt & H1 & H2 & H3). rewrite H1, H2. cbn beta iota. rewrite H3. reflexivity.
Qed.

Lemma C4_witness :
  ParseKataVirtualVolumeFromBase64 notBase64 = inr (ErrBase64Decoding Base64.CorruptInputError)
  /\ ParseKataVirtualVolumeFromBase64 notJSON = inr (ErrJsonUnmarshal Json.ErrSyntax)
  /\ ParseKataVirtualVolumeFromBase64 notObject = inr (ErrJsonUnmarshal Json.UnmarshalTypeError)
  /\ ParseKataVirtualVolumeFromBase64 emptyObject = inr (ErrNotCorrect KataVirtualVolume.zero)
  /\ ParseKataVirtualVolumeFromBase64 fullVolumeText = inl fullVolume.
Proof.
  split; [| split; [| split; [| split]]].
  - apply (proj1 (C4_failure_stages notBase64)). vm_compute. reflexivity.
  - apply (proj1 (proj2 (C4_failure_stages notJSON)) (list_ascii_of_string "{"));
      vm_compute; reflexivity.
  - apply (proj1 (proj2 (C4_failure_stages notObject)) (list_ascii_of_string "[]"));
      vm_compute; reflexivity.
  - apply (proj1 (proj2 (proj2 (C4_failure_stages emptyObject))) (list_ascii_of_string "{}"));
      vm_compute; reflexivity.
  - apply (proj2 (proj2 (proj2 (proj2 (C4_failure_stages fullVolumeText))) fullVolume)).
    exists (Json.print (KataVirtualVolume.encode fullVolume)).
    repeat split; vm_compute; reflexivity.
Defined.

Import CodecFacts.

Lemma equivalent_transported (v : KataVirtualVolume.t) :
  equivalent v (KataVirtualVolume.transported v).
Proof.
  unfold equivalent, KataVirtualVolume.transported. cbn.
  repeat split. now destruct (KataVirtualVolume.Options v) as [[| x l] |].
Qed.

(** Decoding the transport string of a descriptor gives the descriptor as
    its JSON text shows it. *)
Lemma Parse_Encode (v : KataVirtualVolume.t) :
  KataVirtualVolume.IsValid v = true -> KataVirtualVolume.inRange v = true ->
  KataVirtualVolume.validUTF8 v = true ->
  ParseKataVirtualVolumeFromBase64
    (Base64.EncodeToString (Json.print (KataVirtualVolume.encode v)))
  = inl (KataVirtualVolume.transported v).
Proof.
  intros Hv Hr Hu. unfold ParseKataVirtualVolumeFromBase64, ParseKataVirtualVolume.
  rewrite Base64Facts.DecodeString_EncodeToString.
  rewrite (Unmarshal_Marshal_volume v Hr Hu).
  rewrite IsValid_transported, Hv. reflexivity.
Qed.

(** C3, as the specification states it: every valid descriptor comes back
    from its transport string with all set fields preserved.  It fails
    on a valid descriptor whose source is the byte 0xff: the JSON text
    holds the escape of U+FFFD in its place, and the source read back is
    the three bytes of that rune. *)
Lemma C3_counterexample :
  ~ (KataVirtualVolume.IsValid byteSource = true -> roundTrips byteSource).
Proof.
  intros H. destruct (H eq_refl) as (s & w & He & Hp & Heq).
  vm_compute in He. injection He as <-.
  vm_compute in Hp. injection Hp as <-.
  destruct Heq as (_ & Hsrc & _). vm_compute in Hsrc. discriminate Hsrc.
Qed.

(** C3, amended: for every valid descriptor whose strings are well-formed
    UTF-8 (and whose uint64 fields hold values of 64 bits, as those of a
    Go value do), decoding the base64 string produced by
    EncodeKataVirtualVolumeToBase64 succeeds and returns a descriptor
    that agrees with it on the volume type, the source, the filesystem
    type, the options as a sequence, the payloads and the verity
    descriptor. *)
Theorem C3_round_trip (v : KataVirtualVolume.t) :
  KataVirtualVolume.IsValid v = true -> KataVirtualVolume.inRange v = true ->
  KataVirtualVolume.validUTF8 v = true ->
  roundTrips v
  /\ forall s, EncodeKataVirtualVolumeToBase64 v = inl s ->
       ParseKataVirtualVolumeFromBase64 s = inl (KataVirtualVolume.transported v).
Proof.
  intros Hv Hr Hu. split.
  - exists (Base64.EncodeToString (Json.print (KataVirtualVolume.encode v))),
      (KataVirtualVolume.transported v).
    split; [reflexivity |]. split; [now apply Parse_Encode | apply equivalent_transported].
  - intros s [= <-]. now apply Parse_Encode.
Qed.

Lemma C3_witness : roundTrips fullVolume.
Proof.
  apply (C3_round_trip fullVolume); vm_compute; reflexivity.
Defined.

(** ** Unknown members *)

Lemma storeFields_known {T : Type} (names : list string)
  (set : string -> Json.value -> T -> T + Json.error) (m : list (string * Json.value))
  (acc : T) :
  Json.storeFields names set m acc = Json.storeFields names set (knownMembers names m) acc.
Proof.
  revert acc. induction m as [| [k x] m IH]; intros acc; [reflexivity |].
  cbn [Json.storeFields knownMembers List.filter fst].
  destruct (Json.findField names k) as [f |] eqn:Hf.
  - cbn [Json.storeFields]. rewrite Hf. destruct (set f x acc); [apply IH | reflexivity].
  - apply IH.
Qed.

Lemma knownMembers_app (names : list string) (m1 m2 : list (string * Json.value)) :
  knownMembers names (m1 ++ m2) = knownMembers names m1 ++ knownMembers names m2.
Proof. unfold knownMembers. apply List.filter_app. Qed.

(** C8: ParseKataVirtualVolume does not reject unknown JSON fields.  For
    every base64 input whose bytes are a JSON object, the result is that
    of storing only the members whose key selects a field of the struct
    (a key equal to the JSON name of a field, or equal to it up to case,
    as encoding/json matches keys) and validating the descriptor: a
    member with any other key is skipped, wherever it stands and whatever
    its value, and the same holds for the members of the payload objects
    and of the verity object. *)
Theorem C8_unknown_fields_ignored :
  (forall (option : string) (opt : list ascii) (m : list (string * Json.value)),
     Base64.DecodeString option = inl opt -> Json.parse opt = Some (Json.JObject m) ->
     ParseKataVirtualVolumeFromBase64 option
     = validated (Json.storeFields KataVirtualVolume.names KataVirtualVolume.set
                    (knownMembers KataVirtualVolume.names m) KataVirtualVolume.zero))
  /\ (forall (T : Type) (names : list string)
             (set : string -> Json.value -> T -> T + Json.error)
             (m1 m2 : list (string * Json.value)) (k : string) (x : Json.value) (acc : T),
        Json.findField names k = None ->
        Json.storeFields names set (m1 ++ (k, x) :: m2) acc
        = Json.storeFields names set (m1 ++ m2) acc).
Proof.
  split.
  - intros option opt m Hd Hp.
    unfold ParseKataVirtualVolumeFromBase64, ParseKataVirtualVolume, Json.Unmarshal.
    rewrite Hd, Hp. cbn [Json.storeStruct]. rewrite storeFields_known. reflexivity.
  - intros T names set m1 m2 k x acc Hk.
    rewrite (storeFields_known names set (m1 ++ (k, x) :: m2)).
    rewrite (storeFields_known names set (m1 ++ m2)).
    rewrite !knownMembers_app. cbn [knownMembers List.filter fst]. now rewrite Hk.
Qed.

Lemma C8_witness :
  ParseKataVirtualVolumeFromBase64 withUnknownText
  = validated (Json.storeFields KataVirtualVolume.names KataVirtualVolume.set
                 [("volume_type", Json.JString "image_raw_block");
                  ("source", Json.JString "/dev/vda")] KataVirtualVolume.zero).
Proof.
  apply (proj1 C8_unknown_fields_ignored withUnknownText
           (Json.print (Json.JObject withUnknown)) withUnknown);
    vm_compute; reflexivity.
Defined.

(** ** The mount option assembler *)

(** A call that reaches the read of the bootstrap file ends as the read
    and the detector decide. *)
Lemma remoteMount_reachesRead (o : snapshotter) (sid id source configContent : string)
  (f : File) (overlayOptions : list string) :
  reachesRead o id source configContent f ->
  remoteMountWithExtraOptions o sid id overlayOptions
  = match Read f 4096 with
    | (_, Some err) => Fails (ErrReadBootstrap err)
    | (header, None) =>
        match DetectFsVersion o header with
        | inr err => Fails (ErrDetectFsVersion err)
        | inl version =>
            Returns [Mount.mk "fuse.nydus-overlayfs" "overlay"
                       (overlayOptions
                        ++ [String.append "extraoption="
                              (Base64.EncodeToString
                                 (Json.print
                                    (ExtraOption.encode
                                       (ExtraOption.mk source configContent
                                          (snapshotDir o sid) version))))])]
        end
    end.
Proof.
  intros (instance & daemon & c & H1 & H2 & H3 & H4 & H5 & H6).
  unfold remoteMountWithExtraOptions. rewrite H1, H2, H3.
  unfold daemonConfig in H4. rewrite H4, H5, H6.
  destruct (Read f 4096) as [header [err |]]; [reflexivity |].
  destruct (DetectFsVersion o header); reflexivity.
Qed.

Lemma Returns_inj {A : Type} (a b : A) : Returns a = Returns b -> a = b.
Proof. now intros [= ->]. Qed.

(** A call that returns mounts has passed every step. *)
Lemma remoteMount_Returns (o : snapshotter) (sid id : string)
  (overlayOptions : list string) (mounts : list Mount.t) :
  remoteMountWithExtraOptions o sid id overlayOptions = Returns mounts ->
  exists eo, resolves o sid id eo
    /\ mounts = [Mount.mk "fuse.nydus-overlayfs" "overlay"
                   (overlayOptions
                    ++ [String.append "extraoption="
                          (Base64.EncodeToString (Json.print (ExtraOption.encode eo)))])].
Proof.
  unfold remoteMountWithExtraOptions. intros H.
  destruct (BootstrapFile o id) as [source |] eqn:H1; [| discriminate].
  destruct (RafsGlobalCache_Get o id) as [instance |] eqn:H2; [| discriminate].
  destruct (GetDaemonByID o (DaemonID instance)) as [daemon |] eqn:H3; [| discriminate].
  destruct (if IsSharedDaemon daemon then _ else _) as [c |] eqn:H4; [| discriminate].
  destruct (DumpString c) as [configContent |] eqn:H5; [| discriminate].
  destruct (os_Open o source) as [f |] eqn:H6; [| discriminate].
  destruct (Read f 4096) as [header [err |]] eqn:H7; [discriminate |].
  destruct (DetectFsVersion o header) as [version |] eqn:H8; [| discriminate].
  unfold Json.Marshal in H. cbv beta iota in H. apply Returns_inj in H. subst mounts.
  exists (ExtraOption.mk source configContent (snapshotDir o sid) version).
  split; [| reflexivity].
  exists f, header. cbn [ExtraOption.Source ExtraOption.Config ExtraOption.Version
                         ExtraOption.Snapshotdir].
  split; [| split; [exact H7 | split; [exact H8 | reflexivity]]].
  exists instance, daemon, c. unfold daemonConfig. auto 10.
Qed.

Import JsonParseFacts JsonStringFacts.

(** The extra option carries its struct, with the strings coerced to
    well-formed UTF-8. *)
Lemma carries_coerced (eo : ExtraOption.t) :
  carries (String.append "extraoption="
             (Base64.EncodeToString (Json.print (ExtraOption.encode eo)))) (coerced eo).
Proof.
  exists (Base64.EncodeToString (Json.print (ExtraOption.encode eo))),
    (Json.print (ExtraOption.encode eo)).
  split; [reflexivity |]. split; [apply Base64Facts.DecodeString_EncodeToString |].
  rewrite parse_print by reflexivity. reflexivity.
Qed.

Lemma coerced_valid (eo : ExtraOption.t) : Spec.validUTF8 eo = true -> coerced eo = eo.
Proof.
  unfold Spec.validUTF8, coerced. intros H.
  apply andb_true_iff in H as [H H4]. apply andb_true_iff in H as [H H3].
  apply andb_true_iff in H as [H1 H2].
  rewrite !coerce_valid by assumption. now destruct eo.
Qed.

(** C5, as the specification states it: the appended option decodes to
    the very strings the call resolved.  It fails for a bootstrap path
    with a byte that is no well-formed UTF-8: the JSON text holds the
    escape of U+FFFD for that byte, and the source read back differs from
    the path. *)
Lemma C5_counterexample :
  ~ mountCarriesResolved (oneSnapshot bytePath someBootstrap) "1" "1" exampleOptions.
Proof.
  intros H.
  destruct (remoteMountWithExtraOptions (oneSnapshot bytePath someBootstrap) "1" "1"
              exampleOptions) as [mounts | |] eqn:E; try (vm_compute in E; discriminate E).
  destruct (H mounts E) as (eo & opt & Hres & Hm & Hc).
  vm_compute in E. apply Returns_inj in E. subst mounts.
  cbv in Hm. injection Hm as Hopt'. subst opt.
  destruct eo as [src cfg sd ver]. cbn [ExtraOption.Source] in *.
  destruct Hres as (f & header & (instance & daemon & c & Hb & _) & _).
  cbn in Hb. injection Hb as Hsrc.
  destruct Hc as (b64 & bytes & Hopt & Hd & Hp).
  cbv in Hopt. injection Hopt as Hb64. subst b64.
  vm_compute in Hd. injection Hd as <-.
  subst src. vm_compute in Hp. discriminate Hp.
Qed.

(** C5, amended: when remoteMountWithExtraOptions succeeds, it returns a
    single mount whose type is fuse.nydus-overlayfs, whose source is
    overlay, and whose options are the overlay options of the caller
    with exactly one appended entry of the form extraoption=<base64>;
    decoding the base64 and parsing the JSON gives an object with exactly
    the string members source, config, snapshotdir and fs_version, which
    hold the resolved bootstrap path, the serialized configuration, the
    snapshot directory and the detected version with every byte that is
    not part of well-formed UTF-8 replaced by U+FFFD, and so these
    strings themselves when they are well-formed UTF-8. *)
Theorem C5_mount_carries_extra_option (o : snapshotter) (sid id : string)
  (overlayOptions : list string) (mounts : list Mount.t) :
  remoteMountWithExtraOptions o sid id overlayOptions = Returns mounts ->
  exists eo opt,
    resolves o sid id eo
    /\ mounts = [Mount.mk "fuse.nydus-overlayfs" "overlay" (overlayOptions ++ [opt])]
    /\ carries opt (coerced eo)
    /\ (Spec.validUTF8 eo = true -> carries opt eo).
Proof.
  intros H. destruct (remoteMount_Returns _ _ _ _ _ H) as (eo & Hres & Hm).
  exists eo. eexists. split; [exact Hres |]. split; [exact Hm |].
  split; [apply carries_coerced |].
  intros Hu. rewrite <- (coerced_valid eo Hu) at 2. apply carries_coerced.
Qed.

Lemma C5_witness :
  exists eo opt,
    resolves (oneSnapshot "/image.boot" someBootstrap) "1" "1" eo
    /\ [Mount.mk "fuse.nydus-overlayfs" "overlay"
          (exampleOptions
           ++ [String.append "extraoption="
                 (Base64.EncodeToString
                    (Json.print
                       (ExtraOption.encode
                          (ExtraOption.mk "/image.boot" "{}" "/var/lib/snapshots/1" "v6"))))])]
       = [Mount.mk "fuse.nydus-overlayfs" "overlay" (exampleOptions ++ [opt])]
    /\ carries opt (coerced eo)
    /\ (Spec.validUTF8 eo = true -> carries opt eo).
Proof.
  apply (C5_mount_carries_extra_option (oneSnapshot "/image.boot" someBootstrap) "1" "1"
           exampleOptions).
  reflexivity.
Defined.

(** C9: if the resolved bootstrap file is empty, the header read returns
    no byte and end-of-file, and the assembler fails with the read error,
    an IO error, whatever the version detector is: the detector is not
    called.  When the file holds bytes, the detector is applied to the
    bytes read, at most 4096 from the start of the file, and to nothing
    else. *)
Theorem C9_empty_bootstrap_read_error (o : snapshotter) (sid id source configContent : string)
  (content : list ascii) (overlayOptions : list string) :
  reachesRead o id source configContent (RegularFile content) ->
  (content = [] ->
     remoteMountWithExtraOptions o sid id overlayOptions = Fails (ErrReadBootstrap io_EOF)
     /\ kindOf (ErrReadBootstrap io_EOF) = IOError
     /\ forall detect,
          remoteMountWithExtraOptions (withDetector o detect) sid id overlayOptions
          = Fails (ErrReadBootstrap io_EOF))
  /\ (content <> [] ->
      forall err, DetectFsVersion o (firstn 4096 content) = inr err ->
        remoteMountWithExtraOptions o sid id overlayOptions = Fails (ErrDetectFsVersion err)
        /\ kindOf (ErrDetectFsVersion err) = FormatError).
Proof.
  intros Hr. split.
  - intros ->. split; [| split; [reflexivity |]].
    + now rewrite (remoteMount_reachesRead _ _ _ _ _ _ _ Hr).
    + intros detect.
      assert (Hr' : reachesRead (withDetector o detect) id source configContent
                      (RegularFile [])).
      { destruct Hr as (instance & daemon & c & H). exists instance, daemon, c. exact H. }
      now rewrite (remoteMount_reachesRead _ _ _ _ _ _ _ Hr').
  - intros Hne err Hd. split; [| reflexivity].
    rewrite (remoteMount_reachesRead _ _ _ _ _ _ _ Hr).
    destruct content as [| b content]; [congruence |].
    cbn [Read]. now rewrite Hd.
Qed.

Lemma C9_witness :
  remoteMountWithExtraOptions (oneSnapshot "/image.boot" []) "1" "1" exampleOptions
  = Fails (ErrReadBootstrap io_EOF).
Proof.
  apply (proj1 (C9_empty_bootstrap_read_error (oneSnapshot "/image.boot" []) "1" "1"
                  "/image.boot" "{}" [] exampleOptions
                  ltac:(exists (mkRafs "daemon-1" "snapshot-1"),
                          (mkDaemon false "fusedev" (fun _ => "/etc/nydus/config.json")
                             (mkDaemonConfig (inl "{}"))),
                          (mkDaemonConfig (inl "{}")); repeat split))
           eq_refl).
Defined.

(** * The behaviour of the code *)

Import Behaviour.

(** ** The checks never panic *)

Module CheckedFacts.
Import Checked.
Import Notions.

Lemma isValidHash_Returns (d : DmVerityInfo.t) (n : nat) (name : string) :
  isValidHash (Some d) n name = Returns (DmVerityInfo.isValidHash d n name).
Proof.
  unfold isValidHash, DmVerityInfo.isValidHash. cbn [deref bind].
  now destruct (_ || _).
Qed.

Lemma validateHashType_Returns (d : DmVerityInfo.t) :
  validateHashType (Some d) = Returns (DmVerityInfo.validateHashType d).
Proof.
  unfold validateHashType, DmVerityInfo.validateHashType. cbn [deref bind].
  rewrite !isValidHash_Returns.
  now repeat destruct (String.eqb _ _).
Qed.

Lemma isValidBlockSize_nonzero (n : N) : DmVerityInfo.isValidBlockSize n = true -> n <> 0.
Proof.
  unfold DmVerityInfo.isValidBlockSize. intros H ->. discriminate H.
Qed.

Lemma DmVerityInfo_IsValid_Returns (d : DmVerityInfo.t) :
  DmVerityInfo_IsValid (Some d) = Returns (DmVerityInfo.IsValid d).
Proof.
  unfold DmVerityInfo_IsValid, DmVerityInfo.IsValid.
  rewrite validateHashType_Returns. cbn [bind deref].
  destruct (DmVerityInfo.validateHashType d); [reflexivity |].
  destruct (_ || _); [reflexivity |].
  destruct (DmVerityInfo.isValidBlockSize (DmVerityInfo.Blocksize d)); [| reflexivity].
  destruct (DmVerityInfo.isValidBlockSize (DmVerityInfo.Hashsize d)) eqn:Hh; [| reflexivity].
  cbn [negb orb]. unfold rem.
  apply isValidBlockSize_nonzero, N.eqb_neq in Hh. rewrite Hh.
  cbn [bind or_else].
  destruct (negb (_ =? 0)); cbn [orb]; [reflexivity |].
  now destruct (_ <? _).
Qed.

End CheckedFacts.

(** X1: The validity checks never panic: [IsValid] of a descriptor, with the
    division by the hash block size and the reads through the payload
    pointers run as the Go runtime runs them, returns for every
    descriptor, and returns the verdict of the embedding without panics;
    a verity descriptor is checked without a division by zero, and
    ParseKataVirtualVolume returns a descriptor or an error for every
    input. *)
Theorem IsValid_never_panics :
  (forall k, Checked.KataVirtualVolume_IsValid k = Returns (KataVirtualVolume.IsValid k))
  /\ (forall d, Checked.DmVerityInfo_IsValid (Some d) = Returns (DmVerityInfo.IsValid d))
  /\ (forall option,
        Checked.ParseKataVirtualVolume option
        = match ParseKataVirtualVolume option with
          | inl no => Returns no
          | inr err => Fails err
          end).
Proof.
  assert (Hk : forall k,
             Checked.KataVirtualVolume_IsValid k = Returns (KataVirtualVolume.IsValid k)).
  { intros k. unfold Checked.KataVirtualVolume_IsValid, KataVirtualVolume.IsValid.
    cbv zeta.
    destruct (String.eqb _ KataVirtualVolumeDirectBlockType).
    { destruct (negb _); [| reflexivity].
      destruct (KataVirtualVolume.DirectVolume k) as [d |]; [| reflexivity].
      unfold DirectAssignedVolume.IsValid. cbn.
      now destruct (bool_decide _). }
    destruct (_ || _).
    { destruct (negb _); [| reflexivity].
      destruct (KataVirtualVolume.DmVerity k) as [d |]; [| reflexivity].
      cbn -[Checked.DmVerityInfo_IsValid DmVerityInfo.IsValid].
      rewrite CheckedFacts.DmVerityInfo_IsValid_Returns. cbn [Checked.bind].
      now destruct (bool_decide _). }
    destruct (_ || _).
    { destruct (negb _); [| reflexivity].
      destruct (KataVirtualVolume.NydusImage k) as [n |]; [| reflexivity].
      unfold NydusImageVolume.IsValid. cbn.
      destruct (String.length (NydusImageVolume.Config n)); [| reflexivity].
      now destruct (String.length (NydusImageVolume.SnapshotDir n)). }
    destruct (String.eqb _ _); [| reflexivity].
    destruct (negb _); [| reflexivity].
    destruct (KataVirtualVolume.ImagePull k) as [i |]; [| reflexivity].
    unfold ImagePullVolume.IsValid. cbn. now destruct (bool_decide _). }
  split; [exact Hk |]. split; [exact CheckedFacts.DmVerityInfo_IsValid_Returns |].
  intros option. unfold Checked.ParseKataVirtualVolume, ParseKataVirtualVolume.
  destruct (Json.Unmarshal _ _ _ _) as [no | err]; [| reflexivity].
  rewrite Hk. cbn [Checked.bind]. now destruct (negb _).
Qed.

(** ** ASCII text *)

Module TextFacts.
Import Behaviour Json Utf8 Spec.
Import Notions.

Lemma DecodeRune_ascii (c : ascii) (p : list ascii) :
  N_of_ascii c < 128 -> DecodeRune (c :: p) = (N_of_ascii c, 1%nat).
Proof.
  intros H. unfold DecodeRune. apply N.ltb_lt in H. now rewrite H.
Qed.

Lemma Valid_ascii (p : list ascii) :
  forallb (fun c => N_of_ascii c <? 128) p = true -> Valid p = true.
Proof.
  induction p as [| c p IH]; [reflexivity |]. cbn [forallb]. intros H.
  apply andb_true_iff in H as [Hc Hp].
  cbn [Valid]. rewrite (DecodeRune_ascii c p) by now apply N.ltb_lt.
  cbn [snd]. now rewrite Hc, IH.
Qed.

Lemma allAscii_valid (s : string) : allAscii s = true -> ValidString s = true.
Proof. apply Valid_ascii. Qed.

Lemma allAscii_coerce (s : string) : allAscii s = true -> coerce s = s.
Proof. intros H. now apply JsonStringFacts.coerce_valid, allAscii_valid. Qed.

Lemma EncodeRune_RuneError :
  EncodeRune RuneError = ["239"%char; "191"%char; "189"%char].
Proof. reflexivity. Qed.

(** The first byte [toValidUTF8] writes for a byte outside ASCII is
    outside ASCII. *)
Lemma toValidUTF8_high (c0 : ascii) (p1 : list ascii) :
  128 <= N_of_ascii c0 ->
  exists c r, toValidUTF8 (c0 :: p1) = c :: r /\ 128 <= N_of_ascii c.
Proof.
  intros H. cbn [toValidUTF8].
  assert (Hlt : (N_of_ascii c0 <? 128) = false) by now apply N.ltb_ge.
  rewrite Hlt, EncodeRune_RuneError.
  destruct (snd (DecodeRune (c0 :: p1))) as [| [| [| [| [| n]]]]];
    destruct p1 as [| c1 [| c2 [| c3 p4]]];
    cbn [app]; eauto; eexists _, _; (split; [reflexivity | cbn; lia]).
Qed.

Lemma toValidUTF8_ascii_inv (p : list ascii) :
  forallb (fun c => N_of_ascii c <? 128) (toValidUTF8 p) = true ->
  forallb (fun c => N_of_ascii c <? 128) p = true.
Proof.
  induction p as [| c0 p1 IH]; [reflexivity |].
  destruct (N.lt_ge_cases (N_of_ascii c0) 128) as [Hlt | Hge].
  - cbn [toValidUTF8]. rewrite (DecodeRune_ascii c0 p1 Hlt). cbn [snd].
    assert (E : (N_of_ascii c0 <? 128) = true) by now apply N.ltb_lt.
    rewrite E. destruct p1; cbn [app forallb]; rewrite E; cbn [andb]; exact IH.
  - destruct (toValidUTF8_high c0 p1 Hge) as (c & r & -> & Hc).
    cbn [forallb]. apply N.ltb_ge in Hc. rewrite Hc. discriminate.
Qed.

Lemma coerce_ascii_inv (s : string) : allAscii (coerce s) = true -> coerce s = s.
Proof.
  intros H. apply allAscii_coerce. unfold allAscii, coerce in *.
  rewrite list_ascii_of_string_of_list_ascii in H.
  now apply toValidUTF8_ascii_inv.
Qed.

Lemma toValidUTF8_nonempty (c0 : ascii) (p1 : list ascii) : toValidUTF8 (c0 :: p1) <> [].
Proof.
  cbn [toValidUTF8]. rewrite EncodeRune_RuneError.
  destruct (snd (DecodeRune (c0 :: p1))) as [| [| [| [| [| n]]]]];
    destruct p1 as [| c1 [| c2 [| c3 p4]]];
    destruct (N_of_ascii c0 <? 128); discriminate.
Qed.

Lemma coerce_empty (s : string) : String.eqb (coerce s) "" = String.eqb s "".
Proof.
  destruct s as [| c s]; [reflexivity |].
  unfold coerce. cbn [list_ascii_of_string].
  pose proof (toValidUTF8_nonempty c (list_ascii_of_string s)) as H.
  destruct (toValidUTF8 (c :: list_ascii_of_string s)); [congruence | reflexivity].
Qed.

Lemma coerce_length (s : string) :
  (0 <? String.length (coerce s))%nat = (0 <? String.length s)%nat.
Proof.
  pose proof (coerce_empty s) as H.
  destruct (coerce s), s; cbn in *; congruence.
Qed.

Lemma sameLetter_ascii (x y : ascii) :
  sameLetter x y = true -> N_of_ascii y < 128 -> N_of_ascii x < 128.
Proof.
  unfold sameLetter, isUpper. intros H Hy.
  apply orb_true_iff in H as [H | H]; [apply orb_true_iff in H as [H | H] |].
  - apply Ascii.eqb_eq in H. now subst.
  - bool2prop. lia.
  - bool2prop. lia.
Qed.

Lemma equalNoCase_ascii (a b : string) :
  equalNoCase a b = true -> allAscii b = true -> allAscii a = true.
Proof.
  revert b. induction a as [| x a IH]; intros [| y b]; cbn; try discriminate; [reflexivity |].
  intros H Hb. apply andb_true_iff in H as [Hxy H]. apply andb_true_iff in Hb as [Hy Hb].
  apply andb_true_iff. split; [| now apply (IH b)].
  apply N.ltb_lt. apply (sameLetter_ascii x y Hxy). now apply N.ltb_lt.
Qed.

Lemma isHexDigit_ascii (c : ascii) : isHexDigit c = true -> N_of_ascii c < 128.
Proof.
  unfold isHexDigit. cbv zeta. intros H.
  apply orb_true_iff in H as [H | H]; [apply orb_true_iff in H as [H | H] |];
    bool2prop; lia.
Qed.

Lemma allHex_ascii (s : string) : allHex s = true -> allAscii s = true.
Proof.
  induction s as [| c s IH]; [reflexivity |]. cbn. intros H.
  apply andb_true_iff in H as [Hc H]. apply andb_true_iff. split; [| exact (IH H)].
  apply N.ltb_lt. now apply isHexDigit_ascii.
Qed.

(** The strings of a verity descriptor that passes [IsValid] are ASCII. *)
Lemma IsValid_ascii (d : DmVerityInfo.t) :
  DmVerityInfo.IsValid d = None ->
  allAscii (DmVerityInfo.HashType d) = true /\ allAscii (DmVerityInfo.Hash d) = true.
Proof.
  intros H. apply VerityFacts.IsValid_verityRules in H as (H1 & H2 & _).
  unfold rule1, rule2, algorithmOf in *. split.
  - destruct (equalNoCase (DmVerityInfo.HashType d) "sha256") eqn:E1.
    { now apply (equalNoCase_ascii _ _ E1). }
    destruct (equalNoCase (DmVerityInfo.HashType d) "sha1") eqn:E2.
    { now apply (equalNoCase_ascii _ _ E2). }
    discriminate H1.
  - destruct (if equalNoCase _ "sha256" then _ else _); [| discriminate].
    apply andb_true_iff in H2 as [H2 _]. now apply allHex_ascii.
Qed.

Lemma IsValid_validUTF8 (d : DmVerityInfo.t) :
  DmVerityInfo.IsValid d = None -> DmVerityInfo.validUTF8 d = true.
Proof.
  intros H. destruct (IsValid_ascii d H) as [H1 H2].
  unfold DmVerityInfo.validUTF8. now rewrite !allAscii_valid.
Qed.

End TextFacts.

(** ** The members an accepted object must have *)

Module MemberFacts.
Import Behaviour Json Spec.
Import Notions.

Lemma find_In {A : Type} (p : A -> bool) (l : list A) (x : A) :
  find p l = Some x -> In x l.
Proof.
  induction l as [| y l IH]; cbn; [discriminate |].
  destruct (p y); [intros [= ->]; now left | intros H; right; exact (IH H)].
Qed.

Lemma findField_In (names : list string) (k f : string) :
  findField names k = Some f -> In f names.
Proof.
  unfold findField. destruct (find (String.eqb k) names) eqn:E.
  - intros [= <-]. exact (find_In _ _ _ E).
  - apply find_In.
Qed.

(** A property of the struct that every setter but that of the field
    [skip] keeps holds after the members of an object are stored, unless
    one of them selects [skip]. *)
Lemma storeFields_unselected {T : Type} (names : list string)
  (set : string -> value -> T -> T + Json.error) (P : T -> Prop) (skip : string) :
  (forall f v a a', f <> skip -> set f v a = inl a' -> P a -> P a') ->
  forall m acc r,
    storeFields names set m acc = inl r -> P acc -> P r \/ hasMember names m skip.
Proof.
  intros Hset. induction m as [| [k v] m IH]; intros acc r Hs Hp.
  - cbn in Hs. injection Hs as <-. now left.
  - cbn [storeFields] in Hs. destruct (findField names k) as [f |] eqn:Hf.
    + destruct (string_dec f skip) as [-> | Hne].
      { right. exists k, v. split; [now left | exact Hf]. }
      destruct (set f v acc) as [acc' |] eqn:Ha; [| discriminate].
      destruct (IH acc' r Hs (Hset f v acc acc' Hne Ha Hp)) as [H | (k' & v' & Hin & H)].
      * now left.
      * right. exists k', v'. split; [now right | exact H].
    + destruct (IH acc r Hs Hp) as [H | (k' & v' & Hin & H)].
      * now left.
      * right. exists k', v'. split; [now right | exact H].
Qed.

Lemma verity_members (m : list (string * value)) (no : DmVerityInfo.t) :
  storeFields DmVerityInfo.names DmVerityInfo.set m DmVerityInfo.zero = inl no ->
  (DmVerityInfo.HashType no = "" \/ hasMember DmVerityInfo.names m "hashtype")
  /\ (DmVerityInfo.Hash no = "" \/ hasMember DmVerityInfo.names m "hash")
  /\ (DmVerityInfo.BlockNum no = 0 \/ hasMember DmVerityInfo.names m "blocknum")
  /\ (DmVerityInfo.Blocksize no = 0 \/ hasMember DmVerityInfo.names m "blocksize")
  /\ (DmVerityInfo.Hashsize no = 0 \/ hasMember DmVerityInfo.names m "hashsize")
  /\ (DmVerityInfo.Offset no = 0 \/ hasMember DmVerityInfo.names m "offset").
Proof.
  intros H. repeat split.
  - apply (storeFields_unselected DmVerityInfo.names DmVerityInfo.set (fun r => DmVerityInfo.HashType r = "") "hashtype")
      with (acc := DmVerityInfo.zero); [setter_keeps DmVerityInfo.set | exact H | reflexivity].
  - apply (storeFields_unselected DmVerityInfo.names DmVerityInfo.set (fun r => DmVerityInfo.Hash r = "") "hash")
      with (acc := DmVerityInfo.zero); [setter_keeps DmVerityInfo.set | exact H | reflexivity].
  - apply (storeFields_unselected DmVerityInfo.names DmVerityInfo.set (fun r => DmVerityInfo.BlockNum r = 0) "blocknum")
      with (acc := DmVerityInfo.zero); [setter_keeps DmVerityInfo.set | exact H | reflexivity].
  - apply (storeFields_unselected DmVerityInfo.names DmVerityInfo.set (fun r => DmVerityInfo.Blocksize r = 0) "blocksize")
      with (acc := DmVerityInfo.zero); [setter_keeps DmVerityInfo.set | exact H | reflexivity].
  - apply (storeFields_unselected DmVerityInfo.names DmVerityInfo.set (fun r => DmVerityInfo.Hashsize r = 0) "hashsize")
      with (acc := DmVerityInfo.zero); [setter_keeps DmVerityInfo.set | exact H | reflexivity].
  - apply (storeFields_unselected DmVerityInfo.names DmVerityInfo.set (fun r => DmVerityInfo.Offset r = 0) "offset")
      with (acc := DmVerityInfo.zero); [setter_keeps DmVerityInfo.set | exact H | reflexivity].
Qed.

(** No field of a verity descriptor that passes the rules holds the zero
    value of its type. *)
Lemma verityRules_set (d : DmVerityInfo.t) :
  verityRules d ->
  DmVerityInfo.HashType d <> "" /\ DmVerityInfo.Hash d <> ""
  /\ DmVerityInfo.BlockNum d <> 0 /\ DmVerityInfo.Blocksize d <> 0
  /\ DmVerityInfo.Hashsize d <> 0 /\ DmVerityInfo.Offset d <> 0.
Proof.
  intros (H1 & H2 & H3 & H4 & H5).
  unfold rule1, rule2, rule3, rule4, rule5, inBlockSizeRange in *.
  apply andb_true_iff in H3 as [H3 H3']. apply andb_true_iff in H4 as [H4 H4'].
  apply andb_true_iff in H5 as [H5 H5'].
  apply andb_true_iff in H4 as [H4a H4b]. apply andb_true_iff in H4' as [H4c H4d].
  apply negb_true_iff, N.eqb_neq in H3. apply N.leb_le in H4a, H4c, H5'.
  repeat split.
  - intros E. rewrite E in H1. discriminate H1.
  - intros E. rewrite E in H2. destruct (algorithmOf _) as [[|] |]; discriminate H2.
  - exact H3.
  - lia.
  - lia.
  - nia.
Qed.

Lemma rowOf_volumeTypes (vt : string) : rowOf vt <> OtherValue -> In vt volumeTypes.
Proof.
  unfold rowOf, volumeTypes. intros H.
  repeat match type of H with
         | context [String.eqb vt ?s] =>
             destruct (String.eqb_spec vt s) as [E | ?]; [rewrite E; vm_compute; tauto |]
         end.
  now contradiction H.
Qed.

Import KataVirtualVolume.

Lemma volume_members (m : list (string * value)) (no : KataVirtualVolume.t) :
  storeFields names set m zero = inl no ->
  (VolumeType no = "" \/ hasMember names m "volume_type")
  /\ (Source no = "" \/ hasMember names m "source")
  /\ (DirectVolume no = None \/ hasMember names m "direct_volume")
  /\ (ImagePull no = None \/ hasMember names m "image_pull")
  /\ (NydusImage no = None \/ hasMember names m "nydus_image")
  /\ (DmVerity no = None \/ hasMember names m "dm_verity").
Proof.
  intros H. repeat split.
  - apply (storeFields_unselected names set (fun r => VolumeType r = "") "volume_type")
      with (acc := zero); [setter_keeps set | exact H | reflexivity].
  - apply (storeFields_unselected names set (fun r => Source r = "") "source")
      with (acc := zero); [setter_keeps set | exact H | reflexivity].
  - apply (storeFields_unselected names set (fun r => DirectVolume r = None) "direct_volume")
      with (acc := zero); [setter_keeps set | exact H | reflexivity].
  - apply (storeFields_unselected names set (fun r => ImagePull r = None) "image_pull")
      with (acc := zero); [setter_keeps set | exact H | reflexivity].
  - apply (storeFields_unselected names set (fun r => NydusImage r = None) "nydus_image")
      with (acc := zero); [setter_keeps set | exact H | reflexivity].
  - apply (storeFields_unselected names set (fun r => DmVerity r = None) "dm_verity")
      with (acc := zero); [setter_keeps set | exact H | reflexivity].
Qed.

End MemberFacts.

(** ** ParseDmVerityInfo *)

Lemma verity_text_read (d : DmVerityInfo.t) :
  DmVerityInfo.inRange d = true -> DmVerityInfo.validUTF8 d = true ->
  Json.Unmarshal DmVerityInfo.names DmVerityInfo.set
    (list_ascii_of_string (string_of_list_ascii (Json.print (DmVerityInfo.encode d))))
    DmVerityInfo.zero = inl d.
Proof.
  intros Hr Hu. unfold Json.Unmarshal.
  rewrite list_ascii_of_string_of_list_ascii.
  rewrite JsonParseFacts.parse_print.
  2:{ unfold DmVerityInfo.encode. cbn [Json.readable forallb snd].
      now rewrite !StrconvFacts.readable_encodeUint64. }
  rewrite (CodecFacts.coerceValue_valid _ (CodecFacts.DmVerityInfo_validUTF8 d Hu)).
  pose proof (CodecFacts.DmVerityInfo_store d Hr) as Hs.
  unfold Json.storePointer in Hs. unfold Json.storeStruct.
  destruct (DmVerityInfo.encode d) as [| | | | |m]; try discriminate Hs.
  cbn [default] in Hs.
  destruct (Json.storeFields _ _ m DmVerityInfo.zero); congruence.
Qed.

(** X2: ParseDmVerityInfo reads back what json.Marshal writes for a verity
    descriptor that passes IsValid: for every such descriptor (with
    fields of 64 bits), parsing its JSON text returns the descriptor
    itself.  No condition on the strings is needed: those of a valid
    descriptor are ASCII. *)
Theorem ParseDmVerityInfo_round_trip (d : DmVerityInfo.t) :
  DmVerityInfo.IsValid d = None -> DmVerityInfo.inRange d = true ->
  ParseDmVerityInfo (string_of_list_ascii (Json.print (DmVerityInfo.encode d))) = inl d.
Proof.
  intros Hv Hr. unfold ParseDmVerityInfo.
  rewrite (verity_text_read d Hr (TextFacts.IsValid_validUTF8 d Hv)).
  now rewrite Hv.
Qed.

Lemma ParseDmVerityInfo_round_trip_witness :
  ParseDmVerityInfo (string_of_list_ascii (Json.print (DmVerityInfo.encode Spec.vector)))
  = inl Spec.vector.
Proof.
  apply (ParseDmVerityInfo_round_trip Spec.vector); vm_compute; reflexivity.
Defined.

(** X3: ParseDmVerityInfo accepts only a JSON object that has a member for
    each of the six fields (hashtype, hash, blocknum, blocksize, hashsize,
    offset; keys are matched as encoding/json matches them), and the
    descriptor it returns satisfies the five verity rules: a missing
    member leaves the zero value of its field, which no rule accepts. *)
Theorem ParseDmVerityInfo_accepts (option : string) (no : DmVerityInfo.t) :
  ParseDmVerityInfo option = inl no ->
  Spec.verityRules no
  /\ exists m, Json.parse (list_ascii_of_string option) = Some (Json.JObject m)
       /\ forall f, In f DmVerityInfo.names -> hasMember DmVerityInfo.names m f.
Proof.
  unfold ParseDmVerityInfo, Json.Unmarshal. intros H.
  destruct (Json.parse (list_ascii_of_string option)) as [v |]; [| discriminate].
  destruct (Json.storeStruct _ _ v DmVerityInfo.zero) as [no' |] eqn:Hs; [| discriminate].
  destruct (DmVerityInfo.IsValid no') eqn:Hv; [discriminate |].
  injection H as <-.
  apply VerityFacts.IsValid_verityRules in Hv. split; [exact Hv |].
  destruct (MemberFacts.verityRules_set _ Hv) as (N1 & N2 & N3 & N4 & N5 & N6).
  destruct v as [| | | | | m]; try discriminate Hs.
  { cbn in Hs. injection Hs as <-. now contradiction N1. }
  exists m. split; [reflexivity |].
  cbn [Json.storeStruct] in Hs.
  destruct (MemberFacts.verity_members m no' Hs) as (M1 & M2 & M3 & M4 & M5 & M6).
  intros f Hf. cbn in Hf.
  destruct Hf as [<- | [<- | [<- | [<- | [<- | [<- | []]]]]]]; tauto.
Qed.

Lemma ParseDmVerityInfo_accepts_witness :
  Spec.verityRules Spec.vector
  /\ exists m,
       Json.parse (list_ascii_of_string
                     (string_of_list_ascii (Json.print (DmVerityInfo.encode Spec.vector))))
       = Some (Json.JObject m)
       /\ forall f, In f DmVerityInfo.names -> hasMember DmVerityInfo.names m f.
Proof.
  apply (ParseDmVerityInfo_accepts
           (string_of_list_ascii (Json.print (DmVerityInfo.encode Spec.vector))) Spec.vector).
  vm_compute. reflexivity.
Defined.

(** ** ParseKataVirtualVolume *)

(** X4: ParseKataVirtualVolume accepts only a JSON object that has a
    volume_type member and a source member, and a direct_volume,
    nydus_image or image_pull member where the volume type it returns
    takes its payload from one; the descriptor it returns has one of the
    eight volume types and a source that is not empty. *)
Theorem ParseKataVirtualVolume_accepts (option : list ascii) (no : KataVirtualVolume.t) :
  ParseKataVirtualVolume option = inl no ->
  In (KataVirtualVolume.VolumeType no) volumeTypes
  /\ KataVirtualVolume.Source no <> ""
  /\ exists m, Json.parse option = Some (Json.JObject m)
       /\ hasMember KataVirtualVolume.names m "volume_type"
       /\ hasMember KataVirtualVolume.names m "source"
       /\ forall f, payloadMember (KataVirtualVolume.VolumeType no) = Some f ->
                    hasMember KataVirtualVolume.names m f.
Proof.
  unfold ParseKataVirtualVolume, Json.Unmarshal. intros H.
  destruct (Json.parse option) as [v |]; [| discriminate].
  destruct (Json.storeStruct _ _ v KataVirtualVolume.zero) as [no' |] eqn:Hs; [| discriminate].
  destruct (KataVirtualVolume.IsValid no') eqn:Hv; [| discriminate].
  injection H as <-.
  pose proof Hv as Hrow. rewrite IsValid_rows in Hrow.
  assert (Hvt : Spec.rowOf (KataVirtualVolume.VolumeType no') <> Spec.OtherValue).
  { intros E. rewrite E in Hrow. discriminate. }
  assert (Hsrc : KataVirtualVolume.Source no' <> "").
  { apply source_nonempty.
    destruct (Spec.rowOf _); try (now apply andb_true_iff in Hrow as [Hrow _]).
    discriminate. }
  split; [now apply MemberFacts.rowOf_volumeTypes |]. split; [exact Hsrc |].
  destruct v as [| | | | | m]; try discriminate Hs.
  { cbn in Hs. injection Hs as <-. now contradiction Hsrc. }
  exists m. split; [reflexivity |].
  cbn [Json.storeStruct] in Hs.
  destruct (MemberFacts.volume_members m no' Hs) as (M1 & M2 & M3 & M4 & M5 & _).
  split; [| split].
  - destruct M1 as [E | M1]; [| exact M1]. rewrite E in Hvt. now contradiction Hvt.
  - destruct M2 as [E | M2]; [contradiction | exact M2].
  - unfold payloadMember. intros f Hf.
    destruct (Spec.rowOf (KataVirtualVolume.VolumeType no')); try discriminate;
      injection Hf as <-; apply andb_true_iff in Hrow as [_ Hrow].
    + destruct M3 as [E | M3]; [| exact M3]. rewrite E in Hrow. discriminate.
    + destruct M5 as [E | M5]; [| exact M5]. rewrite E in Hrow. discriminate.
    + destruct M4 as [E | M4]; [| exact M4]. rewrite E in Hrow. discriminate.
Qed.

Lemma ParseKataVirtualVolume_accepts_witness :
  In (KataVirtualVolume.VolumeType Spec.fullVolume) volumeTypes
  /\ KataVirtualVolume.Source Spec.fullVolume <> ""
  /\ exists m,
       Json.parse (Json.print (KataVirtualVolume.encode Spec.fullVolume))
       = Some (Json.JObject m)
       /\ hasMember KataVirtualVolume.names m "volume_type"
       /\ hasMember KataVirtualVolume.names m "source"
       /\ forall f, payloadMember (KataVirtualVolume.VolumeType Spec.fullVolume) = Some f ->
                    hasMember KataVirtualVolume.names m f.
Proof.
  apply (ParseKataVirtualVolume_accepts
           (Json.print (KataVirtualVolume.encode Spec.fullVolume)) Spec.fullVolume).
  vm_compute. reflexivity.
Defined.

(** ** Transport text *)

Module TransportFacts.
Import Base64 Base64Facts VerityFacts.
Import Notions.

Lemma encode_std (i : N) : i < 64 -> isStdChar (encode i) = true.
Proof.
  intros H.
  assert (Hall : forallb (fun n => isStdChar (encode (N.of_nat n))) (seq 0 64) = true)
    by (vm_compute; reflexivity).
  rewrite forallb_forall in Hall.
  assert (Hin : In (N.to_nat i) (seq 0 64)) by (apply in_seq; lia).
  specialize (Hall (N.to_nat i) Hin). now rewrite N2Nat.id in Hall.
Qed.

Lemma encode_transport (v : N) : isTransportChar (encode (N.land v 63)) = true.
Proof. unfold isTransportChar. now rewrite encode_std by apply land63_lt. Qed.

Lemma decodeMap_std (c : ascii) (d : N) : decodeMap c = Some d -> isStdChar c = true.
Proof.
  assert (H : forallb (fun c => implb (bool_decide (is_Some (decodeMap c))) (isStdChar c))
                      all_ascii = true) by (vm_compute; reflexivity).
  rewrite forallb_forall in H. specialize (H c (in_all_ascii c)).
  intros E. rewrite E in H. exact H.
Qed.

Lemma Encode_transport (b : list ascii) :
  forallb isTransportChar (Encode b) = true /\ exists k, length (Encode b) = (4 * k)%nat.
Proof.
  induction b as [| b0 | b0 b1 | b0 b1 b2 r [IH (k & Hk)]] using list_ind3;
    cbn [Encode]; cbv zeta.
  - split; [reflexivity | now exists 0%nat].
  - split; [| now exists 1%nat]. cbn [forallb]. now rewrite !encode_transport.
  - split; [| now exists 1%nat]. cbn [forallb]. now rewrite !encode_transport.
  - split.
    + cbn [forallb]. now rewrite !encode_transport, IH.
    + exists (S k). cbn [length]. lia.
Qed.

Lemma length_string_of_list (l : list ascii) :
  String.length (string_of_list_ascii l) = length l.
Proof. induction l as [| c l IH]; cbn; [reflexivity | now rewrite IH]. Qed.

Lemma EncodeToString_transport (b : list ascii) : transportText (EncodeToString b).
Proof.
  unfold transportText, EncodeToString.
  rewrite list_ascii_of_string_of_list_ascii, length_string_of_list.
  destruct (Encode_transport b) as [H (k & ->)]. split; [exact H |].
  rewrite Nat.mul_comm. apply Nat.Div0.mod_mul.
Qed.

(** What the decoder accepts is transport text. *)
Lemma decodeQuanta_transport (n : nat) (src out : list ascii) :
  (length src <= n)%nat -> decodeQuanta src = Some out ->
  forallb isTransportChar src = true /\ exists k, length src = (4 * k)%nat.
Proof.
  revert src out. induction n as [| n IH]; intros src out Hn H.
  - destruct src; [| cbn in Hn; lia]. split; [reflexivity | now exists 0%nat].
  - destruct src as [| c0 [| c1 [| c2 [| c3 r]]]]; try discriminate H.
    { split; [reflexivity | now exists 0%nat]. }
    cbn [decodeQuanta] in H.
    destruct (decodeMap c0) as [d0 |] eqn:E0; [| discriminate].
    destruct (decodeMap c1) as [d1 |] eqn:E1; [| discriminate].
    apply decodeMap_std in E0, E1.
    cbn [forallb]. unfold isTransportChar at 1 2. rewrite E0, E1. cbn [orb andb].
    destruct (decodeMap c2) as [d2 |] eqn:E2.
    + apply decodeMap_std in E2. unfold isTransportChar at 1. rewrite E2. cbn [orb andb].
      destruct (decodeMap c3) as [d3 |] eqn:E3.
      * apply decodeMap_std in E3. unfold isTransportChar at 1. rewrite E3. cbn [orb andb].
        destruct (decodeQuanta r) as [out' |] eqn:Er; [| discriminate].
        destruct (IH r out' ltac:(cbn in Hn; lia) Er) as [Hr (k & Hk)].
        split; [exact Hr |]. exists (S k). cbn [length]. lia.
      * destruct (Ascii.eqb c3 padChar) eqn:P3; [| discriminate].
        destruct (bool_decide (r = [])) eqn:Hr; [| discriminate].
        apply bool_decide_eq_true in Hr. subst r.
        unfold isTransportChar. change "="%char with padChar. rewrite P3, orb_true_r.
        split; [reflexivity | now exists 1%nat].
    + destruct (Ascii.eqb c2 padChar) eqn:P2; [| discriminate].
      destruct (Ascii.eqb c3 padChar) eqn:P3; [| discriminate].
      destruct (bool_decide (r = [])) eqn:Hr; [| discriminate].
      apply bool_decide_eq_true in Hr. subst r.
      unfold isTransportChar. change "="%char with padChar. rewrite P2, P3, !orb_true_r.
      split; [reflexivity | now exists 1%nat].
Qed.

Lemma DecodeString_transport (s : string) (out : list ascii) :
  DecodeString s = inl out ->
  forallb isTransportChar (significant s) = true
  /\ (length (significant s) mod 4 = 0)%nat.
Proof.
  unfold DecodeString, significant. intros H.
  destruct (decodeQuanta _) as [out' |] eqn:E; [| discriminate].
  destruct (decodeQuanta_transport _ _ _ (Nat.le_refl _) E) as [H1 (k & ->)].
  split; [exact H1 |]. rewrite Nat.mul_comm. apply Nat.Div0.mod_mul.
Qed.

End TransportFacts.

(** X5: The transport string of a descriptor is base64 text: for every
    descriptor, EncodeKataVirtualVolumeToBase64 returns a string of
    letters, digits, [+], [/] and [=] only, whose length is a multiple of
    four; it holds no comma, no white space and no line break. *)
Theorem Encode_is_transport_text (v : KataVirtualVolume.t) :
  exists s, EncodeKataVirtualVolumeToBase64 v = inl s /\ transportText s.
Proof.
  eexists. split; [reflexivity |]. apply TransportFacts.EncodeToString_transport.
Qed.

(** X6: The option the assembler appends is one mount option: when
    remoteMountWithExtraOptions succeeds, the entry it appends to the
    overlay options is [extraoption=] followed by base64 text (letters,
    digits, [+], [/], [=], in groups of four), whatever the bootstrap
    path, the configuration, the snapshot directory and the version
    hold; no comma of theirs reaches the option. *)
Theorem extraoption_is_transport_text (o : snapshotter) (sid id : string)
  (overlayOptions : list string) (mounts : list Mount.t) :
  remoteMountWithExtraOptions o sid id overlayOptions = Returns mounts ->
  exists b64,
    mounts = [Mount.mk "fuse.nydus-overlayfs" "overlay"
                (overlayOptions ++ [String.append "extraoption=" b64])]
    /\ transportText b64
    /\ ~ In ","%char (list_ascii_of_string (String.append "extraoption=" b64)).
Proof.
  intros H. destruct (remoteMount_Returns _ _ _ _ _ H) as (eo & _ & ->).
  pose proof (TransportFacts.EncodeToString_transport
                (Json.print (ExtraOption.encode eo))) as Ht.
  revert Ht. generalize (Base64.EncodeToString (Json.print (ExtraOption.encode eo))).
  intros b64 Ht. exists b64. split; [reflexivity |].
  split; [exact Ht |]. destruct Ht as [Ht _].
  cbn [String.append list_ascii_of_string]. intros Hin.
  do 12 (destruct Hin as [Hin | Hin]; [discriminate Hin |]).
  rewrite forallb_forall in Ht. specialize (Ht _ Hin). discriminate Ht.
Qed.

Lemma extraoption_is_transport_text_witness :
  exists b64,
    [Mount.mk "fuse.nydus-overlayfs" "overlay"
       (Spec.exampleOptions
        ++ [String.append "extraoption="
              (Base64.EncodeToString
                 (Json.print
                    (ExtraOption.encode
                       (ExtraOption.mk "/a,b.boot" "{}" "/var/lib/snapshots/1" "v6"))))])]
    = [Mount.mk "fuse.nydus-overlayfs" "overlay"
         (Spec.exampleOptions ++ [String.append "extraoption=" b64])]
    /\ transportText b64
    /\ ~ In ","%char (list_ascii_of_string (String.append "extraoption=" b64)).
Proof.
  apply (extraoption_is_transport_text (Spec.oneSnapshot "/a,b.boot" Spec.someBootstrap)
           "1" "1" Spec.exampleOptions).
  reflexivity.
Defined.

(** X7: ParseKataVirtualVolumeFromBase64 takes padded standard base64 only:
    an input that holds, line breaks apart, a character that is no
    letter, digit, [+], [/] or [=] (the [-] and [_] of the URL alphabet
    among them), or whose length without line breaks is no multiple of
    four (unpadded base64), fails with the base64 decoding error. *)
Theorem ParseKataVirtualVolumeFromBase64_strict (option : string) :
  forallb isTransportChar (significant option) = false
  \/ (length (significant option) mod 4 <> 0)%nat ->
  ParseKataVirtualVolumeFromBase64 option
  = inr (ErrBase64Decoding Base64.CorruptInputError).
Proof.
  intros H. unfold ParseKataVirtualVolumeFromBase64.
  destruct (Base64.DecodeString option) as [out | []] eqn:E; [| reflexivity].
  destruct (TransportFacts.DecodeString_transport _ _ E) as [H1 H2].
  destruct H as [H | H]; [congruence | contradiction].
Qed.

Lemma ParseKataVirtualVolumeFromBase64_strict_witness :
  ParseKataVirtualVolumeFromBase64 "e30" = inr (ErrBase64Decoding Base64.CorruptInputError)
  /\ ParseKataVirtualVolumeFromBase64 "e-_=" = inr (ErrBase64Decoding Base64.CorruptInputError).
Proof.
  split.
  - apply (ParseKataVirtualVolumeFromBase64_strict "e30"). right. vm_compute. discriminate.
  - apply (ParseKataVirtualVolumeFromBase64_strict "e-_="). left. vm_compute. reflexivity.
Defined.

(** ** A descriptor after its passage through JSON *)

Module PassageFacts.
Import Json JsonStoreFacts CodecFacts TextFacts.
Import Notions.

Lemma coerceValue_object (m : list (string * value)) :
  coerceValue (JObject m) = JObject (map passed m).
Proof. reflexivity. Qed.

Lemma passed_key (name : string) (x : value) :
  allAscii name = true -> passed (name, x) = (name, coerceValue x).
Proof. intros H. unfold passed. cbn [fst snd]. now rewrite allAscii_coerce. Qed.

Lemma storeMembers_passed (l : list (string * string)) (acc : gmap string string) :
  storeMembers (map passed (map entry l)) acc
  = inl (foldl (fun a kv => <[coerce (fst kv) := coerce (snd kv)]> a) acc l).
Proof.
  revert acc. induction l as [| [k v] l IH]; intros acc; [reflexivity |].
  cbn [map entry passed fst snd coerceValue storeMembers storeString foldl].
  apply IH.
Qed.

Lemma storeStringMap_passed (m : option (gmap string string)) :
  storeStringMap (coerceValue (encodeStringMap m)) None = inl (option_map coerceMap m).
Proof.
  destruct m as [m |]; [| reflexivity].
  cbn [encodeStringMap option_map]. rewrite coerceValue_object.
  change (fun kv : string * string => (fst kv, JString (snd kv))) with entry.
  cbn [storeStringMap default]. now rewrite storeMembers_passed.
Qed.

Lemma DirectAssignedVolume_passed (d : DirectAssignedVolume.t) :
  storePointer DirectAssignedVolume.zero DirectAssignedVolume.names DirectAssignedVolume.set
    (coerceValue (DirectAssignedVolume.encode d)) None
  = inl (Some (DirectAssignedVolume.mk
                 (option_map coerceMap (DirectAssignedVolume.Metadata d)))).
Proof.
  destruct d as [m]. unfold DirectAssignedVolume.encode. rewrite coerceValue_object.
  cbn [map DirectAssignedVolume.Metadata]. rewrite passed_key by reflexivity.
  unfold storePointer. cbn [default].
  erewrite storeFields_cons;
    [| reflexivity
     | unfold DirectAssignedVolume.set; cbn -[encodeStringMap storeStringMap coerceValue];
       rewrite storeStringMap_passed; reflexivity].
  reflexivity.
Qed.

Lemma ImagePullVolume_passed (i : ImagePullVolume.t) :
  storePointer ImagePullVolume.zero ImagePullVolume.names ImagePullVolume.set
    (coerceValue (ImagePullVolume.encode i)) None
  = inl (Some (ImagePullVolume.mk (option_map coerceMap (ImagePullVolume.Metadata i)))).
Proof.
  destruct i as [m]. unfold ImagePullVolume.encode. rewrite coerceValue_object.
  cbn [map ImagePullVolume.Metadata]. rewrite passed_key by reflexivity.
  unfold storePointer. cbn [default].
  erewrite storeFields_cons;
    [| reflexivity
     | unfold ImagePullVolume.set; cbn -[encodeStringMap storeStringMap coerceValue];
       rewrite storeStringMap_passed; reflexivity].
  reflexivity.
Qed.

Lemma NydusImageVolume_passed (n : NydusImageVolume.t) :
  coerceValue (NydusImageVolume.encode n) = NydusImageVolume.encode (coerceNydus n).
Proof.
  destruct n as [c s]. unfold NydusImageVolume.encode, coerceNydus.
  rewrite coerceValue_object. cbn [map NydusImageVolume.Config NydusImageVolume.SnapshotDir].
  now rewrite !passed_key by reflexivity.
Qed.

Lemma DmVerityInfo_passed (d : DmVerityInfo.t) :
  coerceValue (DmVerityInfo.encode d) = DmVerityInfo.encode (coerceVerity d).
Proof.
  destruct d as [ht h bn bs hs off]. unfold DmVerityInfo.encode, coerceVerity.
  rewrite coerceValue_object.
  cbn [map DmVerityInfo.HashType DmVerityInfo.Hash DmVerityInfo.BlockNum DmVerityInfo.Blocksize
       DmVerityInfo.Hashsize DmVerityInfo.Offset].
  now rewrite !passed_key by reflexivity.
Qed.

Lemma passed_omitemptyString (name s : string) :
  allAscii name = true ->
  map passed (KataVirtualVolume.omitemptyString name s)
  = KataVirtualVolume.omitemptyString name (coerce s).
Proof.
  intros H. unfold KataVirtualVolume.omitemptyString. rewrite coerce_empty.
  destruct (String.eqb s ""); [reflexivity |]. cbn [map]. now rewrite passed_key.
Qed.

Lemma passed_omitemptyPointer {T : Type} (name : string) (enc : T -> value) (p : option T) :
  allAscii name = true ->
  map passed (KataVirtualVolume.omitemptyPointer name enc p)
  = KataVirtualVolume.omitemptyPointer name (fun x => coerceValue (enc x)) p.
Proof.
  intros H. destruct p as [x |]; [| reflexivity].
  cbn [KataVirtualVolume.omitemptyPointer map]. now rewrite passed_key.
Qed.

Lemma passed_strings (l : list string) :
  map coerceValue (map JString l) = map JString (map coerce l).
Proof. induction l as [| x l IH]; [reflexivity |]. cbn [map coerceValue]. now rewrite IH. Qed.

Import KataVirtualVolume.

(** The tree the reader builds from the text of a descriptor, stored into
    the zero descriptor. *)
Lemma store_passed (k : t) :
  inRange k = true ->
  storeStruct names set (coerceValue (encode k)) zero = inl (transported (coerceVolume k)).
Proof.
  destruct k as [vt src fst opts dv ip ni dm]. unfold inRange, transported, coerceVolume, encode.
  cbn [VolumeType Source FSType Options DirectVolume ImagePull NydusImage DmVerity].
  intros Hr. rewrite coerceValue_object. unfold storeStruct.
  rewrite !map_app.
  rewrite !passed_omitemptyString, !passed_omitemptyPointer by reflexivity.
  cbn [map]. rewrite passed_key by reflexivity. cbn [coerceValue].
  rewrite storeFields_app.
  erewrite storeFields_cons; [| reflexivity | reflexivity].
  cbn [storeFields zero VolumeType Source FSType Options DirectVolume ImagePull NydusImage
       DmVerity].
  set (vt' := coerce vt). set (src' := coerce src). set (fst' := coerce fst).
  assert (H1 : storeFields names set (omitemptyString "source" src')
                 (mk vt' "" "" None None None None None)
               = inl (mk vt' src' "" None None None None None)).
  { unfold omitemptyString. destruct (String.eqb_spec src' "") as [-> | _]; reflexivity. }
  rewrite storeFields_app, H1.
  assert (H2 : storeFields names set (omitemptyString "fs_type" fst')
                 (mk vt' src' "" None None None None None)
               = inl (mk vt' src' fst' None None None None None)).
  { unfold omitemptyString. destruct (String.eqb_spec fst' "") as [-> | _]; reflexivity. }
  rewrite storeFields_app, H2.
  set (o := match option_map (map coerce) opts with
            | Some (x :: l) => Some (x :: l)
            | _ => None
            end).
  assert (H3 : storeFields names set
                 (map passed
                    match opts with
                    | Some (x :: l) => [("options", encodeStringSlice (x :: l))]
                    | _ => []
                    end) (mk vt' src' fst' None None None None None)
               = inl (mk vt' src' fst' o None None None None)).
  { subst o. destruct opts as [[| x l] |]; try reflexivity.
    cbn [map option_map]. rewrite passed_key by reflexivity.
    unfold encodeStringSlice. cbn [coerceValue]. rewrite passed_strings.
    erewrite storeFields_cons;
      [reflexivity | reflexivity
       | unfold set; cbn -[storeStringSlice map coerce];
         unfold storeStringSlice;
         rewrite storeElements_strings; reflexivity]. }
  rewrite storeFields_app, H3.
  set (dv' := option_map (fun d => DirectAssignedVolume.mk
                                     (option_map coerceMap (DirectAssignedVolume.Metadata d)))
                         dv).
  assert (H4 : storeFields names set
                 (omitemptyPointer "direct_volume"
                    (fun x => coerceValue (DirectAssignedVolume.encode x)) dv)
                 (mk vt' src' fst' o None None None None)
               = inl (mk vt' src' fst' o dv' None None None)).
  { subst dv'. destruct dv as [d |]; [| reflexivity]. cbn [omitemptyPointer option_map].
    erewrite storeFields_cons;
      [reflexivity | reflexivity
       | unfold set; cbn -[storePointer DirectAssignedVolume.encode coerceValue];
         rewrite DirectAssignedVolume_passed; reflexivity]. }
  rewrite storeFields_app, H4.
  set (ip' := option_map (fun i => ImagePullVolume.mk
                                     (option_map coerceMap (ImagePullVolume.Metadata i))) ip).
  assert (H5 : storeFields names set
                 (omitemptyPointer "image_pull"
                    (fun x => coerceValue (ImagePullVolume.encode x)) ip)
                 (mk vt' src' fst' o dv' None None None)
               = inl (mk vt' src' fst' o dv' ip' None None)).
  { subst ip'. destruct ip as [d |]; [| reflexivity]. cbn [omitemptyPointer option_map].
    erewrite storeFields_cons;
      [reflexivity | reflexivity
       | unfold set; cbn -[storePointer ImagePullVolume.encode coerceValue];
         rewrite ImagePullVolume_passed; reflexivity]. }
  rewrite storeFields_app, H5.
  assert (H6 : storeFields names set
                 (omitemptyPointer "nydus_image"
                    (fun x => coerceValue (NydusImageVolume.encode x)) ni)
                 (mk vt' src' fst' o dv' ip' None None)
               = inl (mk vt' src' fst' o dv' ip' (option_map coerceNydus ni) None)).
  { destruct ni as [d |]; [| reflexivity]. cbn [omitemptyPointer option_map].
    erewrite storeFields_cons;
      [reflexivity | reflexivity
       | unfold set; cbn -[storePointer NydusImageVolume.encode coerceValue coerceNydus];
         rewrite NydusImageVolume_passed, NydusImageVolume_store; reflexivity]. }
  rewrite storeFields_app, H6.
  destruct dm as [d |]; [| reflexivity].
  cbn [omitemptyPointer option_map].
  erewrite storeFields_cons;
    [reflexivity | reflexivity
     | unfold set; cbn -[storePointer DmVerityInfo.encode coerceValue coerceVerity];
       rewrite DmVerityInfo_passed, DmVerityInfo_store by exact Hr; reflexivity].
Qed.

End PassageFacts.

Module ValidityFacts.
Import Json JsonStoreFacts CodecFacts TextFacts PassageFacts Spec.
Import Notions.

Lemma coerce_volumeType (vt : string) : rowOf vt <> OtherValue -> coerce vt = vt.
Proof.
  intros H. apply MemberFacts.rowOf_volumeTypes in H. cbn in H.
  repeat (destruct H as [<- | H]; [vm_compute; reflexivity |]). destruct H.
Qed.

Lemma coerceVerity_valid (d : DmVerityInfo.t) :
  DmVerityInfo.IsValid d = None -> coerceVerity d = d.
Proof.
  intros H. destruct (IsValid_ascii d H) as [H1 H2]. destruct d as [ht h bn bs hs off].
  unfold coerceVerity.
  cbn [DmVerityInfo.HashType DmVerityInfo.Hash DmVerityInfo.BlockNum DmVerityInfo.Blocksize
       DmVerityInfo.Hashsize DmVerityInfo.Offset] in *.
  now rewrite !allAscii_coerce.
Qed.

(** A descriptor that passes [IsValid] passes it after its passage
    through JSON. *)
Lemma IsValid_passed (k : KataVirtualVolume.t) :
  KataVirtualVolume.IsValid k = true ->
  KataVirtualVolume.IsValid (KataVirtualVolume.transported (coerceVolume k)) = true.
Proof.
  rewrite !IsValid_rows. intros H.
  assert (Hvt : rowOf (KataVirtualVolume.VolumeType k) <> OtherValue).
  { intros E. rewrite E in H. discriminate. }
  destruct k as [vt src fst opts dv ip ni dm].
  cbn [KataVirtualVolume.transported coerceVolume KataVirtualVolume.VolumeType
       KataVirtualVolume.Source KataVirtualVolume.FSType KataVirtualVolume.Options
       KataVirtualVolume.DirectVolume KataVirtualVolume.ImagePull KataVirtualVolume.NydusImage
       KataVirtualVolume.DmVerity] in *.
  rewrite (coerce_volumeType vt Hvt), coerce_empty.
  destruct (rowOf vt); try discriminate;
    apply andb_true_iff in H as [Hs H]; rewrite Hs; cbn [andb].
  - destruct dv as [[m] |]; [| discriminate]. now destruct m.
  - destruct dm as [d |]; [| reflexivity]. cbn [option_map].
    apply bool_decide_eq_true in H. rewrite (coerceVerity_valid d H).
    now apply bool_decide_eq_true.
  - destruct ni as [[c s] |]; [| discriminate]. cbn [option_map coerceNydus].
    unfold NydusImageVolume.IsValid, coerceNydus in *.
    cbn [NydusImageVolume.Config NydusImageVolume.SnapshotDir] in *.
    now rewrite !coerce_length.
  - destruct ip as [[m] |]; [| discriminate]. now destruct m.
Qed.

Lemma passed_valid (l : list (string * string)) :
  forallb (fun kv => Utf8.ValidString (fst kv) && Utf8.ValidString (snd kv)) l = true ->
  map passed (map entry l) = map entry l.
Proof.
  induction l as [| [k v] l IH]; [reflexivity |]. cbn [forallb fst snd]. intros H.
  apply andb_true_iff in H as [H Hl]. apply andb_true_iff in H as [Hk Hv].
  cbn [map].
  change (passed (entry (k, v))) with (coerce k, JString (coerce v)).
  now rewrite (JsonStringFacts.coerce_valid k Hk), (JsonStringFacts.coerce_valid v Hv), IH.
Qed.

Lemma coerceMap_valid (m : gmap string string) :
  validUTF8Map (Some m) = true -> coerceMap m = m.
Proof.
  intros H. cbn [validUTF8Map] in H.
  assert (Hs : forallb (fun kv => Utf8.ValidString (fst kv) && Utf8.ValidString (snd kv))
                 (merge_sort keyLe (map_to_list m)) = true).
  { apply (forallb_Permutation _ (map_to_list m)); [| exact H].
    symmetry. apply merge_sort_Permutation. }
  pose proof (storeMembers_passed (merge_sort keyLe (map_to_list m)) ∅) as Hp.
  rewrite (passed_valid _ Hs), storeMembers_entries, list_to_map_sorted in Hp.
  rewrite (right_id_L ∅ (∪)) in Hp. injection Hp as Hp. symmetry. exact Hp.
Qed.

Lemma coerce_list_valid (l : list string) :
  forallb Utf8.ValidString l = true -> map coerce l = l.
Proof.
  induction l as [| x l IH]; [reflexivity |]. cbn [forallb map]. intros H.
  apply andb_true_iff in H as [Hx Hl]. now rewrite (JsonStringFacts.coerce_valid x Hx), IH.
Qed.

(** The passage through JSON leaves a descriptor of well-formed UTF-8 as
    it is. *)
Lemma coerceVolume_valid (k : KataVirtualVolume.t) :
  KataVirtualVolume.validUTF8 k = true -> coerceVolume k = k.
Proof.
  unfold KataVirtualVolume.validUTF8. intros H.
  apply andb_true_iff in H as [H Hdm]. apply andb_true_iff in H as [H Hni].
  apply andb_true_iff in H as [H Hip]. apply andb_true_iff in H as [H Hdv].
  apply andb_true_iff in H as [H Hopt]. apply andb_true_iff in H as [H Hfs].
  apply andb_true_iff in H as [Hvt Hsrc].
  destruct k as [vt src fst opts dv ip ni dm]. unfold coerceVolume.
  cbn [KataVirtualVolume.VolumeType KataVirtualVolume.Source KataVirtualVolume.FSType
       KataVirtualVolume.Options KataVirtualVolume.DirectVolume KataVirtualVolume.ImagePull
       KataVirtualVolume.NydusImage KataVirtualVolume.DmVerity] in *.
  rewrite !JsonStringFacts.coerce_valid by assumption.
  f_equal.
  - destruct opts as [l |]; [| reflexivity]. cbn [option_map default] in *.
    now rewrite coerce_list_valid.
  - destruct dv as [[[m |]] |]; try reflexivity.
    cbn [option_map from_option DirectAssignedVolume.Metadata] in *.
    unfold DirectAssignedVolume.validUTF8 in Hdv. cbn in Hdv.
    now rewrite (coerceMap_valid m Hdv).
  - destruct ip as [[[m |]] |]; try reflexivity.
    cbn [option_map from_option ImagePullVolume.Metadata] in *.
    unfold ImagePullVolume.validUTF8 in Hip. cbn in Hip.
    now rewrite (coerceMap_valid m Hip).
  - destruct ni as [[c s] |]; [| reflexivity]. cbn [option_map from_option] in *.
    unfold NydusImageVolume.validUTF8 in Hni. unfold coerceNydus.
    cbn [NydusImageVolume.Config NydusImageVolume.SnapshotDir] in *.
    apply andb_true_iff in Hni as [Hc Hs].
    now rewrite !JsonStringFacts.coerce_valid.
  - destruct dm as [[ht h bn bs hs off] |]; [| reflexivity].
    cbn [option_map from_option] in *.
    unfold DmVerityInfo.validUTF8 in Hdm. unfold coerceVerity.
    cbn [DmVerityInfo.HashType DmVerityInfo.Hash DmVerityInfo.BlockNum DmVerityInfo.Blocksize
         DmVerityInfo.Hashsize DmVerityInfo.Offset] in *.
    apply andb_true_iff in Hdm as [Hc Hs].
    now rewrite !JsonStringFacts.coerce_valid.
Qed.

End ValidityFacts.

(** X8: Decoding the transport string of a valid descriptor always succeeds:
    for every descriptor that passes IsValid (with fields of 64 bits),
    ParseKataVirtualVolumeFromBase64 of the string
    EncodeKataVirtualVolumeToBase64 returns is the descriptor as JSON
    carries it: every string is passed through the coercion of
    json.Marshal to well-formed UTF-8 (a byte that is part of no
    well-formed rune becomes U+FFFD), the entries of a metadata map whose
    keys become equal are merged, and an options slice without elements
    comes back nil.  A descriptor whose strings are well-formed UTF-8 is
    left as it is by the coercion. *)
Theorem Parse_Encode_passage (v : KataVirtualVolume.t) :
  KataVirtualVolume.IsValid v = true -> KataVirtualVolume.inRange v = true ->
  (exists s, EncodeKataVirtualVolumeToBase64 v = inl s
             /\ ParseKataVirtualVolumeFromBase64 s
                = inl (KataVirtualVolume.transported (coerceVolume v)))
  /\ (KataVirtualVolume.validUTF8 v = true -> coerceVolume v = v).
Proof.
  intros Hv Hr. split; [| apply ValidityFacts.coerceVolume_valid].
  eexists. split; [reflexivity |].
  unfold ParseKataVirtualVolumeFromBase64.
  rewrite Base64Facts.DecodeString_EncodeToString.
  unfold ParseKataVirtualVolume, Json.Unmarshal.
  rewrite (JsonParseFacts.parse_print _ (CodecFacts.readable_volume v)).
  rewrite (PassageFacts.store_passed v Hr).
  now rewrite (ValidityFacts.IsValid_passed v Hv).
Qed.

Lemma Parse_Encode_passage_witness :
  (exists s, EncodeKataVirtualVolumeToBase64 byteVolume = inl s
             /\ ParseKataVirtualVolumeFromBase64 s
                = inl (KataVirtualVolume.transported (coerceVolume byteVolume)))
  /\ (KataVirtualVolume.validUTF8 byteVolume = true -> coerceVolume byteVolume = byteVolume).
Proof.
  apply (Parse_Encode_passage byteVolume); vm_compute; reflexivity.
Defined.

(** ** The mount option assembler *)

(** X9: remoteMountWithExtraOptions panics exactly when the bootstrap path of
    the snapshot resolves and the cache of instances returns nil for the
    id: the instance is read through the nil pointer.  When the
    bootstrap path does not resolve, the error of BootstrapFile is
    returned and the cache is not read; no other step panics. *)
Theorem remoteMount_panics_iff (o : snapshotter) (sid id : string)
  (overlayOptions : list string) :
  remoteMountWithExtraOptions o sid id overlayOptions = Panics
  <-> (exists source, BootstrapFile o id = inl source) /\ RafsGlobalCache_Get o id = None.
Proof.
  unfold remoteMountWithExtraOptions. split.
  - destruct (BootstrapFile o id) as [source | err]; [| discriminate].
    destruct (RafsGlobalCache_Get o id) as [instance |]; [| eauto].
    destruct (GetDaemonByID o (DaemonID instance)) as [daemon | err]; [| discriminate].
    destruct (if IsSharedDaemon daemon then _ else _) as [c | err]; [| discriminate].
    destruct (DumpString c); [| discriminate].
    destruct (os_Open o source) as [f | err]; [| discriminate].
    destruct (Read f 4096) as [header [err |]]; [discriminate |].
    destruct (DetectFsVersion o header); discriminate.
  - intros [[source ->] ->]. reflexivity.
Qed.

Lemma Read_sameHeader (f g : File) : sameHeader f g -> Read f 4096 = Read g 4096.
Proof.
  destruct f as [[| x c] | a], g as [[| y c'] | b]; cbn [sameHeader]; intros H;
    try contradiction; try discriminate H; try reflexivity.
  - unfold Read. now rewrite H.
  - now subst.
Qed.

(** X10: The assembler reads the header of the bootstrap file and nothing
    after it: two snapshotters that differ only in what os.Open returns,
    and there only in the bytes of the opened files after the first 4096,
    get the same result, mount or error, from
    remoteMountWithExtraOptions. *)
Theorem remoteMount_reads_header_only (o : snapshotter)
  (open : string -> File + string) (sid id : string) (overlayOptions : list string) :
  (forall path, sameOpen (os_Open o path) (open path)) ->
  remoteMountWithExtraOptions (withOpen o open) sid id overlayOptions
  = remoteMountWithExtraOptions o sid id overlayOptions.
Proof.
  intros H. unfold remoteMountWithExtraOptions, withOpen.
  cbn [BootstrapFile GetDaemonByID snapshotDir RafsGlobalCache_Get NewDaemonConfig os_Open
       DetectFsVersion].
  destruct (BootstrapFile o id) as [source | err]; [| reflexivity].
  destruct (RafsGlobalCache_Get o id) as [instance |]; [| reflexivity].
  destruct (GetDaemonByID o (DaemonID instance)) as [daemon | err]; [| reflexivity].
  destruct (if IsSharedDaemon daemon then _ else _) as [c | err]; [| reflexivity].
  destruct (DumpString c); [| reflexivity].
  specialize (H source). unfold sameOpen in H.
  destruct (os_Open o source) as [f | a], (open source) as [g | b]; try contradiction.
  - now rewrite (Read_sameHeader f g H).
  - now subst.
Qed.

Lemma remoteMount_reads_header_only_witness :
  remoteMountWithExtraOptions
    (withOpen (Spec.oneSnapshot "/image.boot" (longBootstrap "A"%char))
              (os_Open (Spec.oneSnapshot "/image.boot" (longBootstrap "B"%char))))
    "1" "1" Spec.exampleOptions
  = remoteMountWithExtraOptions (Spec.oneSnapshot "/image.boot" (longBootstrap "A"%char))
      "1" "1" Spec.exampleOptions.
Proof.
  apply (remoteMount_reads_header_only
           (Spec.oneSnapshot "/image.boot" (longBootstrap "A"%char))
           (os_Open (Spec.oneSnapshot "/image.boot" (longBootstrap "B"%char)))).
  intros path. cbn [os_Open Spec.oneSnapshot].
  destruct (String.eqb path "/image.boot"); vm_compute; reflexivity.
Defined.

(** ** Numbers that do not fit *)

Module NumberFacts.
Import Json.
Import Notions.

Lemma storeFields_error {T : Type} (names : list string)
  (set : string -> value -> T -> T + Json.error) :
  (forall f v a e, set f v a = inr e -> e = UnmarshalTypeError) ->
  forall m acc e, storeFields names set m acc = inr e -> e = UnmarshalTypeError.
Proof.
  intros Hset. induction m as [| [k v] m IH]; intros acc e H; [discriminate H |].
  cbn [storeFields] in H. destruct (findField names k) as [f |]; [| exact (IH _ _ H)].
  destruct (set f v acc) as [acc' | e'] eqn:E; [exact (IH _ _ H) |].
  injection H as <-. exact (Hset _ _ _ _ E).
Qed.

Lemma storeFields_fails {T : Type} (names : list string)
  (set : string -> value -> T -> T + Json.error) (k f : string) (x : value) :
  findField names k = Some f -> (forall a, exists e, set f x a = inr e) ->
  forall m acc, In (k, x) m -> exists e, storeFields names set m acc = inr e.
Proof.
  intros Hf Hset. induction m as [| [k' v'] m IH]; intros acc Hin; [destruct Hin |].
  cbn [storeFields]. destruct Hin as [[= -> ->] | Hin].
  - rewrite Hf. destruct (Hset acc) as [e ->]. now exists e.
  - destruct (findField names k') as [f' |]; [| exact (IH _ Hin)].
    destruct (set f' v' acc) as [acc' | e]; [exact (IH _ Hin) | now exists e].
Qed.

Lemma storeString_error (v : value) (old : string) (e : Json.error) :
  storeString v old = inr e -> e = UnmarshalTypeError.
Proof. destruct v; cbn; congruence. Qed.

Lemma storeUint64_error (v : value) (old : N) (e : Json.error) :
  storeUint64 v old = inr e -> e = UnmarshalTypeError.
Proof.
  destruct v; cbn; try congruence. destruct (Strconv.ParseUint lit); congruence.
Qed.

Lemma verity_set_error (f : string) (v : value) (a : DmVerityInfo.t) (e : Json.error) :
  DmVerityInfo.set f v a = inr e -> e = UnmarshalTypeError.
Proof.
  unfold DmVerityInfo.set, stored. intros H.
  repeat match type of H with
         | context [String.eqb f ?s] => destruct (String.eqb f s)
         end;
    try discriminate H;
    match type of H with
    | context [storeString ?x ?o] =>
        destruct (storeString x o) eqn:E; [discriminate H |];
        injection H as <-; exact (storeString_error _ _ _ E)
    | context [storeUint64 ?x ?o] =>
        destruct (storeUint64 x o) eqn:E; [discriminate H |];
        injection H as <-; exact (storeUint64_error _ _ _ E)
    end.
Qed.

Lemma storeUint64_unfit (x : value) (old : N) :
  fitsUint64 x = false -> storeUint64 x old = inr UnmarshalTypeError.
Proof.
  destruct x; cbn; try discriminate; try reflexivity.
  destruct (Strconv.ParseUint lit); [discriminate | reflexivity].
Qed.

Lemma verity_set_unfit (f : string) (x : value) (a : DmVerityInfo.t) :
  In f uint64Fields -> fitsUint64 x = false ->
  exists e, DmVerityInfo.set f x a = inr e.
Proof.
  intros Hf Hx. exists UnmarshalTypeError. cbn in Hf.
  destruct Hf as [<- | [<- | [<- | [<- | []]]]];
    unfold DmVerityInfo.set; cbn -[storeUint64]; now rewrite storeUint64_unfit.
Qed.

End NumberFacts.

(** X11: A number that does not fit a uint64 field is refused, never wrapped
    or truncated: when the JSON object given to ParseDmVerityInfo has a
    member for blocknum, blocksize, hashsize or offset whose value is
    neither null nor a number that strconv.ParseUint reads as a value of
    64 bits (a negative number, one with a fraction or an exponent, one
    above 2^64-1, a string, ...), ParseDmVerityInfo fails with the
    wrapped type error of json.Unmarshal, whatever the other members
    are. *)
Theorem ParseDmVerityInfo_number_unfit (option : string) (m : list (string * Json.value))
  (k f : string) (x : Json.value) :
  Json.parse (list_ascii_of_string option) = Some (Json.JObject m) ->
  In (k, x) m -> Json.findField DmVerityInfo.names k = Some f -> In f uint64Fields ->
  fitsUint64 x = false ->
  ParseDmVerityInfo option = inr (DmVerityUnmarshalErr Json.UnmarshalTypeError).
Proof.
  intros Hp Hin Hf Hu Hx. unfold ParseDmVerityInfo, Json.Unmarshal. rewrite Hp.
  cbn [Json.storeStruct].
  destruct (NumberFacts.storeFields_fails DmVerityInfo.names DmVerityInfo.set k f x Hf
              (fun a => NumberFacts.verity_set_unfit f x a Hu Hx) m DmVerityInfo.zero Hin)
    as [e He].
  rewrite He.
  now rewrite (NumberFacts.storeFields_error _ _ NumberFacts.verity_set_error _ _ _ He).
Qed.

Lemma ParseDmVerityInfo_number_unfit_witness :
  ParseDmVerityInfo
    (string_of_list_ascii
       (Json.print (Json.JObject [("hashtype", Json.JString "sha256");
                                  ("offset", Json.JNumber "18446744073709551616")])))
  = inr (DmVerityUnmarshalErr Json.UnmarshalTypeError).
Proof.
  apply (ParseDmVerityInfo_number_unfit _
           [("hashtype", Json.JString "sha256");
            ("offset", Json.JNumber "18446744073709551616")]
           "offset" "offset" (Json.JNumber "18446744073709551616")).
  - vm_compute. reflexivity.
  - right. left. reflexivity.
  - reflexivity.
  - vm_compute. tauto.
  - vm_compute. reflexivity.
Defined.

(** ** What the reader returns is well-formed UTF-8 *)

Module RuneFacts.
Import Utf8 Utf8Facts TextFacts.
Import Notions.

Lemma Valid_ascii_cons (c : ascii) (t : list ascii) :
  N_of_ascii c < 128 -> Valid (c :: t) = Valid t.
Proof.
  intros H. cbn [Valid]. rewrite (DecodeRune_ascii c t H). cbn [snd].
  apply N.ltb_lt in H. now rewrite H.
Qed.

Lemma N_of_byte (n : N) : n < 256 -> N_of_ascii (byte_of_N n) = n.
Proof. intros H. rewrite N_of_byte_of_N. now apply N.mod_small. Qed.

Lemma isCont_byte (n : N) : 128 <= n <= 191 -> isCont (byte_of_N n) = true.
Proof.
  intros H. unfold isCont. rewrite N_of_byte by lia.
  apply andb_true_iff. split; apply N.leb_le; lia.
Qed.

Lemma Valid2 (b0 b1 : N) (t : list ascii) :
  194 <= b0 <= 223 -> 128 <= b1 <= 191 ->
  Valid ([byte_of_N b0; byte_of_N b1] ++ t) = Valid t.
Proof.
  intros H0 H1. cbn [app Valid].
  rewrite DecodeRune2 by (rewrite ?N_of_byte by lia; (lia || now apply isCont_byte)).
  reflexivity.
Qed.

Lemma Valid3 (b0 b1 b2 : N) (t : list ascii) :
  224 <= b0 <= 239 -> 128 <= b1 <= 191 -> 128 <= b2 <= 191 ->
  (b0 = 224 -> 160 <= b1) -> (b0 = 237 -> b1 <= 159) ->
  Valid ([byte_of_N b0; byte_of_N b1; byte_of_N b2] ++ t) = Valid t.
Proof.
  intros H0 H1 H2 Hlo Hhi. cbn [app Valid].
  rewrite DecodeRune3; [reflexivity | | |]; rewrite ?N_of_byte by lia; try lia.
  rewrite isCont_byte by lia. rewrite andb_true_r.
  apply andb_true_iff. split; apply N.leb_le.
  - destruct (N.eqb_spec b0 224); [now apply Hlo | lia].
  - destruct (N.eqb_spec b0 237); [now apply Hhi | lia].
Qed.

Lemma Valid4 (b0 b1 b2 b3 : N) (t : list ascii) :
  240 <= b0 <= 244 -> 128 <= b1 <= 191 -> 128 <= b2 <= 191 -> 128 <= b3 <= 191 ->
  (b0 = 240 -> 144 <= b1) -> (b0 = 244 -> b1 <= 143) ->
  Valid ([byte_of_N b0; byte_of_N b1; byte_of_N b2; byte_of_N b3] ++ t) = Valid t.
Proof.
  intros H0 H1 H2 H3 Hlo Hhi. cbn [app Valid].
  rewrite DecodeRune4; [reflexivity | | |]; rewrite ?N_of_byte by lia; try lia.
  rewrite !isCont_byte by lia. rewrite !andb_true_r.
  apply andb_true_iff. split; apply N.leb_le.
  - destruct (N.eqb_spec b0 240); [now apply Hlo | lia].
  - destruct (N.eqb_spec b0 244); [now apply Hhi | lia].
Qed.

(** The bytes [EncodeRune] writes are one well-formed rune. *)
Lemma Valid_EncodeRune (r : N) (t : list ascii) : Valid (EncodeRune r ++ t) = Valid t.
Proof.
  destruct (N.le_gt_cases r 127) as [H1 | H1].
  { unfold EncodeRune. apply N.leb_le in H1. rewrite H1. apply N.leb_le in H1.
    cbn [app]. apply Valid_ascii_cons. rewrite N_of_byte; lia. }
  destruct (N.le_gt_cases r 2047) as [H2 | H2].
  { replace r with ((192 + r / 64 - 192) * 64 + (128 + r mod 64 - 128)) by euclid.
    rewrite EncodeRune2 by euclid. apply Valid2; euclid. }
  destruct ((MaxRune <? r) || ((55296 <=? r) && (r <=? 57343))) eqn:E3.
  { unfold EncodeRune.
    replace (r <=? 127) with false by (symmetry; apply N.leb_gt; lia).
    replace (r <=? 2047) with false by (symmetry; apply N.leb_gt; lia).
    rewrite E3. apply (Valid3 239 191 189); lia. }
  apply orb_false_iff in E3 as [E3 E4]. apply N.ltb_ge in E3. unfold MaxRune in E3.
  assert (Hs : r < 55296 \/ 57343 < r).
  { apply andb_false_iff in E4 as [E4 | E4];
      [apply N.leb_gt in E4; now left | apply N.leb_gt in E4; now right]. }
  destruct (N.le_gt_cases r 65535) as [H4 | H4].
  { replace r with ((224 + r / 4096 - 224) * 4096 + (128 + (r / 64) mod 64 - 128) * 64
                    + (128 + r mod 64 - 128)) by euclid.
    rewrite EncodeRune3 by euclid. apply Valid3; euclid. }
  replace r with ((240 + r / 262144 - 240) * 262144 + (128 + (r / 4096) mod 64 - 128) * 4096
                  + (128 + (r / 64) mod 64 - 128) * 64 + (128 + r mod 64 - 128)) by euclid.
  rewrite EncodeRune4 by euclid. apply Valid4; euclid.
Qed.

End RuneFacts.

Module ReaderFacts.
Import Json Utf8 JsonStringFacts RuneFacts.
Import Notions.

Lemma Valid_ascii_byte (c : ascii) (t : list ascii) :
  (N_of_ascii c <? 128) = true -> Valid ([c] ++ t) = Valid t.
Proof. intros H. apply Valid_ascii_cons. now apply N.ltb_lt. Qed.

(** The bytes an escape stands for are one rune. *)
Lemma unescape_rune (r bytes : list ascii) (n : nat) :
  unescape r = Some (bytes, n) -> forall t, Valid (bytes ++ t) = Valid t.
Proof.
  unfold unescape. destruct r as [| e r1]; [discriminate |].
  destruct (Ascii.eqb e dquote || Ascii.eqb e backslash || Ascii.eqb e "/"%char) eqn:E.
  { intros [= <- <-] t. apply Valid_ascii_byte.
    apply orb_true_iff in E as [E | E]; [apply orb_true_iff in E as [E | E] |];
      apply Ascii.eqb_eq in E; subst e; reflexivity. }
  repeat match goal with
         | |- (if ?b then _ else _) = _ -> _ =>
             destruct b; [intros [= <- <-] t; now apply Valid_ascii_byte |]
         end.
  destruct (Ascii.eqb e "u"%char); [| discriminate].
  destruct r1 as [| h1 [| h2 [| h3 [| h4 r5]]]]; try discriminate.
  destruct (getu4 h1 h2 h3 h4) as [rr |]; [| discriminate].
  destruct (isSurrogate rr).
  - destruct r5 as [| b1 [| u1 [| g1 [| g2 [| g3 [| g4 r11]]]]]];
      try (intros [= <- <-] t; apply Valid_EncodeRune).
    destruct (if Ascii.eqb b1 backslash && Ascii.eqb u1 "u"%char then _ else _) as [rr1 |].
    + destruct (utf16DecodeRune rr rr1 =? RuneError);
        intros [= <- <-] t; apply Valid_EncodeRune.
    + intros [= <- <-] t; apply Valid_EncodeRune.
  - intros [= <- <-] t; apply Valid_EncodeRune.
Qed.

(** A string literal is read as well-formed UTF-8, whatever its bytes. *)
Lemma unquote_valid (s str rest : list ascii) :
  unquote s = Some (str, rest) -> Valid str = true.
Proof.
  remember (length s) as n eqn:Hn. revert s str rest Hn.
  induction n as [n IH] using lt_wf_ind. intros s str rest Hn H.
  destruct s as [| c r]; [discriminate |].
  cbn [unquote] in H. cbn [length] in Hn.
  assert (IH' : forall t str', (length t <= length r)%nat ->
                 unquote t = Some (str', rest) -> Valid str' = true).
  { intros t str' Ht Hu. exact (IH (length t) ltac:(lia) t str' rest eq_refl Hu). }
  destruct (Ascii.eqb c dquote).
  { injection H as <- <-. reflexivity. }
  destruct (Ascii.eqb c backslash).
  { destruct (unescape r) as [[bytes k] |] eqn:Eu; [| discriminate].
    apply consBytes_Some in H as (str' & H & ->).
    rewrite (unescape_rune _ _ _ Eu).
    destruct k as [| [| [| [| [| [| [| [| [| [| [| [| k]]]]]]]]]]]]; try discriminate;
      destruct r as [| ? r]; try discriminate.
    - eapply IH'; [| exact H]. cbn; lia.
    - do 4 (destruct r as [| ? r]; try discriminate).
      eapply IH'; [| exact H]. cbn; lia.
    - do 10 (destruct r as [| ? r]; try discriminate).
      eapply IH'; [| exact H]. cbn; lia. }
  destruct (N_of_ascii c <? 32); [discriminate |].
  destruct (N_of_ascii c <? 128) eqn:Ec.
  { apply consBytes_Some in H as (str' & H & ->). rewrite (Valid_ascii_byte _ _ Ec).
    eapply IH'; [| exact H]. lia. }
  destruct (DecodeRune (c :: r)) as [rr size].
  apply consBytes_Some in H as (str' & H & ->). rewrite Valid_EncodeRune.
  destruct size as [| [| [| [| [| k]]]]].
  - eapply IH'; [| exact H]; lia.
  - eapply IH'; [| exact H]; lia.
  - destruct r as [| ? r]; eapply IH'; try exact H; cbn; lia.
  - destruct r as [| ? [| ? r]]; eapply IH'; try exact H; cbn; lia.
  - destruct r as [| ? [| ? [| ? r]]]; eapply IH'; try exact H; cbn; lia.
  - eapply IH'; [| exact H]; lia.
Qed.

End ReaderFacts.

Module TreeFacts.
Import Json Utf8 JsonStringFacts JsonParseFacts ReaderFacts.
Import Notions.

Lemma scanToken_valid (c : ascii) (r rest : list ascii) (t : token) :
  scanToken c r = Some (Some t, rest) -> validToken t = true.
Proof.
  unfold scanToken.
  repeat match goal with
         | |- (if ?b then _ else _) = _ -> _ =>
             destruct b; [try (now intros [= <- <-]) |]
         end; try discriminate.
  - destruct (unquote r) as [[str rest'] |] eqn:E; [| discriminate].
    intros [= <- <-]. cbn [validToken]. unfold ValidString.
    rewrite list_ascii_of_string_of_list_ascii. exact (unquote_valid _ _ _ E).
  - destruct (span isNumberChar (c :: r)) as [lit rest'].
    destruct (validNumber lit); [| discriminate]. now intros [= <- <-].
  - destruct (span isLetter (c :: r)) as [w rest'].
    destruct (word w) as [t' |] eqn:E; [| discriminate]. intros [= <- <-].
    unfold word in E.
    repeat match type of E with
           | (if ?b then _ else _) = _ => destruct b; [now injection E as <- |]
           end.
    discriminate E.
Qed.

Lemma lex_valid (fuel : nat) (s : list ascii) (ts : list token) :
  lex fuel s = Ok ts -> forallb validToken ts = true.
Proof.
  revert s ts. induction fuel as [| fuel IH]; intros s ts H.
  - destruct s; [injection H as <-; reflexivity | discriminate H].
  - destruct s as [| c r]; [injection H as <-; reflexivity |].
    cbn [lex] in H. destruct (scanToken c r) as [[[t |] rest] |] eqn:E; [| | discriminate].
    + apply omap_Ok in H as (ts' & H & ->). cbn [forallb].
      now rewrite (scanToken_valid _ _ _ _ E), (IH _ _ H).
    + exact (IH _ _ H).
Qed.

(** The strings of a tree read from valid tokens are well-formed. *)
Lemma parse_valid (fuel : nat) :
  (forall d ts v r, parse_value fuel d ts = Ok (v, r) -> forallb validToken ts = true ->
     validUTF8 v = true /\ forallb validToken r = true)
  /\ (forall d ts l r, parse_elements fuel d ts = Ok (l, r) ->
        forallb validToken ts = true ->
        forallb validUTF8 l = true /\ forallb validToken r = true)
  /\ (forall d ts m r, parse_members fuel d ts = Ok (m, r) ->
        forallb validToken ts = true ->
        forallb (fun kv => ValidString (fst kv) && validUTF8 (snd kv)) m = true
        /\ forallb validToken r = true).
Proof.
  induction fuel as [| fuel (IHv & IHe & IHm)].
  { repeat split; intros; discriminate. }
  split; [| split].
  - intros d ts v r H Hts. cbn [parse_value] in H.
    destruct ts as [| t ts]; [discriminate |].
    cbn [forallb] in Hts. apply andb_true_iff in Hts as [Ht Hts].
    destruct t; try discriminate; try (injection H as <- <-; now split).
    + destruct (maxNestingDepth <=? d); [discriminate |].
      destruct ts as [| t' ts']; [| destruct t'];
        try (injection H as <- <-; split; [reflexivity | cbn [forallb validToken] in Hts; now apply andb_true_iff in Hts as [_ Hts]]);
        apply omap_Ok in H as ([m r'] & H & E); injection E as -> ->;
        apply IHm in H; try exact Hts; exact H.
    + destruct (maxNestingDepth <=? d); [discriminate |].
      destruct ts as [| t' ts']; [| destruct t'];
        try (injection H as <- <-; split; [reflexivity | cbn [forallb validToken] in Hts; now apply andb_true_iff in Hts as [_ Hts]]);
        apply omap_Ok in H as ([m r'] & H & E); injection E as -> ->;
        apply IHe in H; try exact Hts; exact H.
  - intros d ts l r H Hts. cbn [parse_elements] in H.
    destruct (parse_value fuel d ts) as [[v r0] | |] eqn:Hv; try discriminate.
    apply IHv in Hv; [| exact Hts]. destruct Hv as [Hv Hr0].
    destruct r0 as [| t r0]; [discriminate |].
    cbn [forallb] in Hr0. apply andb_true_iff in Hr0 as [_ Hr0].
    destruct t; try discriminate.
    + injection H as <- <-. cbn [forallb]. now rewrite Hv.
    + apply omap_Ok in H as ([l' r'] & H & E). injection E as -> ->.
      apply IHe in H; [| exact Hr0]. destruct H as [Hl Hr]. cbn [forallb].
      now rewrite Hv, Hl.
  - intros d ts m r H Hts. cbn [parse_members] in H.
    destruct ts as [| t ts]; [discriminate |]. destruct t; try discriminate.
    destruct ts as [| t ts]; [discriminate |]. destruct t; try discriminate.
    cbn [forallb validToken] in Hts. apply andb_true_iff in Hts as [Hk Hts].
    cbn [andb] in Hts.
    destruct (parse_value fuel d ts) as [[v r0] | |] eqn:Hv; try discriminate.
    apply IHv in Hv; [| exact Hts]. destruct Hv as [Hv Hr0].
    destruct r0 as [| t r0]; [discriminate |].
    cbn [forallb] in Hr0. apply andb_true_iff in Hr0 as [_ Hr0].
    destruct t; try discriminate.
    + injection H as <- <-. cbn [forallb fst snd]. now rewrite Hk, Hv.
    + apply omap_Ok in H as ([l' r'] & H & E). injection E as -> ->.
      apply IHm in H; [| exact Hr0]. destruct H as [Hl Hr]. cbn [forallb fst snd].
      now rewrite Hk, Hv, Hl.
Qed.

(** Every string of a tree the reader returns is well-formed UTF-8. *)
Lemma parse_validUTF8 (data : list ascii) (v : value) :
  parse data = Some v -> validUTF8 v = true.
Proof.
  unfold parse, parse_outcome.
  destruct (lex (length data) data) as [ts | |] eqn:El; try discriminate.
  destruct (parse_value _ 0 ts) as [[v' [| t r]] | |] eqn:Ep; try discriminate.
  intros [= <-].
  exact (proj1 (proj1 (parse_valid _) _ _ _ _ Ep (lex_valid _ _ _ El))).
Qed.

End TreeFacts.

(** ** What the decoder stores is well formed *)

Module StoredFacts.
Import Json Utf8.
Import Notions.

Lemma storeString_valid (v : value) (old s : string) :
  storeString v old = inl s -> validUTF8 v = true -> ValidString old = true ->
  ValidString s = true.
Proof. destruct v; cbn; try discriminate; intros [= <-]; auto. Qed.

Lemma storeUint64_range (v : value) (old n : N) :
  storeUint64 v old = inl n -> old < 2 ^ 64 -> n < 2 ^ 64.
Proof.
  destruct v; cbn; try discriminate; [now intros [= <-] |].
  unfold Strconv.ParseUint. destruct (NilZero.uint_of_string lit) as [u |]; [| discriminate].
  cbv zeta. destruct (N.ltb_spec (N.of_uint u) (2 ^ 64)); [| discriminate].
  now intros [= <-].
Qed.

Lemma storeElements_valid (l : list value) (old r : list string) :
  storeElements l old = inl r -> forallb validUTF8 l = true ->
  forallb ValidString old = true -> forallb ValidString r = true.
Proof.
  revert old r. induction l as [| v l IH]; intros old r H Hl Ho.
  - injection H as <-. reflexivity.
  - cbn [storeElements] in H. cbn [forallb] in Hl. apply andb_true_iff in Hl as [Hv Hl].
    destruct (storeString v (hd EmptyString old)) as [s |] eqn:Es; [| discriminate].
    destruct (storeElements l (tl old)) as [rest |] eqn:Er; [| discriminate].
    injection H as <-. cbn [forallb].
    assert (Hh : ValidString (hd EmptyString old) = true).
    { destruct old; [reflexivity |]. cbn in *. now apply andb_true_iff in Ho as [Ho _]. }
    assert (Ht : forallb ValidString (tl old) = true).
    { destruct old; [reflexivity |]. cbn in *. now apply andb_true_iff in Ho as [_ Ho]. }
    now rewrite (storeString_valid _ _ _ Es Hv Hh), (IH _ _ Er Hl Ht).
Qed.

Lemma storeStringSlice_valid (v : value) (old r : option (list string)) :
  storeStringSlice v old = inl r -> validUTF8 v = true ->
  forallb ValidString (default [] old) = true -> forallb ValidString (default [] r) = true.
Proof.
  destruct v; cbn [storeStringSlice]; try discriminate.
  - now intros [= <-].
  - destruct (storeElements l (default [] old)) as [s |] eqn:E; [| discriminate].
    intros [= <-] Hl Ho. cbn [default validUTF8] in *. exact (storeElements_valid _ _ _ E Hl Ho).
Qed.

Lemma validUTF8Map_insert (m : gmap string string) (k s : string) :
  ValidString k = true -> ValidString s = true -> validUTF8Map (Some m) = true ->
  validUTF8Map (Some (<[k:=s]> m)) = true.
Proof.
  cbn [validUTF8Map]. rewrite !forallb_forall. intros Hk Hs Hm [i x] Hin.
  apply list_elem_of_In, elem_of_map_to_list, lookup_insert_Some in Hin.
  destruct Hin as [[<- <-] | [_ Hin]].
  - cbn [fst snd]. now rewrite Hk, Hs.
  - apply Hm. now apply list_elem_of_In, elem_of_map_to_list.
Qed.

Lemma storeMembers_valid (m : list (string * value)) (acc r : gmap string string) :
  storeMembers m acc = inl r ->
  forallb (fun kv => ValidString (fst kv) && validUTF8 (snd kv)) m = true ->
  validUTF8Map (Some acc) = true -> validUTF8Map (Some r) = true.
Proof.
  revert acc. induction m as [| [k v] m IH]; intros acc H Hm Ha.
  - now injection H as <-.
  - cbn [storeMembers] in H. cbn [forallb fst snd] in Hm.
    apply andb_true_iff in Hm as [Hkv Hm]. apply andb_true_iff in Hkv as [Hk Hv].
    destruct (storeString v EmptyString) as [s |] eqn:Es; [| discriminate].
    apply (IH _ H Hm). apply validUTF8Map_insert; [exact Hk | | exact Ha].
    exact (storeString_valid _ _ _ Es Hv eq_refl).
Qed.

Lemma storeStringMap_valid (v : value) (old r : option (gmap string string)) :
  storeStringMap v old = inl r -> validUTF8 v = true ->
  validUTF8Map old = true -> validUTF8Map r = true.
Proof.
  destruct v; cbn [storeStringMap]; try discriminate.
  - now intros [= <-].
  - destruct (storeMembers m (default ∅ old)) as [acc |] eqn:E; [| discriminate].
    intros [= <-] Hm Ho. apply (storeMembers_valid _ _ _ E Hm).
    destruct old as [o |]; [exact Ho | reflexivity].
Qed.

(** A property of the struct that every setter keeps when it stores a
    tree of well-formed strings holds after the members of such an object
    are stored. *)
Lemma storeFields_kept {T : Type} (names : list string)
  (set : string -> value -> T -> T + Json.error) (I : T -> Prop) :
  (forall f v a a', validUTF8 v = true -> set f v a = inl a' -> I a -> I a') ->
  forall m acc r,
    forallb (fun kv => ValidString (fst kv) && validUTF8 (snd kv)) m = true ->
    storeFields names set m acc = inl r -> I acc -> I r.
Proof.
  intros Hset. induction m as [| [k v] m IH]; intros acc r Hm H Ha.
  - now injection H as <-.
  - cbn [storeFields] in H. cbn [forallb fst snd] in Hm.
    apply andb_true_iff in Hm as [Hkv Hm]. apply andb_true_iff in Hkv as [_ Hv].
    destruct (findField names k) as [f |]; [| exact (IH _ _ Hm H Ha)].
    destruct (set f v acc) as [acc' |] eqn:E; [| discriminate].
    exact (IH _ _ Hm H (Hset _ _ _ _ Hv E Ha)).
Qed.

Lemma storePointer_kept {T : Type} (zero : T) (names : list string)
  (set : string -> value -> T -> T + Json.error) (I : T -> Prop) :
  (forall f v a a', validUTF8 v = true -> set f v a = inl a' -> I a -> I a') ->
  I zero ->
  forall v old r, validUTF8 v = true -> storePointer zero names set v old = inl r ->
    from_option I True old -> from_option I True r.
Proof.
  intros Hset Hz v old r Hv H Ho.
  destruct v; cbn [storePointer] in H; try discriminate.
  - now injection H as <-.
  - destruct (storeFields names set m (default zero old)) as [t |] eqn:E; [| discriminate].
    injection H as <-. cbn [from_option].
    apply (storeFields_kept names set I Hset m _ _ Hv E).
    destruct old; [exact Ho | exact Hz].
Qed.

(** The setters of the structs. *)
Lemma verity_set_kept (f : string) (v : value) (a a' : DmVerityInfo.t) :
  validUTF8 v = true -> DmVerityInfo.set f v a = inl a' ->
  DmVerityInfo.validUTF8 a = true /\ DmVerityInfo.inRange a = true ->
  DmVerityInfo.validUTF8 a' = true /\ DmVerityInfo.inRange a' = true.
Proof.
  intros Hv Hs [Hu Hr]. destruct a as [ht h bn bs hs off].
  unfold DmVerityInfo.validUTF8, DmVerityInfo.inRange, DmVerityInfo.set, stored in *.
  cbn [DmVerityInfo.HashType DmVerityInfo.Hash DmVerityInfo.BlockNum DmVerityInfo.Blocksize
       DmVerityInfo.Hashsize DmVerityInfo.Offset] in *.
  apply andb_true_iff in Hu as [Hu1 Hu2].
  apply andb_true_iff in Hr as [Hr Hr4]. apply andb_true_iff in Hr as [Hr Hr3].
  apply andb_true_iff in Hr as [Hr1 Hr2].
  repeat match type of Hs with
         | context [String.eqb f ?s] => destruct (String.eqb f s)
         end;
    try (injection Hs as <-;
         cbn [DmVerityInfo.HashType DmVerityInfo.Hash DmVerityInfo.BlockNum
              DmVerityInfo.Blocksize DmVerityInfo.Hashsize DmVerityInfo.Offset];
         now rewrite Hu1, Hu2, Hr1, Hr2, Hr3, Hr4);
    match type of Hs with
    | context [storeString ?x ?o] =>
        destruct (storeString x o) as [y |] eqn:E; [| discriminate Hs];
        injection Hs as <-; apply storeString_valid in E; [| assumption ..]
    | context [storeUint64 ?x ?o] =>
        destruct (storeUint64 x o) as [y |] eqn:E; [| discriminate Hs];
        injection Hs as <-; apply storeUint64_range in E;
        [apply N.ltb_lt in E | now apply N.ltb_lt]
    end;
    cbn [DmVerityInfo.HashType DmVerityInfo.Hash DmVerityInfo.BlockNum DmVerityInfo.Blocksize
         DmVerityInfo.Hashsize DmVerityInfo.Offset];
    now rewrite ?E, ?Hu1, ?Hu2, ?Hr1, ?Hr2, ?Hr3, ?Hr4.
Qed.

Lemma direct_set_kept (f : string) (v : value) (a a' : DirectAssignedVolume.t) :
  validUTF8 v = true -> DirectAssignedVolume.set f v a = inl a' ->
  DirectAssignedVolume.validUTF8 a = true -> DirectAssignedVolume.validUTF8 a' = true.
Proof.
  intros Hv Hs Hu. destruct a as [m].
  unfold DirectAssignedVolume.validUTF8, DirectAssignedVolume.set, stored in *.
  cbn [DirectAssignedVolume.Metadata] in *.
  destruct (String.eqb f "metadata"); [| now injection Hs as <-].
  destruct (storeStringMap v m) as [y |] eqn:E; [| discriminate Hs].
  injection Hs as <-. exact (storeStringMap_valid _ _ _ E Hv Hu).
Qed.

Lemma pull_set_kept (f : string) (v : value) (a a' : ImagePullVolume.t) :
  validUTF8 v = true -> ImagePullVolume.set f v a = inl a' ->
  ImagePullVolume.validUTF8 a = true -> ImagePullVolume.validUTF8 a' = true.
Proof.
  intros Hv Hs Hu. destruct a as [m].
  unfold ImagePullVolume.validUTF8, ImagePullVolume.set, stored in *.
  cbn [ImagePullVolume.Metadata] in *.
  destruct (String.eqb f "metadata"); [| now injection Hs as <-].
  destruct (storeStringMap v m) as [y |] eqn:E; [| discriminate Hs].
  injection Hs as <-. exact (storeStringMap_valid _ _ _ E Hv Hu).
Qed.

Lemma nydus_set_kept (f : string) (v : value) (a a' : NydusImageVolume.t) :
  validUTF8 v = true -> NydusImageVolume.set f v a = inl a' ->
  NydusImageVolume.validUTF8 a = true -> NydusImageVolume.validUTF8 a' = true.
Proof.
  intros Hv Hs Hu. destruct a as [c s].
  unfold NydusImageVolume.validUTF8, NydusImageVolume.set, stored in *.
  cbn [NydusImageVolume.Config NydusImageVolume.SnapshotDir] in *.
  apply andb_true_iff in Hu as [Hu1 Hu2].
  repeat match type of Hs with
         | context [String.eqb f ?s] => destruct (String.eqb f s)
         end;
    try (injection Hs as <-;
         cbn [NydusImageVolume.Config NydusImageVolume.SnapshotDir];
         now rewrite Hu1, Hu2);
    match type of Hs with
    | context [storeString ?x ?o] =>
        destruct (storeString x o) as [y |] eqn:E; [| discriminate Hs];
        injection Hs as <-; apply storeString_valid in E; [| assumption ..]
    end;
    cbn [NydusImageVolume.Config NydusImageVolume.SnapshotDir];
    now rewrite ?E, ?Hu1, ?Hu2.
Qed.

End StoredFacts.

Module CanonicalFacts.
Import Json Utf8 StoredFacts.
Import Notions.

Lemma from_option_bool {T : Type} (p : T -> bool) (o : option T) :
  from_option (fun x => p x = true) True o <-> from_option p true o = true.
Proof. destruct o; cbn; tauto. Qed.

Lemma verity_pointer_kept (v : value) (old r : option DmVerityInfo.t) :
  validUTF8 v = true ->
  storePointer DmVerityInfo.zero DmVerityInfo.names DmVerityInfo.set v old = inl r ->
  from_option DmVerityInfo.validUTF8 true old = true ->
  from_option DmVerityInfo.inRange true old = true ->
  from_option DmVerityInfo.validUTF8 true r = true
  /\ from_option DmVerityInfo.inRange true r = true.
Proof.
  intros Hv Hs Hu Hr.
  pose proof (storePointer_kept DmVerityInfo.zero DmVerityInfo.names DmVerityInfo.set
                (fun d => DmVerityInfo.validUTF8 d = true /\ DmVerityInfo.inRange d = true)
                verity_set_kept (conj eq_refl eq_refl) v old r Hv Hs) as H.
  destruct old as [d |]; cbn [from_option] in *;
    [specialize (H (conj Hu Hr)) | specialize (H I)];
    destruct r as [d' |]; cbn [from_option] in *; tauto.
Qed.

Import KataVirtualVolume.

Lemma volume_set_kept (f : string) (v : value) (a a' : t) :
  Json.validUTF8 v = true -> set f v a = inl a' ->
  KataVirtualVolume.validUTF8 a = true /\ inRange a = true ->
  KataVirtualVolume.validUTF8 a' = true /\ inRange a' = true.
Proof.
  intros Hv Hs [Hu Hr]. destruct a as [vt src fst opts dv ip ni dm].
  unfold KataVirtualVolume.validUTF8, inRange, set, stored in *.
  cbn [VolumeType Source FSType Options DirectVolume ImagePull NydusImage DmVerity] in *.
  apply andb_true_iff in Hu as [Hu H8]. apply andb_true_iff in Hu as [Hu H7].
  apply andb_true_iff in Hu as [Hu H6]. apply andb_true_iff in Hu as [Hu H5].
  apply andb_true_iff in Hu as [Hu H4]. apply andb_true_iff in Hu as [Hu H3].
  apply andb_true_iff in Hu as [H1 H2].
  change (match dm with Some d => DmVerityInfo.inRange d | None => true end)
    with (from_option DmVerityInfo.inRange true dm) in Hr.
  assert (Hfin : forall vt' src' fst' opts' dv' ip' ni' dm',
             ValidString vt' = true -> ValidString src' = true -> ValidString fst' = true ->
             forallb ValidString (default [] opts') = true ->
             from_option DirectAssignedVolume.validUTF8 true dv' = true ->
             from_option ImagePullVolume.validUTF8 true ip' = true ->
             from_option NydusImageVolume.validUTF8 true ni' = true ->
             from_option DmVerityInfo.validUTF8 true dm' = true ->
             from_option DmVerityInfo.inRange true dm' = true ->
             KataVirtualVolume.validUTF8 (mk vt' src' fst' opts' dv' ip' ni' dm') = true
             /\ inRange (mk vt' src' fst' opts' dv' ip' ni' dm') = true).
  { intros ? ? ? ? ? ? ? ? G1 G2 G3 G4 G5 G6 G7 G8 G9.
    unfold KataVirtualVolume.validUTF8, inRange.
    cbn [VolumeType Source FSType Options DirectVolume ImagePull NydusImage DmVerity].
    rewrite G1, G2, G3, G4, G5, G6, G7, G8. split; [reflexivity | exact G9]. }
  destruct (String.eqb f "volume_type").
  { destruct (storeString v vt) as [y |] eqn:E; [| discriminate Hs]. injection Hs as <-.
    apply Hfin; try assumption. exact (storeString_valid _ _ _ E Hv H1). }
  destruct (String.eqb f "source").
  { destruct (storeString v src) as [y |] eqn:E; [| discriminate Hs]. injection Hs as <-.
    apply Hfin; try assumption. exact (storeString_valid _ _ _ E Hv H2). }
  destruct (String.eqb f "fs_type").
  { destruct (storeString v fst) as [y |] eqn:E; [| discriminate Hs]. injection Hs as <-.
    apply Hfin; try assumption. exact (storeString_valid _ _ _ E Hv H3). }
  destruct (String.eqb f "options").
  { destruct (storeStringSlice v opts) as [y |] eqn:E; [| discriminate Hs].
    injection Hs as <-. apply Hfin; try assumption.
    exact (storeStringSlice_valid _ _ _ E Hv H4). }
  destruct (String.eqb f "direct_volume").
  { destruct (storePointer _ _ _ v dv) as [y |] eqn:E; [| discriminate Hs].
    injection Hs as <-. apply Hfin; try assumption.
    apply from_option_bool.
    apply (storePointer_kept DirectAssignedVolume.zero DirectAssignedVolume.names DirectAssignedVolume.set
             (fun d => DirectAssignedVolume.validUTF8 d = true) direct_set_kept eq_refl v dv y Hv E).
    now apply from_option_bool. }
  destruct (String.eqb f "image_pull").
  { destruct (storePointer _ _ _ v ip) as [y |] eqn:E; [| discriminate Hs].
    injection Hs as <-. apply Hfin; try assumption.
    apply from_option_bool.
    apply (storePointer_kept ImagePullVolume.zero ImagePullVolume.names ImagePullVolume.set
             (fun d => ImagePullVolume.validUTF8 d = true) pull_set_kept eq_refl v ip y Hv E).
    now apply from_option_bool. }
  destruct (String.eqb f "nydus_image").
  { destruct (storePointer _ _ _ v ni) as [y |] eqn:E; [| discriminate Hs].
    injection Hs as <-. apply Hfin; try assumption.
    apply from_option_bool.
    apply (storePointer_kept NydusImageVolume.zero NydusImageVolume.names NydusImageVolume.set
             (fun d => NydusImageVolume.validUTF8 d = true) nydus_set_kept eq_refl v ni y Hv E).
    now apply from_option_bool. }
  destruct (String.eqb f "dm_verity").
  { destruct (storePointer _ _ _ v dm) as [y |] eqn:E; [| discriminate Hs].
    injection Hs as <-.
    destruct (verity_pointer_kept v dm y Hv E H8 Hr) as [G8 G9].
    apply Hfin; assumption. }
  injection Hs as <-. apply Hfin; assumption.
Qed.

(** What [Unmarshal] stores into the zero descriptor holds well-formed
    UTF-8 and values of 64 bits. *)
Lemma Unmarshal_wellformed (data : list ascii) (no : t) :
  Unmarshal names set data zero = inl no ->
  KataVirtualVolume.validUTF8 no = true /\ inRange no = true.
Proof.
  unfold Unmarshal. destruct (parse data) as [v |] eqn:Ep; [| discriminate].
  apply TreeFacts.parse_validUTF8 in Ep.
  destruct v; cbn [storeStruct]; try discriminate.
  - intros [= <-]. split; reflexivity.
  - intros H. cbn [Json.validUTF8] in Ep.
    exact (storeFields_kept names set _ volume_set_kept m zero no Ep H
             (conj eq_refl eq_refl)).
Qed.

End CanonicalFacts.

(** X12: What the parser returns is in canonical form: every descriptor
    ParseKataVirtualVolume returns, whatever the bytes it was given, holds
    well-formed UTF-8 strings and numbers of 64 bits, and is read back
    as it is from its own transport string: encoding it with
    EncodeKataVirtualVolumeToBase64 and decoding the result with
    ParseKataVirtualVolumeFromBase64 returns the same descriptor (with a
    nil options slice where the parsed one was empty). *)
Theorem ParseKataVirtualVolume_canonical (option : list ascii) (no : KataVirtualVolume.t) :
  ParseKataVirtualVolume option = inl no ->
  KataVirtualVolume.validUTF8 no = true /\ KataVirtualVolume.inRange no = true
  /\ exists s, EncodeKataVirtualVolumeToBase64 no = inl s
       /\ ParseKataVirtualVolumeFromBase64 s = inl (KataVirtualVolume.transported no).
Proof.
  unfold ParseKataVirtualVolume at 1. intros H.
  destruct (Json.Unmarshal _ _ option _) as [no' |] eqn:Eu; [| discriminate].
  destruct (KataVirtualVolume.IsValid no') eqn:Ev; [| discriminate].
  injection H as <-.
  destruct (CanonicalFacts.Unmarshal_wellformed _ _ Eu) as [Hu Hr].
  split; [exact Hu |]. split; [exact Hr |].
  eexists. split; [reflexivity |].
  unfold ParseKataVirtualVolumeFromBase64.
  rewrite Base64Facts.DecodeString_EncodeToString.
  unfold ParseKataVirtualVolume.
  rewrite (CodecFacts.Unmarshal_Marshal_volume _ Hr Hu).
  now rewrite CodecFacts.IsValid_transported, Ev.
Qed.

Lemma ParseKataVirtualVolume_canonical_witness :
  KataVirtualVolume.validUTF8 (KataVirtualVolume.transported (coerceVolume byteVolume)) = true
  /\ KataVirtualVolume.inRange (KataVirtualVolume.transported (coerceVolume byteVolume)) = true
  /\ exists s,
       EncodeKataVirtualVolumeToBase64 (KataVirtualVolume.transported (coerceVolume byteVolume))
       = inl s
       /\ ParseKataVirtualVolumeFromBase64 s
          = inl (KataVirtualVolume.transported
                   (KataVirtualVolume.transported (coerceVolume byteVolume))).
Proof.
  apply (ParseKataVirtualVolume_canonical
           (Json.print (KataVirtualVolume.encode byteVolume))).
  vm_compute. reflexivity.
Defined.

(** X13: What ParseDmVerityInfo returns is in canonical form: every verity
    descriptor it returns, whatever the text it was given (members in
    any order, unknown members, escapes, white space), holds numbers
    of 64 bits and ASCII strings, and parsing the JSON text json.Marshal
    writes for it returns the same descriptor. *)
Theorem ParseDmVerityInfo_canonical (option : string) (no : DmVerityInfo.t) :
  ParseDmVerityInfo option = inl no ->
  DmVerityInfo.inRange no = true
  /\ allAscii (DmVerityInfo.HashType no) = true /\ allAscii (DmVerityInfo.Hash no) = true
  /\ ParseDmVerityInfo (string_of_list_ascii (Json.print (DmVerityInfo.encode no))) = inl no.
Proof.
  intros H. pose proof H as H'. unfold ParseDmVerityInfo, Json.Unmarshal in H'.
  destruct (Json.parse (list_ascii_of_string option)) as [v |] eqn:Ep; [| discriminate].
  destruct (Json.storeStruct _ _ v DmVerityInfo.zero) as [no' |] eqn:Es; [| discriminate].
  destruct (DmVerityInfo.IsValid no') eqn:Ev; [discriminate |]. injection H' as <-.
  assert (Hr : DmVerityInfo.inRange no' = true).
  { apply TreeFacts.parse_validUTF8 in Ep.
    destruct v; cbn [Json.storeStruct] in Es; try discriminate.
    - now injection Es as <-.
    - cbn [Json.validUTF8] in Ep.
      exact (proj2 (StoredFacts.storeFields_kept DmVerityInfo.names DmVerityInfo.set _
                      StoredFacts.verity_set_kept m DmVerityInfo.zero no' Ep Es
                      (conj eq_refl eq_refl))). }
  destruct (TextFacts.IsValid_ascii no' Ev) as [H1 H2].
  repeat split; try assumption.
  unfold ParseDmVerityInfo.
  rewrite (verity_text_read no' Hr (TextFacts.IsValid_validUTF8 no' Ev)).
  now rewrite Ev.
Qed.

Lemma ParseDmVerityInfo_canonical_witness :
  DmVerityInfo.inRange Spec.vector = true
  /\ allAscii (DmVerityInfo.HashType Spec.vector) = true
  /\ allAscii (DmVerityInfo.Hash Spec.vector) = true
  /\ ParseDmVerityInfo (string_of_list_ascii (Json.print (DmVerityInfo.encode Spec.vector)))
     = inl Spec.vector.
Proof.
  apply (ParseDmVerityInfo_canonical
           (string_of_list_ascii
              (Json.print
                 (Json.JObject [("offset", Json.JNumber "409600");
                                ("HASHTYPE", Json.JString "sha256");
                                ("hash", Json.JString Spec.hash64);
                                ("note", Json.JArray [Json.JNull]);
                                ("blocknum", Json.JNumber "100");
                                ("blocksize", Json.JNumber "4096");
                                ("hashsize", Json.JNumber "4096")])))).
  vm_compute. reflexivity.
Defined.

